(** * ModelSpec example scripts: container framing, metadata merge, hashing

    A shallow embedding of the three Python example scripts of the
    ModelSpec repository

      - [examples/python/example_no_reqs.py]
      - [examples/python/example_hf_safetensors.py]
      - [examples/python/example_read_only.py]

    together with the parts of the Python runtime they call
    ([struct], [json], [hashlib], [base64], [os.path], [dict], [str]).

    Conventions.
      - A Python [str] is a list of Unicode code points ([list N]).
      - A Python [bytes] object is a [list byte].
      - A raised exception is the [Raise] branch of [result].
      - A value produced by [json.loads] is a [value]; a [dict] is an
        insertion-ordered association list with distinct keys. *)

From Stdlib Require Import NArith ZArith List String Ascii Bool Lia.
From Stdlib Require Import Init.Byte.
From Stdlib Require Import DecimalFacts DecimalPos DecimalZ.
Import ListNotations.

Set Implicit Arguments.
Set Warnings "-register-all".

Local Open Scope N_scope.

(** ** Python runtime: exceptions, text and bytes *)

Definition pystr := list N.
Definition pybytes := list byte.

(** The exceptions the scripts can run into.  [ObjectError] stands for the
    [TypeError], [AttributeError] or [KeyError] that Python raises when an
    operation is applied to an object of the wrong type, and [NotEmbedded]
    marks an input that leads into a part of the library left out of the
    embedding (floating-point literals, UTF-16 and UTF-32 texts). *)
Inductive exn : Type :=
| StructError
| OverflowError
| UnicodeDecodeError
| UnicodeEncodeError
| JSONDecodeError
| ObjectError
| RecursionError
| NotEmbedded.

Inductive result (A : Type) : Type :=
| Ok (a : A)
| Raise (e : exn).

Arguments Ok {A} a.
Arguments Raise {A} e.

Definition bind {A B} (r : result A) (k : A -> result B) : result B :=
  match r with
  | Ok a => k a
  | Raise e => Raise e
  end.

Notation "x <- r ;; k" := (bind r (fun x => k))
  (at level 61, r at next level, right associativity).
Notation "' p <- r ;; k" := (bind r (fun x => let p := x in k))
  (at level 61, p pattern, r at next level, right associativity).

(** A string literal of the scripts, as code points. *)
Definition lit (s : string) : pystr :=
  map N_of_ascii (list_ascii_of_string s).

Arguments lit : simpl never.

Fixpoint str_eqb (a b : pystr) : bool :=
  match a, b with
  | [], [] => true
  | x :: a', y :: b' => (x =? y) && str_eqb a' b'
  | _, _ => false
  end.

(** [s.startswith(p)] *)
Fixpoint startswith (p s : pystr) : bool :=
  match p, s with
  | [], _ => true
  | x :: p', y :: s' => (x =? y) && startswith p' s'
  | _ :: _, [] => false
  end.

(** [p in s] for two strings: substring test. *)
Fixpoint substring_in (p s : pystr) : bool :=
  startswith p s ||
  match s with
  | [] => false
  | _ :: s' => substring_in p s'
  end.

(** [s.rfind(c)] for a one-character needle: the largest index, or -1. *)
Fixpoint rfind_from (c : N) (s : pystr) (i : Z) (last : Z) : Z :=
  match s with
  | [] => last
  | x :: s' => rfind_from c s' (i + 1)%Z (if x =? c then i else last)
  end.

Definition rfind (c : N) (s : pystr) : Z := rfind_from c s 0%Z (-1)%Z.

Definition byte_of_N (n : N) : byte :=
  match Byte.of_N (n mod 256) with
  | Some b => b
  | None => x00
  end.

(** ** [struct]: the ['Q'] format, an unsigned 64-bit integer.

    The scripts give no byte-order prefix, so the machine's order is used;
    the embedding fixes the little-endian one of the container format. *)
Module Struct.

Fixpoint le_bytes (count : nat) (n : N) : pybytes :=
  match count with
  | O => []
  | S c => byte_of_N n :: le_bytes c (n / 256)
  end.

Fixpoint le_value (b : pybytes) : N :=
  match b with
  | [] => 0
  | x :: b' => Byte.to_N x + 256 * le_value b'
  end.

(** [struct.pack('Q', n)] *)
Definition pack_Q (n : N) : result pybytes :=
  if n <? 2 ^ 64 then Ok (le_bytes 8 n) else Raise StructError.

(** [struct.unpack('Q', b)[0]] *)
Definition unpack_Q (b : pybytes) : result N :=
  if Nat.eqb (List.length b) 8 then Ok (le_value b) else Raise StructError.

End Struct.

(** ** Binary files opened for reading: the bytes not yet consumed.

    The memory that a read needs is taken to be at hand.  The interpreter
    gets the buffer for all [n] bytes of a [read(n)] before it reads, so a
    length far beyond the size of the file can end in [MemoryError]; the
    statements below that let the declared length exceed what the file
    holds keep it within [max_header_len]. *)
Module File.

(** [file_data.read(n)]: at most [n] bytes, and the rest of the file; the
    size has to fit a machine index ([Py_ssize_t], 64 bits). *)
Definition read (n : N) (f : pybytes) : result (pybytes * pybytes) :=
  if n <? 2 ^ 63 then Ok (firstn (N.to_nat n) f, skipn (N.to_nat n) f)
  else Raise OverflowError.

(** [file_data.read()]: everything that is left. *)
Definition read_all (f : pybytes) : pybytes * pybytes := (f, []).

End File.

(** ** UTF-8: [str.encode('utf-8')] and [bytes.decode('utf-8', errors)] *)
Module Utf8.

Definition cont (n : N) : byte := byte_of_N (0x80 + n mod 64).

Definition encode_char (c : N) : result pybytes :=
  if c <? 0x80 then Ok [byte_of_N c]
  else if c <? 0x800 then Ok [byte_of_N (0xC0 + c / 64); cont c]
  else if (0xD800 <=? c) && (c <=? 0xDFFF) then Raise UnicodeEncodeError
  else if c <? 0x10000 then
    Ok [byte_of_N (0xE0 + c / 4096); cont (c / 64); cont c]
  else if c <? 0x110000 then
    Ok [byte_of_N (0xF0 + c / 262144); cont (c / 4096); cont (c / 64); cont c]
  else Raise UnicodeEncodeError.

Fixpoint encode (s : pystr) : result pybytes :=
  match s with
  | [] => Ok []
  | c :: s' =>
      b <- encode_char c ;;
      r <- encode s' ;;
      Ok (b ++ r)
  end.

Definition between (lo hi : N) (b : byte) : bool :=
  (lo <=? Byte.to_N b) && (Byte.to_N b <=? hi).

Definition low6 (b : byte) : N := Byte.to_N b mod 64.

(** The second byte allowed after a three- or four-byte lead byte; with
    the [surrogatepass] error handler the lead 0xED admits every
    continuation byte, otherwise only those below 0xA0. *)
Definition second_ok (surrogatepass : bool) (lead : byte) (b : byte) : bool :=
  let l := Byte.to_N lead in
  if l =? 0xE0 then between 0xA0 0xBF b
  else if l =? 0xED then between 0x80 (if surrogatepass then 0xBF else 0x9F) b
  else if l =? 0xF0 then between 0x90 0xBF b
  else if l =? 0xF4 then between 0x80 0x8F b
  else between 0x80 0xBF b.

Section Decode.
Variable surrogatepass : bool.

Fixpoint decode (b : pybytes) : result pystr :=
  match b with
  | [] => Ok []
  | b0 :: r0 =>
      if between 0x00 0x7F b0 then
        s <- decode r0 ;; Ok (Byte.to_N b0 :: s)
      else if between 0xC2 0xDF b0 then
        match r0 with
        | b1 :: r1 =>
            if between 0x80 0xBF b1 then
              s <- decode r1 ;;
              Ok (((Byte.to_N b0 mod 32) * 64 + low6 b1) :: s)
            else Raise UnicodeDecodeError
        | _ => Raise UnicodeDecodeError
        end
      else if between 0xE0 0xEF b0 then
        match r0 with
        | b1 :: b2 :: r2 =>
            if second_ok surrogatepass b0 b1 && between 0x80 0xBF b2 then
              s <- decode r2 ;;
              Ok (((Byte.to_N b0 mod 16) * 4096 + low6 b1 * 64 + low6 b2) :: s)
            else Raise UnicodeDecodeError
        | _ => Raise UnicodeDecodeError
        end
      else if between 0xF0 0xF4 b0 then
        match r0 with
        | b1 :: b2 :: b3 :: r3 =>
            if second_ok surrogatepass b0 b1
               && between 0x80 0xBF b2 && between 0x80 0xBF b3
            then
              s <- decode r3 ;;
              Ok (((Byte.to_N b0 mod 8) * 262144 + low6 b1 * 4096
                   + low6 b2 * 64 + low6 b3) :: s)
            else Raise UnicodeDecodeError
        | _ => Raise UnicodeDecodeError
        end
      else Raise UnicodeDecodeError
  end.

End Decode.

End Utf8.

(** ** Objects produced by [json.loads]

    [JObj] is a [dict] (keys are always [str]), [JArr] a [list], [JStr] a
    [str], [JInt] an [int], [JBool] a [bool] and [JNull] is [None].
    Floating-point numbers are not embedded. *)
Inductive value : Type :=
| JNull
| JBool (b : bool)
| JInt (z : Z)
| JStr (s : pystr)
| JArr (l : list value)
| JObj (d : list (pystr * value)).

Definition dict := list (pystr * value).

(** ** [dict]: insertion-ordered, one entry per key *)
Module Dict.

(** [d.get(k)] / [d[k]] *)
Fixpoint get (k : pystr) (d : dict) : option value :=
  match d with
  | [] => None
  | (k', v) :: d' => if str_eqb k k' then Some v else get k d'
  end.

(** [k in d] *)
Definition mem (k : pystr) (d : dict) : bool :=
  match get k d with Some _ => true | None => false end.

(** [d[k] = v]: an existing key keeps its position, a new one goes last. *)
Fixpoint set (k : pystr) (v : value) (d : dict) : dict :=
  match d with
  | [] => [(k, v)]
  | (k', v') :: d' =>
      if str_eqb k k' then (k', v) :: d' else (k', v') :: set k v d'
  end.

(** [del d[k]], for a key known to be present. *)
Fixpoint del (k : pystr) (d : dict) : dict :=
  match d with
  | [] => []
  | (k', v') :: d' =>
      if str_eqb k k' then d' else (k', v') :: del k d'
  end.

(** [d.update(m)] *)
Definition update (d m : dict) : dict :=
  fold_left (fun acc kv => set (fst kv) (snd kv) acc) m d.

(** [dict(pairs)] *)
Definition of_pairs (pairs : list (pystr * value)) : dict := update [] pairs.

End Dict.

(** ** [json]: [dumps] with its default options, [loads] of a [bytes] object

    The decoder follows [json/decoder.py] and [json/scanner.py].  Left out:
    floating-point numbers, the UTF-16 and UTF-32 input encodings, and the
    limits of the interpreter (recursion depth, digits of an integer). *)
Module Json.

(** *** Characters *)
Definition QUOTE : N := 34.
Definition BACKSLASH : N := 92.
Definition LBRACE : N := 123.
Definition RBRACE : N := 125.
Definition LBRACKET : N := 91.
Definition RBRACKET : N := 93.
Definition COMMA : N := 44.
Definition COLON : N := 58.
Definition SPACE : N := 32.
Definition MINUS : N := 45.
Definition LOWER_U : N := 117.

(** *** Encoder ([json.dumps] with its defaults: [ensure_ascii=True], a
    comma and a space between items, a colon and a space after a key) *)

Definition hexdigit (d : N) : N := if d <? 10 then 48 + d else 87 + d.

(** ['{0:04x}'.format(n)] *)
Definition hex4 (n : N) : pystr :=
  [hexdigit (n / 4096 mod 16); hexdigit (n / 256 mod 16);
   hexdigit (n / 16 mod 16); hexdigit (n mod 16)].

Definition uescape (n : N) : pystr := BACKSLASH :: LOWER_U :: hex4 n.

(** A character that [ESCAPE_ASCII] leaves alone: [' '..'~'] but for the
    quote and the backslash. *)
Definition plain_char (c : N) : bool :=
  (32 <=? c) && (c <=? 126) && negb (c =? QUOTE) && negb (c =? BACKSLASH).

Definition escape_char (c : N) : pystr :=
  if plain_char c then [c]
  else if c =? QUOTE then [BACKSLASH; QUOTE]
  else if c =? BACKSLASH then [BACKSLASH; BACKSLASH]
  else if c =? 10 then [BACKSLASH; 110]
  else if c =? 13 then [BACKSLASH; 114]
  else if c =? 9 then [BACKSLASH; 116]
  else if c =? 12 then [BACKSLASH; 102]
  else if c =? 8 then [BACKSLASH; 98]
  else if c <? 0x10000 then uescape c
  else
    let n := c - 0x10000 in
    uescape (N.lor 0xD800 (N.land (N.shiftr n 10) 0x3FF))
    ++ uescape (N.lor 0xDC00 (N.land n 0x3FF)).

(** [encode_basestring_ascii] without the surrounding quotes. *)
Fixpoint escape (s : pystr) : pystr :=
  match s with
  | [] => []
  | c :: s' => escape_char c ++ escape s'
  end.

Definition encode_str (s : pystr) : pystr := QUOTE :: escape s ++ [QUOTE].

Definition digit_char (d : N) : N := 48 + d.

Fixpoint uint_chars (u : Decimal.uint) : pystr :=
  match u with
  | Decimal.Nil => []
  | Decimal.D0 u' => digit_char 0 :: uint_chars u'
  | Decimal.D1 u' => digit_char 1 :: uint_chars u'
  | Decimal.D2 u' => digit_char 2 :: uint_chars u'
  | Decimal.D3 u' => digit_char 3 :: uint_chars u'
  | Decimal.D4 u' => digit_char 4 :: uint_chars u'
  | Decimal.D5 u' => digit_char 5 :: uint_chars u'
  | Decimal.D6 u' => digit_char 6 :: uint_chars u'
  | Decimal.D7 u' => digit_char 7 :: uint_chars u'
  | Decimal.D8 u' => digit_char 8 :: uint_chars u'
  | Decimal.D9 u' => digit_char 9 :: uint_chars u'
  end.

(** [int.__repr__] *)
Definition encode_int (z : Z) : pystr :=
  match Z.to_int z with
  | Decimal.Pos u => uint_chars u
  | Decimal.Neg u => MINUS :: uint_chars u
  end.

Definition item_separator : pystr := [COMMA; SPACE].
Definition key_separator : pystr := [COLON; SPACE].

Fixpoint encode (v : value) : pystr :=
  match v with
  | JNull => lit "null"
  | JBool true => lit "true"
  | JBool false => lit "false"
  | JInt z => encode_int z
  | JStr s => encode_str s
  | JArr l =>
      LBRACKET ::
      (fix items (l : list value) : pystr :=
         match l with
         | [] => [RBRACKET]
         | x :: l' =>
             encode x ++
             match l' with
             | [] => [RBRACKET]
             | _ :: _ => item_separator ++ items l'
             end
         end) l
  | JObj d =>
      LBRACE ::
      (fix members (d : list (pystr * value)) : pystr :=
         match d with
         | [] => [RBRACE]
         | (k, x) :: d' =>
             encode_str k ++ key_separator ++ encode x ++
             match d' with
             | [] => [RBRACE]
             | _ :: _ => item_separator ++ members d'
             end
         end) d
  end.

Definition dumps (v : value) : pystr := encode v.

(** The two inner loops of [encode], by name. *)
Fixpoint encode_items (l : list value) : pystr :=
  match l with
  | [] => [RBRACKET]
  | x :: l' =>
      encode x ++
      match l' with
      | [] => [RBRACKET]
      | _ :: _ => item_separator ++ encode_items l'
      end
  end.

Fixpoint encode_members (d : list (pystr * value)) : pystr :=
  match d with
  | [] => [RBRACE]
  | (k, x) :: d' =>
      encode_str k ++ key_separator ++ encode x ++
      match d' with
      | [] => [RBRACE]
      | _ :: _ => item_separator ++ encode_members d'
      end
  end.

(** *** Decoder ([json.loads]) *)

(** [WHITESPACE.match(s, end).end()] *)
Definition is_ws (c : N) : bool :=
  (c =? 32) || (c =? 9) || (c =? 10) || (c =? 13).

Fixpoint skip_ws (s : pystr) : pystr :=
  match s with
  | c :: s' => if is_ws c then skip_ws s' else s
  | [] => []
  end.

Definition hexval (c : N) : option N :=
  if (48 <=? c) && (c <=? 57) then Some (c - 48)
  else if (97 <=? c) && (c <=? 102) then Some (c - 87)
  else if (65 <=? c) && (c <=? 70) then Some (c - 55)
  else None.

(** The four hexadecimal digits of a [\uXXXX] escape. *)
Definition decode_hex4 (h1 h2 h3 h4 : N) : result N :=
  match hexval h1, hexval h2, hexval h3, hexval h4 with
  | Some a, Some b, Some c, Some d => Ok (a * 4096 + b * 256 + c * 16 + d)
  | _, _, _, _ => Raise JSONDecodeError
  end.

(** The [BACKSLASH] table of the decoder. *)
Definition unescape (e : N) : result N :=
  if e =? QUOTE then Ok QUOTE
  else if e =? BACKSLASH then Ok BACKSLASH
  else if e =? 47 then Ok 47
  else if e =? 98 then Ok 8
  else if e =? 102 then Ok 12
  else if e =? 110 then Ok 10
  else if e =? 114 then Ok 13
  else if e =? 116 then Ok 9
  else Raise JSONDecodeError.

Definition is_high (u : N) : bool := (0xD800 <=? u) && (u <=? 0xDBFF).
Definition is_low (u : N) : bool := (0xDC00 <=? u) && (u <=? 0xDFFF).

Definition join_surrogates (hi lo : N) : N :=
  0x10000 + N.lor (N.shiftl (hi - 0xD800) 10) (lo - 0xDC00).

(** [scanstring(s, end, strict=True)], entered after the opening quote:
    the decoded string and the text after the closing quote. *)
Fixpoint scanstring (s : pystr) : result (pystr * pystr) :=
  match s with
  | [] => Raise JSONDecodeError
  | c :: r =>
      if c =? QUOTE then Ok ([], r)
      else if c =? BACKSLASH then
        match r with
        | [] => Raise JSONDecodeError
        | e :: r1 =>
            if e =? LOWER_U then
              match r1 with
              | h1 :: h2 :: h3 :: h4 :: r2 =>
                  uni <- decode_hex4 h1 h2 h3 h4 ;;
                  let single :=
                    '(t, rest) <- scanstring r2 ;; Ok (uni :: t, rest) in
                  if is_high uni then
                    match r2 with
                    | b :: u :: g1 :: g2 :: g3 :: g4 :: r3 =>
                        if (b =? BACKSLASH) && (u =? LOWER_U) then
                          uni2 <- decode_hex4 g1 g2 g3 g4 ;;
                          if is_low uni2 then
                            '(t, rest) <- scanstring r3 ;;
                            Ok (join_surrogates uni uni2 :: t, rest)
                          else single
                        else single
                    | _ => single
                    end
                  else single
              | _ => Raise JSONDecodeError
              end
            else
              ch <- unescape e ;;
              '(t, rest) <- scanstring r1 ;;
              Ok (ch :: t, rest)
        end
      else if c <=? 0x1F then Raise JSONDecodeError
      else
        '(t, rest) <- scanstring r ;;
        Ok (c :: t, rest)
  end.

Definition is_digit (c : N) : bool := (48 <=? c) && (c <=? 57).

(** The longest run of decimal digits, as a [Decimal.uint], and the rest. *)
Fixpoint take_digits (s : pystr) : Decimal.uint * pystr :=
  match s with
  | [] => (Decimal.Nil, [])
  | c :: s' =>
      if is_digit c then
        let '(u, rest) := take_digits s' in
        ((if c =? 48 then Decimal.D0
          else if c =? 49 then Decimal.D1
          else if c =? 50 then Decimal.D2
          else if c =? 51 then Decimal.D3
          else if c =? 52 then Decimal.D4
          else if c =? 53 then Decimal.D5
          else if c =? 54 then Decimal.D6
          else if c =? 55 then Decimal.D7
          else if c =? 56 then Decimal.D8
          else Decimal.D9) u, rest)
      else (Decimal.Nil, s)
  end.

(** The integer part of [NUMBER_RE]: a zero, or a non-zero digit and the
    digits that follow it. *)
Definition match_digits (s : pystr) : option (Decimal.uint * pystr) :=
  match s with
  | c :: s' =>
      if c =? 48 then Some (Decimal.D0 Decimal.Nil, s')
      else if is_digit c then Some (take_digits s)
      else None
  | [] => None
  end.

(** The fraction group of [NUMBER_RE] matches: a dot and a digit. *)
Definition has_frac (s : pystr) : bool :=
  match s with
  | p :: d :: _ => (p =? 46) && is_digit d
  | _ => false
  end.

(** The exponent group of [NUMBER_RE] matches: [e] or [E], an optional
    sign, a digit. *)
Definition has_exp (s : pystr) : bool :=
  match s with
  | e :: d :: r =>
      ((e =? 101) || (e =? 69)) &&
      (is_digit d ||
       (((d =? 43) || (d =? 45)) &&
        match r with d' :: _ => is_digit d' | [] => false end))
  | _ => false
  end.

(** [match_number] and the conversion of its groups; [None] when the
    pattern does not match.  A literal with a fraction or an exponent is a
    float, which is not embedded. *)
Definition match_number (s : pystr) : option (result (value * pystr)) :=
  let signed (neg : bool) (m : option (Decimal.uint * pystr)) :=
    match m with
    | None => None
    | Some (u, rest) =>
        if has_frac rest || has_exp rest then Some (Raise NotEmbedded)
        else
          Some (Ok (JInt (Z.of_int (if neg then Decimal.Neg u
                                    else Decimal.Pos u)), rest))
    end in
  match s with
  | c :: s' => if c =? MINUS then signed true (match_digits s')
               else signed false (match_digits s)
  | [] => None
  end.

(** [_scan_once], [JSONObject] and [JSONArray].  The recursion of the
    decoder is bounded by a counter, which [decode] sets from the length of
    the text so that it never runs out (lemma [decode_counter_suffices]);
    the recursion limit of the interpreter itself is not embedded. *)
Fixpoint scan_once (fuel : nat) (s : pystr) : result (value * pystr) :=
  match fuel with
  | O => Raise RecursionError
  | S f =>
      match s with
      | [] => Raise JSONDecodeError
      | c :: r =>
          if c =? QUOTE then
            '(t, rest) <- scanstring r ;; Ok (JStr t, rest)
          else if c =? LBRACE then
            match skip_ws r with
            | c1 :: r2 =>
                if c1 =? RBRACE then Ok (JObj [], r2)
                else if c1 =? QUOTE then
                  '(pairs, rest) <- object_loop f r2 ;;
                  Ok (JObj (Dict.of_pairs pairs), rest)
                else Raise JSONDecodeError
            | [] => Raise JSONDecodeError
            end
          else if c =? LBRACKET then
            match skip_ws r with
            | c1 :: r2 =>
                if c1 =? RBRACKET then Ok (JArr [], r2)
                else
                  '(l, rest) <- array_loop f (skip_ws r) ;;
                  Ok (JArr l, rest)
            | [] => Raise JSONDecodeError
            end
          else if startswith (lit "null") s then
            Ok (JNull, skipn 4 s)
          else if startswith (lit "true") s then
            Ok (JBool true, skipn 4 s)
          else if startswith (lit "false") s then
            Ok (JBool false, skipn 5 s)
          else
            match match_number s with
            | Some m => m
            | None =>
                if startswith (lit "NaN") s || startswith (lit "Infinity") s
                   || startswith (lit "-Infinity") s
                then Raise NotEmbedded
                else Raise JSONDecodeError
            end
      end
  end

(** The [while True] loop of [JSONObject], entered after the opening
    quote of a key. *)
with object_loop (fuel : nat) (s : pystr)
  : result (list (pystr * value) * pystr) :=
  match fuel with
  | O => Raise RecursionError
  | S f =>
      '(key, r) <- scanstring s ;;
      match skip_ws r with
      | c :: r1 =>
          if c =? COLON then
            '(v, r2) <- scan_once f (skip_ws r1) ;;
            match skip_ws r2 with
            | c2 :: r3 =>
                if c2 =? RBRACE then Ok ([(key, v)], r3)
                else if c2 =? COMMA then
                  match skip_ws r3 with
                  | c3 :: r4 =>
                      if c3 =? QUOTE then
                        '(pairs, rest) <- object_loop f r4 ;;
                        Ok ((key, v) :: pairs, rest)
                      else Raise JSONDecodeError
                  | [] => Raise JSONDecodeError
                  end
                else Raise JSONDecodeError
            | [] => Raise JSONDecodeError
            end
          else Raise JSONDecodeError
      | [] => Raise JSONDecodeError
      end
  end

(** The [while True] loop of [JSONArray], entered at the first character
    of an element. *)
with array_loop (fuel : nat) (s : pystr) : result (list value * pystr) :=
  match fuel with
  | O => Raise RecursionError
  | S f =>
      '(v, r) <- scan_once f s ;;
      match skip_ws r with
      | c :: r1 =>
          if c =? RBRACKET then Ok ([v], r1)
          else if c =? COMMA then
            '(l, rest) <- array_loop f (skip_ws r1) ;;
            Ok (v :: l, rest)
          else Raise JSONDecodeError
      | [] => Raise JSONDecodeError
      end
  end.

(** [JSONDecoder.decode]: one value, then nothing but white space. *)
Definition decode (s : pystr) : result value :=
  '(obj, rest) <- scan_once (2 * List.length s + 2) (skip_ws s) ;;
  match skip_ws rest with
  | [] => Ok obj
  | _ :: _ => Raise JSONDecodeError
  end.

Inductive encoding : Type :=
| UTF_8 | UTF_8_SIG | UTF_16 | UTF_16_BE | UTF_16_LE
| UTF_32 | UTF_32_BE | UTF_32_LE.

(** [json.detect_encoding] *)
Definition detect_encoding (b : pybytes) : encoding :=
  let n := map Byte.to_N b in
  if startswith [0; 0; 0xFE; 0xFF] n || startswith [0xFF; 0xFE; 0; 0] n
  then UTF_32
  else if startswith [0xFE; 0xFF] n || startswith [0xFF; 0xFE] n then UTF_16
  else if startswith [0xEF; 0xBB; 0xBF] n then UTF_8_SIG
  else
    match n with
    | [b0; b1] =>
        if b0 =? 0 then UTF_16_BE
        else if b1 =? 0 then UTF_16_LE
        else UTF_8
    | b0 :: b1 :: b2 :: b3 :: _ =>
        if b0 =? 0 then (if b1 =? 0 then UTF_32_BE else UTF_16_BE)
        else if b1 =? 0 then
          (if negb (b2 =? 0) || negb (b3 =? 0) then UTF_16_LE else UTF_32_LE)
        else UTF_8
    | _ => UTF_8
    end.

(** [json.loads(b)] for a [bytes] argument.  Only the UTF-8 branches of the
    decoding are embedded. *)
Definition loads (b : pybytes) : result value :=
  match detect_encoding b with
  | UTF_8 => s <- Utf8.decode true b ;; decode s
  | UTF_8_SIG => s <- Utf8.decode true (skipn 3 b) ;; decode s
  | _ => Raise NotEmbedded
  end.

End Json.

(** ** [hashlib.sha256] (FIPS 180-4) *)
Module Hashlib.

(** The round constants: the first 32 bits of the fractional parts of the
    cube roots of the first 64 primes, eight to a row. *)
Definition K : list N :=
  [0x428a2f98; 0x71374491; 0xb5c0fbcf; 0xe9b5dba5;
   0x3956c25b; 0x59f111f1; 0x923f82a4; 0xab1c5ed5]
  ++
  [0xd807aa98; 0x12835b01; 0x243185be; 0x550c7dc3;
   0x72be5d74; 0x80deb1fe; 0x9bdc06a7; 0xc19bf174]
  ++
  [0xe49b69c1; 0xefbe4786; 0x0fc19dc6; 0x240ca1cc;
   0x2de92c6f; 0x4a7484aa; 0x5cb0a9dc; 0x76f988da]
  ++
  [0x983e5152; 0xa831c66d; 0xb00327c8; 0xbf597fc7;
   0xc6e00bf3; 0xd5a79147; 0x06ca6351; 0x14292967]
  ++
  [0x27b70a85; 0x2e1b2138; 0x4d2c6dfc; 0x53380d13;
   0x650a7354; 0x766a0abb; 0x81c2c92e; 0x92722c85]
  ++
  [0xa2bfe8a1; 0xa81a664b; 0xc24b8b70; 0xc76c51a3;
   0xd192e819; 0xd6990624; 0xf40e3585; 0x106aa070]
  ++
  [0x19a4c116; 0x1e376c08; 0x2748774c; 0x34b0bcb5;
   0x391c0cb3; 0x4ed8aa4a; 0x5b9cca4f; 0x682e6ff3]
  ++
  [0x748f82ee; 0x78a5636f; 0x84c87814; 0x8cc70208;
   0x90befffa; 0xa4506ceb; 0xbef9a3f7; 0xc67178f2].

Definition w32 (x : N) : N := x mod 2 ^ 32.
Definition add32 (x y : N) : N := w32 (x + y).
Definition rotr (n x : N) : N :=
  N.lor (N.shiftr x n) (w32 (N.shiftl x (32 - n))).
Definition not32 (x : N) : N := N.lxor x 0xFFFFFFFF.

Definition Ch (x y z : N) : N := N.lxor (N.land x y) (N.land (not32 x) z).
Definition Maj (x y z : N) : N :=
  N.lxor (N.lxor (N.land x y) (N.land x z)) (N.land y z).
Definition Sigma0 (x : N) : N :=
  N.lxor (N.lxor (rotr 2 x) (rotr 13 x)) (rotr 22 x).
Definition Sigma1 (x : N) : N :=
  N.lxor (N.lxor (rotr 6 x) (rotr 11 x)) (rotr 25 x).
Definition sigma0 (x : N) : N :=
  N.lxor (N.lxor (rotr 7 x) (rotr 18 x)) (N.shiftr x 3).
Definition sigma1 (x : N) : N :=
  N.lxor (N.lxor (rotr 17 x) (rotr 19 x)) (N.shiftr x 10).

(** The initial hash value: the first 32 bits of the fractional parts of
    the square roots of the first eight primes. *)
Definition H0 : list N :=
  [0x6a09e667; 0xbb67ae85; 0x3c6ef372; 0xa54ff53a;
   0x510e527f; 0x9b05688c; 0x1f83d9ab; 0x5be0cd19].

Definition be_value (b : pybytes) : N :=
  fold_left (fun acc x => acc * 256 + Byte.to_N x) b 0.

Fixpoint be_bytes (count : nat) (n : N) : pybytes :=
  match count with
  | O => []
  | S c => byte_of_N (n / 256 ^ N.of_nat c) :: be_bytes c n
  end.

(** The message, a 1 bit, zero bits up to 56 modulo 64 bytes, and the
    length in bits as a 64-bit big-endian integer. *)
Definition pad (m : pybytes) : pybytes :=
  let l := N.of_nat (List.length m) in
  let k := (119 - l mod 64) mod 64 in
  m ++ [x80] ++ repeat x00 (N.to_nat k) ++ be_bytes 8 (8 * l).

Fixpoint words (n : nat) (b : pybytes) : list N :=
  match n with
  | O => []
  | S n' => be_value (firstn 4 b) :: words n' (skipn 4 b)
  end.

(** The message schedule, latest word first. *)
Fixpoint schedule (n : nat) (w : list N) : list N :=
  match n with
  | O => w
  | S n' =>
      let x := add32 (add32 (sigma1 (nth 1 w 0)) (nth 6 w 0))
                     (add32 (sigma0 (nth 14 w 0)) (nth 15 w 0)) in
      schedule n' (x :: w)
  end.

Definition round (st : list N) (kw : N * N) : list N :=
  match st with
  | [a; b; c; d; e; f; g; h] =>
      let t1 := add32 (add32 (add32 h (Sigma1 e)) (Ch e f g))
                      (add32 (fst kw) (snd kw)) in
      let t2 := add32 (Sigma0 a) (Maj a b c) in
      [add32 t1 t2; a; b; c; add32 d t1; e; f; g]
  | _ => st
  end.

Definition compress (h : list N) (block : pybytes) : list N :=
  let w := rev (schedule 48 (rev (words 16 block))) in
  map (fun p => add32 (fst p) (snd p))
      (combine h (fold_left round (combine K w) h)).

Fixpoint blocks (n : nat) (h : list N) (m : pybytes) : list N :=
  match n with
  | O => h
  | S n' => blocks n' (compress h (firstn 64 m)) (skipn 64 m)
  end.

(** [hashlib.sha256(data).digest()] *)
Definition sha256 (data : pybytes) : pybytes :=
  let m := pad data in
  flat_map (be_bytes 4) (blocks (List.length m / 64) H0 m).

Definition hexchar (d : N) : N := if d <? 10 then 48 + d else 87 + d.

Fixpoint hex (b : pybytes) : pystr :=
  match b with
  | [] => []
  | x :: b' =>
      hexchar (Byte.to_N x / 16) :: hexchar (Byte.to_N x mod 16) :: hex b'
  end.

(** [h = hashlib.sha256(); h.update(data); h.hexdigest()] *)
Definition hexdigest (data : pybytes) : pystr := hex (sha256 data).

End Hashlib.

(** ** [base64.b64encode] *)
Module Base64.

Definition b64char (n : N) : byte :=
  byte_of_N (if n <? 26 then 65 + n
             else if n <? 52 then 71 + n
             else if n <? 62 then n - 4
             else if n =? 62 then 43
             else 47).

Definition pad_char : byte := byte_of_N 61.

Fixpoint b64encode (b : pybytes) : pybytes :=
  match b with
  | [] => []
  | [x] =>
      let n := Byte.to_N x in
      [b64char (n / 4); b64char (n mod 4 * 16); pad_char; pad_char]
  | [x; y] =>
      let n := Byte.to_N x in
      let m := Byte.to_N y in
      [b64char (n / 4); b64char (n mod 4 * 16 + m / 16);
       b64char (m mod 16 * 4); pad_char]
  | x :: y :: z :: r =>
      let n := Byte.to_N x in
      let m := Byte.to_N y in
      let o := Byte.to_N z in
      b64char (n / 4) :: b64char (n mod 4 * 16 + m / 16)
      :: b64char (m mod 16 * 4 + o / 64) :: b64char (o mod 64)
      :: b64encode r
  end.

End Base64.

(** ** [os.path.splitext] (the POSIX flavour) *)
Module Path.

Definition SEP : N := 47.
Definition EXTSEP : N := 46.

(** [genericpath._splitext(p, '/', None, '.')]: the extension starts at
    the last dot, if that dot follows the last separator and some
    character of the file name before it is not a dot. *)
Definition splitext (p : pystr) : pystr * pystr :=
  let sepIndex := rfind SEP p in
  let dotIndex := rfind EXTSEP p in
  if (sepIndex <? dotIndex)%Z then
    let name := firstn (Z.to_nat (dotIndex - (sepIndex + 1)))
                       (skipn (Z.to_nat (sepIndex + 1)) p) in
    if existsb (fun c => negb (c =? EXTSEP)) name then
      (firstn (Z.to_nat dotIndex) p, skipn (Z.to_nat dotIndex) p)
    else (p, [])
  else (p, []).

End Path.

(** ** Operations of the Python object model used by the scripts

    Each one raises ([ObjectError]) on an operand of a type that Python
    rejects. *)
Module Py.

(** [k in x], for a [str] [k] *)
Definition contains (k : pystr) (x : value) : result bool :=
  match x with
  | JObj d => Ok (Dict.mem k d)
  | JArr l =>
      Ok (existsb (fun e => match e with
                            | JStr s => str_eqb k s
                            | _ => false
                            end) l)
  | JStr s => Ok (substring_in k s)
  | _ => Raise ObjectError
  end.

(** [x[k]], for a [str] [k] *)
Definition getitem (x : value) (k : pystr) : result value :=
  match x with
  | JObj d =>
      match Dict.get k d with
      | Some v => Ok v
      | None => Raise ObjectError
      end
  | _ => Raise ObjectError
  end.

(** [x[k] = v], for a [str] [k] *)
Definition setitem (x : value) (k : pystr) (v : value) : result value :=
  match x with
  | JObj d => Ok (JObj (Dict.set k v d))
  | _ => Raise ObjectError
  end.

(** [list(x.items())] *)
Definition items (x : value) : result dict :=
  match x with
  | JObj d => Ok d
  | _ => Raise ObjectError
  end.

(** [len(x)] *)
Definition len (x : value) : result N :=
  match x with
  | JStr s => Ok (N.of_nat (List.length s))
  | JArr l => Ok (N.of_nat (List.length l))
  | JObj d => Ok (N.of_nat (List.length d))
  | _ => Raise ObjectError
  end.

(** [x[:n]] *)
Definition slice_to (n : N) (x : value) : result value :=
  match x with
  | JStr s => Ok (JStr (firstn (N.to_nat n) s))
  | JArr l => Ok (JArr (firstn (N.to_nat n) l))
  | _ => Raise ObjectError
  end.

(** [x + s], for a [str] [s] *)
Definition add_str (x : value) (s : pystr) : result value :=
  match x with
  | JStr a => Ok (JStr (a ++ s))
  | _ => Raise ObjectError
  end.

(** [x.startswith(p)] *)
Definition startswith (x : value) (p : pystr) : result bool :=
  match x with
  | JStr s => Ok (startswith p s)
  | _ => Raise ObjectError
  end.

(** [x == s], for a [str] [s] *)
Definition eq_str (x : value) (s : pystr) : bool :=
  match x with
  | JStr a => str_eqb a s
  | _ => false
  end.

End Py.

(** ** Standard output

    The argument of a [print] call is an f-string: literal text and
    interpolated objects.  Turning an interpolated object into text is left
    to the console; for a [str] it is the string itself.

    A script is written in [io] as if the console took every line.  What
    a console does with the lines is the matter of [on_console] below: a
    line that it cannot encode makes [print] raise. *)
Inductive fpart : Type :=
| FLit (s : pystr)
| FVal (v : value).

Definition line := list fpart.


(** A computation that prints and may raise. *)
Definition io (A : Type) : Type := (list line * result A)%type.

Definition ret {A} (a : A) : io A := ([], Ok a).
Definition lift {A} (r : result A) : io A := ([], r).
Definition print (l : line) : io unit := ([l], Ok tt).
Definition print_str (s : string) : io unit := print [FLit (lit s)].

Definition iobind {A B} (m : io A) (k : A -> io B) : io B :=
  match snd m with
  | Ok a => (fst m ++ fst (k a), snd (k a))
  | Raise e => (fst m, Raise e)
  end.

Notation "x <~ m ;; k" := (iobind m (fun x => k))
  (at level 61, m at next level, right associativity).
Notation "' p <~ m ;; k" := (iobind m (fun x => let p := x in k))
  (at level 61, p pattern, m at next level, right associativity).
Notation "m ;;; k" := (iobind m (fun _ => k))
  (at level 61, right associativity).

(** *** The console

    Standard output is taken to encode in UTF-8, as Python 3 has it by
    default.  Text with a surrogate code point in it cannot be encoded: the
    [print] call raises [UnicodeEncodeError] and nothing of its line is
    shown. *)
Definition console_text (s : pystr) : bool :=
  forallb (fun c => match Utf8.encode_char c with
                    | Ok _ => true
                    | Raise _ => false
                    end) s.

(** An interpolated [str] goes to the console as it is.  Of any other
    object the text is built with [repr], which writes what cannot be shown
    as an escape. *)
Definition console_part (p : fpart) : bool :=
  match p with
  | FLit s => console_text s
  | FVal (JStr s) => console_text s
  | FVal _ => true
  end.

Definition console_line (l : line) : bool := forallb console_part l.

(** The lines up to the first one that the console refuses. *)
Fixpoint taken (log : list line) : list line :=
  match log with
  | [] => []
  | l :: log' => if console_line l then l :: taken log' else []
  end.

(** A run on the console: it is the run as written when every line is
    taken, and otherwise it stops at the first line that is refused, with
    the lines before it shown and [UnicodeEncodeError] raised. *)
Definition on_console {A} (m : io A) : io A :=
  if forallb console_line (fst m) then m
  else (taken (fst m), Raise UnicodeEncodeError).

(** ** What the three scripts share *)

(** The expression that shortens a value for display,
    [val[:max_len] + '...' if len(val) > max_len else val]. *)
Definition display_value (max_len : N) (val : value) : result value :=
  n <- Py.len val ;;
  if max_len <? n then
    s <- Py.slice_to max_len val ;;
    Py.add_str s (lit "...")
  else Ok val.

(** The f-string of an entry: four spaces, the key and the shown value,
    each between double quotes, with a colon and a space in between. *)
Definition entry_line (key : pystr) (shown : value) : line :=
  [FLit (lit "    " ++ [Json.QUOTE]); FVal (JStr key);
   FLit ([Json.QUOTE] ++ lit ": " ++ [Json.QUOTE]); FVal shown;
   FLit [Json.QUOTE]].

(** The image handed over by [Image.open], known by the PNG encoding that
    [image.save(buffered, format='PNG')] writes for it.  Opening and saving
    are the work of the imaging library and are taken to succeed; an image
    that it cannot open or save is outside the embedding. *)
Record Image : Type := { png : pybytes }.

(** [convert_to_b64] *)
Definition convert_to_b64 (image : Image) : result pystr :=
  let buffered := png image in
  Utf8.decode false (Base64.b64encode buffered).

(** The image branch at the start of [process], identical in the two scripts
    that write: unless [image_path] is empty, the image is opened,
    [image_ext = os.path.splitext(image_path)[1]], and
    [metadata['modelspec.thumbnail']] is set to
    [f'data:image/{image_ext};base64,{convert_to_b64(img)}']. *)
Definition update_thumbnail (metadata : dict) (image_path : pystr) (img : Image)
  : io dict :=
  if negb (str_eqb image_path []) then
    print_str "Loading image..." ;;;
    let image_ext := snd (Path.splitext image_path) in
    b64 <~ lift (convert_to_b64 img) ;;
    ret (Dict.set (lit "modelspec.thumbnail")
           (JStr (lit "data:image/" ++ image_ext ++ lit ";base64," ++ b64))
           metadata)
  else ret metadata.

(** The loop over the existing keys, identical in the two scripts that write:
    for every [key, val] of [list(orig_metadata.items())] whose key starts
    with ['modelspec.'], the entry is printed, shortened to 200 characters,
    and then [del orig_metadata[key]]. *)
Fixpoint drop_modelspec (snapshot : dict) (orig_metadata : dict) : io dict :=
  match snapshot with
  | [] => ret orig_metadata
  | (key, val) :: rest =>
      if startswith (lit "modelspec.") key then
        shown <~ lift (display_value 200 val) ;;
        print (entry_line key shown) ;;;
        drop_modelspec rest (Dict.del key orig_metadata)
      else drop_modelspec rest orig_metadata
  end.

(** ** Files on disk, and how a run ends

    The file system is a map from the path names that exist to the bytes
    they hold.  Opening a missing file for reading raises
    [FileNotFoundError]; opening a file for writing creates or empties it,
    and every [write] adds to its end.  The other failures of the operating
    system (permissions, directories, a full disk) are left out. *)
Module Files.





End Files.


(** ** [example_no_reqs.py] *)
Module ExampleNoReqs.

(** The module-level [metadata] example. *)
Definition metadata : dict :=
  [(lit "modelspec.sai_model_spec", JStr (lit "1.0.0"));
   (lit "modelspec.architecture", JStr (lit "stable-diffusion-xl-v1-base"));
   (lit "modelspec.title", JStr (lit "Example Model Version 1.0"));
   (lit "modelspec.author", JStr (lit "Example Corp"));
   (lit "modelspec.description",
    JStr (lit "This is my example model to show you how to do it!"));
   (lit "modelspec.date", JStr (lit "2023-07-20"));
   (lit "modelspec.license", JStr (lit "ExampleLicense-1.0"));
   (lit "modelspec.usage_hint", JStr (lit "Use keyword 'example'"))].

Definition image_path : pystr := lit "../images/example.jpg".

(** Lines 52-56: the length prefix, the header, and all other content. *)
Definition load (file_in : pybytes) : result (value * pybytes) :=
  '(prefix, file_data) <- File.read 8 file_in ;;
  head_len <- Struct.unpack_Q prefix ;;
  '(text, file_data) <- File.read head_len file_data ;;
  header <- Json.loads text ;;
  let '(content, _) := File.read_all file_data in
  Ok (header, content).

(** Lines 57-59: the digest of the content, as stored in the metadata. *)
Definition hash_sha256 (content : pybytes) : pystr :=
  lit "0x" ++ Hashlib.hexdigest content.

(** Lines 69-74: the comparison of the stored hash with the computed one
    ([actual_hash] is the entry that line 59 has just stored). *)
Definition check_hash (orig_metadata : value) (actual_hash : pystr) : io unit :=
  present <~ lift (Py.contains (lit "modelspec.hash_sha256") orig_metadata) ;;
  if (present : bool) then
    hash <~ lift (Py.getitem orig_metadata (lit "modelspec.hash_sha256")) ;;
    let matches := Py.eq_str hash actual_hash in
    let result :=
      if matches then [FLit (lit "MATCH")]
      else [FLit (lit "FAIL, DID NOT MATCH "); FVal hash; FLit (lit " != ");
            FVal (JStr actual_hash)] in
    print (FLit (lit "Comparing original hash to computed hash: ") :: result)
  else ret tt.

(** Lines 62-81: the metadata found in the header, without its
    [modelspec.] entries. *)
Definition read_metadata (header : value) (actual_hash : pystr) : io dict :=
  present <~ lift (Py.contains (lit "__metadata__") header) ;;
  if negb present then
    print_str "File does not have metadata" ;;;
    ret []
  else
    orig_metadata <~ lift (Py.getitem header (lit "__metadata__")) ;;
    check_hash orig_metadata actual_hash ;;;
    print_str "File has metadata! Content:" ;;;
    snapshot <~ lift (Py.items orig_metadata) ;;
    drop_modelspec snapshot snapshot.

(** Lines 84-85: the new metadata goes over what is left of the old. *)
Definition apply_metadata (header : value) (orig_metadata metadata : dict)
  : result value :=
  Py.setitem header (lit "__metadata__")
             (JObj (Dict.update orig_metadata metadata)).

(** Lines 88-94: the bytes written to the output file. *)
Definition save (header : value) (content : pybytes) : result pybytes :=
  let header := Json.dumps header in
  prefix <- Struct.pack_Q (N.of_nat (List.length header)) ;;
  text <- Utf8.encode header ;;
  Ok (prefix ++ text ++ content).

(** Lines 41-85: everything up to the header that is about to be saved. *)
Definition prepare (metadata : dict) (image_path : pystr) (img : Image)
  (file_in : pybytes) : io (value * pybytes) :=
  metadata <~ update_thumbnail metadata image_path img ;;
  print_str "Loading model..." ;;;
  '(header, content) <~ lift (load file_in) ;;
  let metadata :=
    Dict.set (lit "modelspec.hash_sha256") (JStr (hash_sha256 content))
             metadata in
  orig_metadata <~ read_metadata header (hash_sha256 content) ;;
  header <~ lift (apply_metadata header orig_metadata metadata) ;;
  ret (header, content).

(** [process()]: what is printed, and the content of the output file. *)
Definition process (metadata : dict) (image_path : pystr) (img : Image)
  (file_in : pybytes) : io pybytes :=
  '(header, content) <~ prepare metadata image_path img file_in ;;
  print_str "Loaded! Saving..." ;;;
  lift (save header content).



End ExampleNoReqs.

(** ** [example_hf_safetensors.py] *)
Module ExampleHfSafetensors.

Definition metadata : dict := ExampleNoReqs.metadata.

Definition image_path : pystr := lit "../images/example.jpg".

(** [process()], for the result [f_metadata] of [f.metadata()] ([None] or a
    [dict] of strings): what is printed, and the [metadata=] argument
    handed to [save_file].  The tensors are loaded and saved by the
    library and do not meet the metadata. *)
Definition process (metadata : dict) (image_path : pystr) (img : Image)
  (f_metadata : value) : io dict :=
  metadata <~ update_thumbnail metadata image_path img ;;
  print_str "Loading..." ;;;
  let orig_metadata := f_metadata in
  print_str "Reading existing keys..." ;;;
  snapshot <~ lift (Py.items orig_metadata) ;;
  orig_metadata <~ drop_modelspec snapshot snapshot ;;
  let orig_metadata := Dict.update orig_metadata metadata in
  print_str "Saving..." ;;;
  ret orig_metadata.

End ExampleHfSafetensors.

(** ** [example_read_only.py] *)
Module ExampleReadOnly.

(** Lines 22-24: the length prefix and the header. *)
Definition load (file_in : pybytes) : result value :=
  '(prefix, file_data) <- File.read 8 file_in ;;
  head_len <- Struct.unpack_Q prefix ;;
  '(text, _) <- File.read head_len file_data ;;
  Json.loads text.

(** Line 34: the limit chosen for an entry. *)
Definition max_len (key : pystr) (val : value) : result N :=
  if str_eqb key (lit "modelspec.thumbnail") then Ok 200
  else
    data_uri <- Py.startswith val (lit "data:image/") ;;
    Ok (if (data_uri : bool) then 200 else 800).

(** Lines 32-35. *)
Fixpoint show_modelspec (snapshot : dict) : io unit :=
  match snapshot with
  | [] => ret tt
  | (key, val) :: rest =>
      if startswith (lit "modelspec.") key then
        max_len <~ lift (max_len key val) ;;
        shown <~ lift (display_value max_len val) ;;
        print (entry_line key shown) ;;;
        show_modelspec rest
      else show_modelspec rest
  end.

(** [process()] *)
Definition process (file_in : pybytes) : io unit :=
  print_str "Loading model..." ;;;
  header <~ lift (load file_in) ;;
  present <~ lift (Py.contains (lit "__metadata__") header) ;;
  if negb present then
    print_str "File does not have metadata"
  else
    orig_metadata <~ lift (Py.getitem header (lit "__metadata__")) ;;
    print_str "File has metadata! Content:" ;;;
    snapshot <~ lift (Py.items orig_metadata) ;;
    show_modelspec snapshot.

End ExampleReadOnly.

(** ** Vocabulary of the specification *)

(** A key of the reserved namespace. *)
Definition reserved (key : pystr) : bool := startswith (lit "modelspec.") key.

Definition foreign (key : pystr) : bool := negb (reserved key).

Arguments reserved : simpl never.
Arguments foreign : simpl never.

Definition is_str (v : value) : bool :=
  match v with
  | JStr _ => true
  | _ => false
  end.

(** The metadata map of a header: the dictionary under [__metadata__], and
    the empty map when the header has no such key. *)
Definition metadata_map (header : value) : option dict :=
  match header with
  | JObj d =>
      match Dict.get (lit "__metadata__") d with
      | Some (JObj m) => Some m
      | Some _ => None
      | None => Some []
      end
  | _ => None
  end.

(** Every reserved entry of a metadata map holds a string. *)
Definition reserved_strings (m : dict) : bool :=
  forallb (fun kv => implb (reserved (fst kv)) (is_str (snd kv))) m.

(** The display of a string under a limit, in the specification's words: the
    value itself when it is not longer than the limit, and otherwise its
    first [max_len] characters and the truncation marker. *)
Definition truncation_marker : pystr := lit "...".

Definition truncated (max_len : N) (v : pystr) : pystr :=
  if N.of_nat (List.length v) <=? max_len then v
  else firstn (N.to_nat max_len) v ++ truncation_marker.

(** The limit of the specification's display policy. *)
Definition policy_limit (key val : pystr) : N :=
  if str_eqb key (lit "modelspec.thumbnail")
     || startswith (lit "data:image/") val
  then 200 else 800.

(** The entry lines of a loop that shows every reserved entry under the
    limit [limit key val]. *)
Fixpoint shown_entries (limit : pystr -> pystr -> N) (m : dict) : list line :=
  match m with
  | [] => []
  | (key, JStr val) :: m' =>
      if reserved key
      then entry_line key (JStr (truncated (limit key val) val))
           :: shown_entries limit m'
      else shown_entries limit m'
  | _ :: m' => shown_entries limit m'
  end.

(** A printed line of literal text. *)
Definition text_line (s : string) : line := [FLit (lit s)].


(** Text made of the printable characters of ASCII only. *)
Definition printable_text (s : pystr) : bool :=
  forallb (fun c => (32 <=? c) && (c <=? 126)) s.

(** Text that is its own UTF-8 encoding, character by character. *)
Definition ascii_text (s : pystr) : bool := forallb (fun c => c <? 128) s.

Definition lower_hex (c : N) : bool :=
  ((48 <=? c) && (c <=? 57)) || ((97 <=? c) && (c <=? 102)).

(** A string of the data model: code points of Unicode, and no high
    surrogate directly followed by a low one (Python keeps such a pair as
    one character). *)
Fixpoint wf_str (s : pystr) : bool :=
  match s with
  | [] => true
  | c :: s' =>
      (c <? 0x110000)
      && match s' with
         | c' :: _ => negb (Json.is_high c && Json.is_low c')
         | [] => true
         end
      && wf_str s'
  end.

Fixpoint distinct (keys : list pystr) : bool :=
  match keys with
  | [] => true
  | k :: keys' => negb (existsb (str_eqb k) keys') && distinct keys'
  end.

(** An object of the data model: strings as above, and dictionaries with
    one entry per key. *)
Fixpoint wf_value (v : value) : bool :=
  match v with
  | JNull | JBool _ | JInt _ => true
  | JStr s => wf_str s
  | JArr l => forallb wf_value l
  | JObj d =>
      distinct (map fst d)
      && forallb (fun kv => wf_str (fst kv) && wf_value (snd kv)) d
  end.

(** What can follow a value in the encoder's output: a comma, a closing
    bracket or brace, or the end of the text. *)
Definition delimited (rest : pystr) : bool :=
  match rest with
  | [] => true
  | c :: _ => (c =? Json.COMMA) || (c =? Json.RBRACKET) || (c =? Json.RBRACE)
  end.

(** The number of objects in a value, which bounds the depth of the
    decoder's recursion. *)
Fixpoint size (v : value) : nat :=
  match v with
  | JArr l => S (fold_right (fun x n => S (size x + n)) O l)
  | JObj d => S (fold_right (fun kv n => S (size (snd kv) + n)) O d)
  | _ => 1
  end.

(** The decoder, given enough of its counter, reads a well-formed value back
    from its encoding and stops right after it. *)
Definition decodes_back (v : value) : Prop :=
  wf_value v = true ->
  forall (fuel : nat) (rest : pystr),
    (size v < fuel)%nat ->
    delimited rest = true ->
    Json.scan_once fuel (Json.encode v ++ rest) = Ok (v, rest).

(** The characters of the base64 alphabet, and the padding character. *)
Definition b64_alphabet (c : N) : bool :=
  ((65 <=? c) && (c <=? 90)) || ((97 <=? c) && (c <=? 122))
  || ((48 <=? c) && (c <=? 57)) || (c =? 43) || (c =? 47) || (c =? 61).

(** An object that the console can show when it is interpolated. *)
Definition console_value (v : value) : bool :=
  match v with
  | JStr s => console_text s
  | _ => true
  end.

(** Every reserved entry of a metadata map can be shown on the console,
    key and value. *)
Definition console_entries (m : dict) : bool :=
  forallb (fun kv => implb (reserved (fst kv))
                       (console_text (fst kv) && console_value (snd kv))) m.

(** The longest header that the safetensors library accepts, in bytes; a
    [read] of so many bytes is taken to get its buffer. *)
Definition max_header_len : N := 100000000.

(** The place of a character in the base64 alphabet, and 64 for every
    other character. *)
Definition b64_index (c : N) : N :=
  if (65 <=? c) && (c <=? 90) then c - 65
  else if (97 <=? c) && (c <=? 122) then c - 71
  else if (48 <=? c) && (c <=? 57) then c + 4
  else if c =? 43 then 62
  else if c =? 47 then 63
  else 64.

(** The entries of a header other than the metadata map: the tensors. *)
Definition other_entries (d : dict) : dict :=
  filter (fun kv => negb (str_eqb (fst kv) (lit "__metadata__"))) d.



(** Linear arithmetic over [N] with divisions by constants. *)
Ltac divmod := zify; Z.to_euclidean_division_equations; lia.

(** Case analysis on everything that an equation [H], which states that a
    computation returned normally, matches on. *)
Ltac break_result H :=
  repeat match type of H with
         | Raise _ = Ok _ => discriminate H
         | context [match ?x with _ => _ end] => destruct x eqn:?
         end.

(** * Properties *)

(** ** Strings and dictionaries *)

Lemma str_eqb_eq (a b : pystr) : str_eqb a b = true <-> a = b.
Proof.
  revert b; induction a as [|x a IH]; intros [|y b]; simpl;
    try (split; [discriminate | discriminate]); try tauto.
  rewrite andb_true_iff, N.eqb_eq, IH.
  split; [intros [-> ->]; reflexivity | intros [= -> ->]; auto].
Qed.

Lemma str_eqb_refl (a : pystr) : str_eqb a a = true.
Proof. apply str_eqb_eq; reflexivity. Qed.

Lemma str_eqb_neq (a b : pystr) : str_eqb a b = false <-> a <> b.
Proof.
  rewrite <- str_eqb_eq. destruct (str_eqb a b); split; congruence.
Qed.

Lemma str_eqb_sym (a b : pystr) : str_eqb a b = str_eqb b a.
Proof.
  destruct (str_eqb a b) eqn:E.
  - apply str_eqb_eq in E; subst; symmetry; apply str_eqb_refl.
  - symmetry; apply str_eqb_neq; apply str_eqb_neq in E; congruence.
Qed.

Lemma get_set_same (k : pystr) (v : value) (d : dict) :
  Dict.get k (Dict.set k v d) = Some v.
Proof.
  induction d as [|[k' v'] d IH]; simpl.
  - now rewrite str_eqb_refl.
  - destruct (str_eqb k k') eqn:E; simpl; rewrite E; auto.
Qed.

Lemma get_set_other (k k' : pystr) (v : value) (d : dict) :
  k <> k' -> Dict.get k (Dict.set k' v d) = Dict.get k d.
Proof.
  intros Hne; induction d as [|[k0 v0] d IH]; simpl.
  - apply str_eqb_neq in Hne; now rewrite Hne.
  - destruct (str_eqb k' k0) eqn:E; simpl.
    + apply str_eqb_eq in E; subst k0.
      apply str_eqb_neq in Hne; now rewrite Hne.
    + now rewrite IH.
Qed.

Lemma get_update_cons (k : pystr) (kv : pystr * value) (m d : dict) :
  Dict.get k (Dict.update d (kv :: m)) =
  Dict.get k (Dict.update (Dict.set (fst kv) (snd kv) d) m).
Proof. reflexivity. Qed.

(** After [d.update(m)], a key of [m] has the value [m] gives it and every
    other key keeps the value it has in [d]. *)
Lemma get_update (k : pystr) (m d : dict) :
  distinct (map fst m) = true ->
  Dict.get k (Dict.update d m) =
  match Dict.get k m with
  | Some v => Some v
  | None => Dict.get k d
  end.
Proof.
  revert d; induction m as [|[k' v'] m IH]; intros d Hd; simpl in *.
  - reflexivity.
  - apply andb_true_iff in Hd as [Hk Hd].
    unfold Dict.update in *; simpl. rewrite IH by assumption.
    destruct (str_eqb k k') eqn:E.
    + apply str_eqb_eq in E; subst k'.
      assert (Dict.get k m = None) as ->.
      { clear -Hk. induction m as [|[k1 v1] m IH]; simpl in *; auto.
        rewrite negb_true_iff in Hk. apply orb_false_iff in Hk as [H1 H2].
        rewrite H1. apply IH. now rewrite negb_true_iff. }
      apply get_set_same.
    + destruct (Dict.get k m); auto.
      apply get_set_other. now apply str_eqb_neq.
Qed.


Lemma get_filter_key (p : pystr -> bool) (k : pystr) (d : dict) :
  p k = true ->
  Dict.get k (filter (fun kv => p (fst kv)) d) = Dict.get k d.
Proof.
  intros Hp; induction d as [|[k' v'] d IH]; simpl; auto.
  destruct (p k') eqn:E; simpl.
  - destruct (str_eqb k k'); auto.
  - destruct (str_eqb k k') eqn:E'; auto.
    apply str_eqb_eq in E'; congruence.
Qed.

Lemma get_filter_none (p : pystr -> bool) (k : pystr) (d : dict) :
  p k = false ->
  Dict.get k (filter (fun kv => p (fst kv)) d) = None.
Proof.
  intros Hp; induction d as [|[k' v'] d IH]; simpl; auto.
  destruct (p k') eqn:E; simpl; auto.
  destruct (str_eqb k k') eqn:E'; auto.
  apply str_eqb_eq in E'; congruence.
Qed.

(** Deleting a key that no entry of [pre] carries removes the entry at the
    head of what follows. *)
Lemma del_skips (k : pystr) (v : value) (pre rest : dict) :
  forallb (fun kv => negb (str_eqb k (fst kv))) pre = true ->
  Dict.del k (pre ++ (k, v) :: rest) = pre ++ rest.
Proof.
  induction pre as [|[k' v'] pre IH]; simpl; intros H.
  - now rewrite str_eqb_refl.
  - apply andb_true_iff in H as [H1 H2]. simpl in H1.
    apply negb_true_iff in H1. rewrite H1. now rewrite IH.
Qed.

(** ** Bytes *)

Lemma to_N_byte_of_N (n : N) : Byte.to_N (byte_of_N n) = n mod 256.
Proof.
  unfold byte_of_N.
  destruct (Byte.of_N (n mod 256)) as [b|] eqn:E.
  - now apply Byte.to_of_N.
  - apply Byte.of_N_None_iff in E.
    pose proof (N.mod_upper_bound n 256). lia.
Qed.

Lemma to_N_byte_of_N_small (n : N) : n < 256 -> Byte.to_N (byte_of_N n) = n.
Proof. intros H. rewrite to_N_byte_of_N. now apply N.mod_small. Qed.

Lemma byte_of_N_to_N (b : byte) : byte_of_N (Byte.to_N b) = b.
Proof.
  unfold byte_of_N. pose proof (Byte.to_N_bounded b).
  rewrite N.mod_small by lia. now rewrite Byte.of_to_N.
Qed.

Lemma to_N_lt_256 (b : byte) : Byte.to_N b < 256.
Proof. pose proof (Byte.to_N_bounded b). lia. Qed.

(** ** Display of a metadata value *)

Lemma display_value_str (max_len : N) (v : pystr) :
  display_value max_len (JStr v) = Ok (JStr (truncated max_len v)).
Proof.
  unfold display_value, truncated; simpl.
  rewrite N.ltb_antisym.
  destruct (N.of_nat (List.length v) <=? max_len); reflexivity.
Qed.

(** C7.  Shortening a string for display returns it unchanged when its
    length is at most the limit, and otherwise returns exactly its first
    [max_len] characters followed by the marker of three dots; a value of
    500 characters under the limit 200 gives 200 characters and the marker,
    and a value of 100 characters is returned unchanged. *)
Theorem display_value_truncates :
  (forall (v : pystr) (max_len : N),
      N.of_nat (List.length v) <= max_len ->
      display_value max_len (JStr v) = Ok (JStr v)) /\
  (forall (v : pystr) (max_len : N),
      max_len < N.of_nat (List.length v) ->
      display_value max_len (JStr v)
      = Ok (JStr (firstn (N.to_nat max_len) v ++ truncation_marker))
      /\ List.length (firstn (N.to_nat max_len) v) = N.to_nat max_len) /\
  (forall v : pystr,
      List.length v = 500%nat ->
      display_value 200 (JStr v)
      = Ok (JStr (firstn 200 v ++ truncation_marker))
      /\ List.length (firstn 200 v) = 200%nat) /\
  (forall v : pystr,
      List.length v = 100%nat ->
      display_value 200 (JStr v) = Ok (JStr v)).
Proof.
  assert (Hle : forall v max_len, N.of_nat (List.length v) <= max_len ->
                display_value max_len (JStr v) = Ok (JStr v)).
  { intros v max_len H. rewrite display_value_str. unfold truncated.
    apply N.leb_le in H. now rewrite H. }
  assert (Hgt : forall v max_len, max_len < N.of_nat (List.length v) ->
                display_value max_len (JStr v)
                = Ok (JStr (firstn (N.to_nat max_len) v ++ truncation_marker))
                /\ List.length (firstn (N.to_nat max_len) v)
                   = N.to_nat max_len).
  { intros v max_len H. rewrite display_value_str. unfold truncated.
    assert ((N.of_nat (List.length v) <=? max_len) = false) as ->
        by (apply N.leb_gt; assumption).
    split; [reflexivity|]. rewrite length_firstn. lia. }
  repeat split.
  - exact Hle.
  - now apply Hgt.
  - now apply Hgt.
  - destruct (Hgt v 200) as [E _]; [lia|]. exact E.
  - destruct (Hgt v 200) as [_ E]; [lia|]. exact E.
  - intros v H. apply Hle. lia.
Qed.

Lemma display_value_truncates_witness :
  display_value 200 (JStr (repeat 97 100)) = Ok (JStr (repeat 97 100)) /\
  display_value 200 (JStr (repeat 97 500))
  = Ok (JStr (firstn 200 (repeat 97 500) ++ truncation_marker)).
Proof.
  split.
  - apply (proj1 display_value_truncates). vm_compute. discriminate.
  - apply (proj1 (proj2 display_value_truncates) (repeat 97 500) 200).
    vm_compute. reflexivity.
Defined.

(** ** The display loops *)

Lemma iobind_ok {A B} (a : A) (k : A -> io B) : iobind (lift (Ok a)) k = k a.
Proof. unfold iobind, lift; simpl. now destruct (k a). Qed.

Lemma iobind_ret {A B} (a : A) (k : A -> io B) : iobind (ret a) k = k a.
Proof. apply iobind_ok. Qed.

Lemma iobind_raise {A B} (e : exn) (k : A -> io B) :
  iobind (lift (Raise e)) k = ([], Raise e).
Proof. reflexivity. Qed.

Lemma iobind_print {B} (l : line) (k : unit -> io B) :
  iobind (print l) k = (l :: fst (k tt), snd (k tt)).
Proof. reflexivity. Qed.

Lemma drop_modelspec_cons (key : pystr) (val : value) (rest d : dict) :
  drop_modelspec ((key, val) :: rest) d
  = if reserved key then
      shown <~ lift (display_value 200 val) ;;
      print (entry_line key shown) ;;;
      drop_modelspec rest (Dict.del key d)
    else drop_modelspec rest d.
Proof. reflexivity. Qed.

Lemma show_modelspec_cons (key : pystr) (val : value) (rest : dict) :
  ExampleReadOnly.show_modelspec ((key, val) :: rest)
  = if reserved key then
      max_len <~ lift (ExampleReadOnly.max_len key val) ;;
      shown <~ lift (display_value max_len val) ;;
      print (entry_line key shown) ;;;
      ExampleReadOnly.show_modelspec rest
    else ExampleReadOnly.show_modelspec rest.
Proof. reflexivity. Qed.

(** The loop of the scripts that write: every reserved entry is shown under
    the limit 200 and deleted, and the foreign entries stay as they are. *)
Lemma drop_modelspec_spec (rest pre : dict) :
  reserved_strings rest = true ->
  forallb (fun kv => foreign (fst kv)) pre = true ->
  drop_modelspec rest (pre ++ rest)
  = (shown_entries (fun _ _ => 200) rest,
     Ok (pre ++ filter (fun kv => foreign (fst kv)) rest)).
Proof.
  revert pre; induction rest as [|[key val] rest IH]; intros pre Hs Hpre.
  - reflexivity.
  - simpl in Hs. apply andb_true_iff in Hs as [Hv Hs].
    assert (Hf : foreign key = negb (reserved key)) by reflexivity.
    rewrite drop_modelspec_cons. simpl. rewrite Hf.
    destruct (reserved key) eqn:Hk; simpl in *.
    + destruct val; try discriminate.
      rewrite display_value_str, iobind_ok, iobind_print.
      rewrite del_skips.
      * rewrite IH by assumption. reflexivity.
      * rewrite forallb_forall in Hpre |- *. intros [k' v'] Hin.
        specialize (Hpre _ Hin). simpl in *.
        destruct (str_eqb key k') eqn:E; auto.
        apply str_eqb_eq in E; subst k'.
        unfold foreign in Hpre. rewrite Hk in Hpre. discriminate.
    + replace (pre ++ (key, val) :: rest) with ((pre ++ [(key, val)]) ++ rest)
        by (rewrite <- app_assoc; reflexivity).
      rewrite IH; auto.
      * rewrite <- app_assoc. destruct val; reflexivity.
      * rewrite forallb_app, Hpre. simpl. unfold foreign. now rewrite Hk.
Qed.

Lemma max_len_str (key val : pystr) :
  ExampleReadOnly.max_len key (JStr val) = Ok (policy_limit key val).
Proof.
  unfold ExampleReadOnly.max_len, policy_limit; simpl.
  destruct (str_eqb key (lit "modelspec.thumbnail")); simpl; auto.
Qed.

Lemma show_modelspec_spec (m : dict) :
  reserved_strings m = true ->
  ExampleReadOnly.show_modelspec m = (shown_entries policy_limit m, Ok tt).
Proof.
  induction m as [|[key val] m IH]; intros Hs.
  - reflexivity.
  - simpl in Hs. apply andb_true_iff in Hs as [Hv Hs].
    rewrite show_modelspec_cons. simpl.
    destruct (reserved key) eqn:Hk; simpl in *.
    + destruct val; try discriminate.
      rewrite max_len_str, iobind_ok, display_value_str, iobind_ok.
      rewrite iobind_print.
      rewrite IH by assumption. reflexivity.
    + rewrite IH by assumption. destruct val; reflexivity.
Qed.

(** C8, as amended.  In [example_read_only.py] a reserved entry is shown
    under the limit 200 when its key is [modelspec.thumbnail] or its value
    starts with [data:image/], and under the limit 800 otherwise.  In
    [example_no_reqs.py] and [example_hf_safetensors.py] every reserved entry
    is shown under the limit 200. *)
Theorem display_limit_by_script (m : dict) :
  reserved_strings m = true ->
  (forall key val : pystr,
      ExampleReadOnly.max_len key (JStr val)
      = Ok (if str_eqb key (lit "modelspec.thumbnail")
               || startswith (lit "data:image/") val
            then 200 else 800)) /\
  ExampleReadOnly.show_modelspec m = (shown_entries policy_limit m, Ok tt) /\
  fst (drop_modelspec m m) = shown_entries (fun _ _ => 200) m.
Proof.
  intros Hs. split; [|split].
  - intros key val. apply max_len_str.
  - now apply show_modelspec_spec.
  - change (drop_modelspec m m) with (drop_modelspec m ([] ++ m)).
    now rewrite drop_modelspec_spec.
Qed.

Lemma display_limit_by_script_witness :
  let m := [(lit "modelspec.title", JStr (repeat 97 300));
            (lit "note", JInt 7)] in
  ExampleReadOnly.show_modelspec m = (shown_entries policy_limit m, Ok tt) /\
  fst (drop_modelspec m m) = shown_entries (fun _ _ => 200) m.
Proof.
  intros m.
  apply (display_limit_by_script m).
  vm_compute. reflexivity.
Defined.

(** C8, as stated, fails in [example_no_reqs.py]: an ordinary reserved
    entry of 201 characters is cut at 200 there, not at 800. *)
Lemma display_limit_counterexample :
  ~ (forall (key val : pystr) (d : dict),
        reserved key = true ->
        fst (drop_modelspec [(key, JStr val)] d)
        = [entry_line key (JStr (truncated (policy_limit key val) val))]).
Proof.
  intros H.
  specialize (H (lit "modelspec.description") (repeat 97 201) []
                eq_refl).
  vm_compute in H. discriminate H.
Qed.

(** ** The thumbnail *)

Lemma decode_ascii (surrogatepass : bool) (b : pybytes) :
  forallb (fun x => Byte.to_N x <? 128) b = true ->
  Utf8.decode surrogatepass b = Ok (map Byte.to_N b).
Proof.
  induction b as [|x b IH]; simpl; intros H.
  - reflexivity.
  - apply andb_true_iff in H as [Hx Hb].
    unfold Utf8.between. apply N.ltb_lt in Hx.
    assert ((0 <=? Byte.to_N x) && (Byte.to_N x <=? 127) = true) as ->.
    { apply andb_true_iff; split; apply N.leb_le; lia. }
    now rewrite IH.
Qed.

Lemma list_ind3 {A} (P : list A -> Prop) :
  P [] -> (forall x, P [x]) -> (forall x y, P [x; y]) ->
  (forall x y z r, P r -> P (x :: y :: z :: r)) ->
  forall l, P l.
Proof.
  intros H0 H1 H2 H3 l.
  assert (P l /\ (forall x, P (x :: l)) /\ (forall x y, P (x :: y :: l)))
    as [H _].
  { induction l as [|a l (IHa & IHb & IHc)]; repeat split; auto. }
  exact H.
Qed.

Lemma b64char_ascii (n : N) : n < 64 -> Byte.to_N (Base64.b64char n) < 128.
Proof.
  intros H. unfold Base64.b64char. rewrite to_N_byte_of_N.
  destruct (n <? 26) eqn:E1;
    [apply N.ltb_lt in E1; rewrite N.mod_small by lia; lia|].
  destruct (n <? 52) eqn:E2;
    [apply N.ltb_lt in E2; rewrite N.mod_small by lia; lia|].
  apply N.ltb_ge in E1, E2.
  destruct (n <? 62) eqn:E3;
    [apply N.ltb_lt in E3; rewrite N.mod_small by lia; lia|].
  destruct (n =? 62); rewrite N.mod_small by lia; lia.
Qed.

Lemma b64encode_ascii (b : pybytes) :
  forallb (fun x => Byte.to_N x <? 128) (Base64.b64encode b) = true.
Proof.
  induction b as [|x|x y|x y z r IH] using list_ind3.
  - reflexivity.
  - pose proof (to_N_lt_256 x).
    cbn [Base64.b64encode forallb].
    rewrite !andb_true_iff; repeat split; try reflexivity;
      apply N.ltb_lt, b64char_ascii; divmod.
  - pose proof (to_N_lt_256 x). pose proof (to_N_lt_256 y).
    cbn [Base64.b64encode forallb].
    rewrite !andb_true_iff; repeat split; try reflexivity;
      apply N.ltb_lt, b64char_ascii; divmod.
  - pose proof (to_N_lt_256 x). pose proof (to_N_lt_256 y).
    pose proof (to_N_lt_256 z).
    cbn [Base64.b64encode forallb].
    rewrite IH, !andb_true_iff; repeat split;
      apply N.ltb_lt, b64char_ascii; divmod.
Qed.

Lemma convert_to_b64_ok (img : Image) :
  convert_to_b64 img = Ok (map Byte.to_N (Base64.b64encode (png img))).
Proof. apply decode_ascii, b64encode_ascii. Qed.

Lemma rfind_from_spec (c : N) (s : pystr) (i last r : Z) :
  rfind_from c s i last = r ->
  r = last \/
  ((i <= r)%Z /\ exists e, skipn (Z.to_nat (r - i)) s = c :: e).
Proof.
  revert i last; induction s as [|x s IH]; simpl; intros i last H.
  - now left.
  - apply IH in H as [H | (Hle & e & He)].
    + destruct (x =? c) eqn:E.
      * apply N.eqb_eq in E; subst x r. right. split; [lia|].
        exists s. now rewrite Z.sub_diag.
      * now left.
    + right. split; [lia|]. exists e.
      replace (Z.to_nat (r - i)) with (S (Z.to_nat (r - (i + 1)))) by lia.
      exact He.
Qed.

(** The extension that [splitext] returns is empty or starts with the dot. *)
Lemma splitext_dot (p : pystr) :
  snd (Path.splitext p) = []
  \/ exists e, snd (Path.splitext p) = Path.EXTSEP :: e.
Proof.
  unfold Path.splitext.
  destruct (rfind Path.SEP p <? rfind Path.EXTSEP p)%Z eqn:E; [|now left].
  match goal with |- context [if ?c then _ else _] => destruct c end;
    [|now left].
  right. simpl. apply Z.ltb_lt in E.
  destruct (rfind_from_spec Path.EXTSEP p 0 (-1) eq_refl)
    as [H | (Hle & e & He)].
  - fold (rfind Path.EXTSEP p) in H.
    destruct (rfind_from_spec Path.SEP p 0 (-1) eq_refl)
      as [H' | (Hle' & _)]; fold (rfind Path.SEP p) in *; lia.
  - exists e. fold (rfind Path.EXTSEP p) in He.
    now rewrite Z.sub_0_r in He.
Qed.

(** C2 (the code departs from it).  For every image and every non-empty
    [image_path], the thumbnail that [process] stores is [data:image/],
    then the extension exactly as [os.path.splitext] returns it, then
    [;base64,] and the base64 text of the PNG bytes.  That extension is
    empty or begins with its dot, which is never taken off: with the
    [image_path] of the scripts the value starts with
    [data:image/.jpg;base64,], so the subtype does contain a dot. *)
Theorem thumbnail_keeps_the_dot (metadata : dict) (c : N) (path : pystr)
  (img : Image) :
  let b64 := map Byte.to_N (Base64.b64encode (png img)) in
  let image_ext := snd (Path.splitext (c :: path)) in
  snd (update_thumbnail metadata (c :: path) img)
  = Ok (Dict.set (lit "modelspec.thumbnail")
          (JStr (lit "data:image/" ++ image_ext ++ lit ";base64," ++ b64))
          metadata)
  /\ (image_ext = [] \/ exists e, image_ext = Path.EXTSEP :: e)
  /\ snd (update_thumbnail metadata ExampleNoReqs.image_path img)
     = Ok (Dict.set (lit "modelspec.thumbnail")
             (JStr (lit "data:image/.jpg;base64," ++ b64)) metadata)
  /\ snd (update_thumbnail metadata ExampleHfSafetensors.image_path img)
     = Ok (Dict.set (lit "modelspec.thumbnail")
             (JStr (lit "data:image/.jpg;base64," ++ b64)) metadata).
Proof.
  intros b64 image_ext.
  assert (Hgen : forall c' path',
             snd (update_thumbnail metadata (c' :: path') img)
             = Ok (Dict.set (lit "modelspec.thumbnail")
                     (JStr (lit "data:image/"
                            ++ snd (Path.splitext (c' :: path'))
                            ++ lit ";base64," ++ b64)) metadata)).
  { intros c' path'. unfold update_thumbnail.
    change (negb (str_eqb (c' :: path') [])) with true. cbv iota.
    unfold print_str. rewrite iobind_print, convert_to_b64_ok, iobind_ok.
    reflexivity. }
  assert (Hjpg : snd (Path.splitext ExampleNoReqs.image_path) = lit ".jpg")
    by (vm_compute; reflexivity).
  repeat split.
  - apply Hgen.
  - apply splitext_dot.
  - unfold ExampleNoReqs.image_path in *.
    change (lit "../images/example.jpg")
      with (46 :: tl (lit "../images/example.jpg")) in *.
    rewrite Hgen, Hjpg. reflexivity.
  - unfold ExampleHfSafetensors.image_path, ExampleNoReqs.image_path in *.
    change (lit "../images/example.jpg")
      with (46 :: tl (lit "../images/example.jpg")) in *.
    rewrite Hgen, Hjpg. reflexivity.
Qed.

(** ** The metadata merge *)

Lemma snd_iobind {A B} (m : io A) (k : A -> io B) :
  snd (iobind m k)
  = match snd m with
    | Ok a => snd (k a)
    | Raise e => Raise e
    end.
Proof. unfold iobind. now destruct (snd m). Qed.


Lemma foreign_reserved (k : pystr) : foreign k = negb (reserved k).
Proof. reflexivity. Qed.

(** Whenever the loop of the scripts that write ends normally, it leaves
    the foreign entries, and only them. *)
Lemma drop_modelspec_result (rest pre d : dict) :
  forallb (fun kv => foreign (fst kv)) pre = true ->
  snd (drop_modelspec rest (pre ++ rest)) = Ok d ->
  d = pre ++ filter (fun kv => foreign (fst kv)) rest.
Proof.
  revert pre; induction rest as [|[key val] rest IH]; intros pre Hpre H.
  - simpl in H. injection H as <-. reflexivity.
  - rewrite drop_modelspec_cons in H. simpl.
    rewrite foreign_reserved.
    destruct (reserved key) eqn:Hk; simpl.
    + rewrite snd_iobind in H. simpl in H.
      destruct (display_value 200 val) as [shown|e]; [|discriminate].
      rewrite del_skips in H.
      * now apply IH.
      * rewrite forallb_forall in Hpre |- *. intros [k' v'] Hin.
        specialize (Hpre _ Hin). simpl in *.
        destruct (str_eqb key k') eqn:E; auto.
        apply str_eqb_eq in E; subst k'.
        rewrite foreign_reserved, Hk in Hpre. discriminate.
    + replace (pre ++ (key, val) :: rest) with ((pre ++ [(key, val)]) ++ rest)
        in H by (rewrite <- app_assoc; reflexivity).
      apply IH in H.
      * now rewrite <- app_assoc in H.
      * rewrite forallb_app, Hpre. simpl. now rewrite foreign_reserved, Hk.
Qed.

Lemma get_none_of_reserved (k : pystr) (m : dict) :
  forallb reserved (map fst m) = true ->
  reserved k = false ->
  Dict.get k m = None.
Proof.
  intros Hm Hk; induction m as [|[k' v'] m IH]; simpl in *; auto.
  apply andb_true_iff in Hm as [H1 H2].
  destruct (str_eqb k k') eqn:E; auto.
  apply str_eqb_eq in E; congruence.
Qed.

(** The map that [orig_metadata.update(metadata)] builds from the foreign
    entries of the old map: the reserved keys are those of the new entries,
    the foreign keys those of the old map. *)
Lemma merged_map (m_in new_entries : dict) (k : pystr) :
  distinct (map fst new_entries) = true ->
  forallb reserved (map fst new_entries) = true ->
  Dict.get k
    (Dict.update (filter (fun kv => foreign (fst kv)) m_in) new_entries)
  = if reserved k then Dict.get k new_entries else Dict.get k m_in.
Proof.
  intros Hd Hr. rewrite get_update by assumption.
  destruct (reserved k) eqn:Hk.
  - destruct (Dict.get k new_entries); auto.
    apply get_filter_none. now rewrite foreign_reserved, Hk.
  - rewrite get_none_of_reserved by assumption.
    apply (get_filter_key foreign). now rewrite foreign_reserved, Hk.
Qed.

Lemma existsb_set_keys (k k' : pystr) (v : value) (d : dict) :
  existsb (str_eqb k) (map fst (Dict.set k' v d))
  = existsb (str_eqb k) (map fst d) || str_eqb k k'.
Proof.
  induction d as [|[k0 v0] d IH]; simpl.
  - now rewrite orb_false_r.
  - destruct (str_eqb k' k0) eqn:E; simpl.
    + apply str_eqb_eq in E; subst k0.
      destruct (str_eqb k k'); simpl; auto. now rewrite orb_false_r.
    + rewrite IH. now rewrite orb_assoc.
Qed.

Lemma distinct_set (k : pystr) (v : value) (d : dict) :
  distinct (map fst d) = true -> distinct (map fst (Dict.set k v d)) = true.
Proof.
  induction d as [|[k0 v0] d IH]; simpl; intros H; auto.
  apply andb_true_iff in H as [H1 H2].
  destruct (str_eqb k k0) eqn:E; simpl.
  - now rewrite H1, H2.
  - rewrite IH by assumption. rewrite existsb_set_keys.
    rewrite negb_true_iff in H1. rewrite H1. simpl.
    rewrite str_eqb_sym, E. reflexivity.
Qed.

Lemma reserved_set (k : pystr) (v : value) (d : dict) :
  reserved k = true ->
  forallb reserved (map fst d) = true ->
  forallb reserved (map fst (Dict.set k v d)) = true.
Proof.
  intros Hk; induction d as [|[k0 v0] d IH]; simpl; intros H.
  - now rewrite Hk.
  - apply andb_true_iff in H as [H1 H2].
    destruct (str_eqb k k0); simpl; rewrite H1; auto.
Qed.

Lemma update_thumbnail_cases (metadata : dict) (image_path : pystr)
  (img : Image) :
  snd (update_thumbnail metadata image_path img) = Ok metadata \/
  exists v, snd (update_thumbnail metadata image_path img)
            = Ok (Dict.set (lit "modelspec.thumbnail") v metadata).
Proof.
  unfold update_thumbnail. destruct image_path as [|c p]; simpl.
  - now left.
  - right. unfold print_str.
    rewrite snd_iobind. simpl.
    rewrite convert_to_b64_ok. eexists. reflexivity.
Qed.

(** The entries that [process] merges are well formed when those of the
    caller are. *)
Lemma update_thumbnail_entries (metadata : dict) (image_path : pystr)
  (img : Image) :
  distinct (map fst metadata) = true ->
  forallb reserved (map fst metadata) = true ->
  exists entries,
    snd (update_thumbnail metadata image_path img) = Ok entries
    /\ distinct (map fst entries) = true
    /\ forallb reserved (map fst entries) = true.
Proof.
  intros Hd Hr.
  destruct (update_thumbnail_cases metadata image_path img) as [E | [v E]];
    rewrite E; eexists; split; try reflexivity; split; auto.
  - now apply distinct_set.
  - apply reserved_set; auto.
Qed.

Lemma check_hash_snd (om : value) (actual : pystr) :
  snd (ExampleNoReqs.check_hash om actual) = Ok tt \/
  exists e, snd (ExampleNoReqs.check_hash om actual) = Raise e.
Proof.
  unfold ExampleNoReqs.check_hash.
  rewrite snd_iobind.
  destruct (Py.contains _ om) as [[|]|e]; cbn [lift snd].
  - rewrite snd_iobind.
    destruct (Py.getitem om _) as [hash|e]; cbn [lift snd].
    + now left.
    + right; eauto.
  - now left.
  - right; eauto.
Qed.

Lemma read_metadata_result (header : value) (actual : pystr) (orig : dict) :
  snd (ExampleNoReqs.read_metadata header actual) = Ok orig ->
  (Py.contains (lit "__metadata__") header = Ok false /\ orig = []) \/
  (exists m_in,
      Py.getitem header (lit "__metadata__") = Ok (JObj m_in)
      /\ orig = filter (fun kv => foreign (fst kv)) m_in).
Proof.
  unfold ExampleNoReqs.read_metadata. rewrite snd_iobind.
  destruct (Py.contains _ header) as [[|]|e]; cbn [lift snd negb]; intros H.
  - right. rewrite snd_iobind in H.
    destruct (Py.getitem header _) as [om|e]; cbn [lift snd] in H;
      [|discriminate].
    rewrite snd_iobind in H.
    destruct (check_hash_snd om actual) as [E | [e E]]; rewrite E in H;
      [|discriminate].
    unfold print_str in H. rewrite snd_iobind in H. cbn [print snd] in H.
    rewrite snd_iobind in H.
    destruct om; cbn [Py.items lift snd] in H; try discriminate.
    exists d. split; [reflexivity|].
    apply (drop_modelspec_result d []); auto.
  - left. unfold print_str in H. rewrite snd_iobind in H.
    cbn [print snd ret] in H. injection H as <-. auto.
  - discriminate.
Qed.

Lemma prepare_result (metadata : dict) (image_path : pystr) (img : Image)
  (file_in : pybytes) (header_out : value) (content : pybytes) :
  snd (ExampleNoReqs.prepare metadata image_path img file_in)
  = Ok (header_out, content) ->
  exists header_in entries orig,
    ExampleNoReqs.load file_in = Ok (header_in, content)
    /\ snd (update_thumbnail metadata image_path img) = Ok entries
    /\ snd (ExampleNoReqs.read_metadata header_in
              (ExampleNoReqs.hash_sha256 content)) = Ok orig
    /\ ExampleNoReqs.apply_metadata header_in orig
         (Dict.set (lit "modelspec.hash_sha256")
            (JStr (ExampleNoReqs.hash_sha256 content)) entries)
       = Ok header_out.
Proof.
  unfold ExampleNoReqs.prepare. rewrite snd_iobind.
  destruct (snd (update_thumbnail metadata image_path img)) as [entries|e];
    [|discriminate].
  unfold print_str. rewrite snd_iobind. cbn [print snd].
  rewrite snd_iobind.
  destruct (ExampleNoReqs.load file_in) as [[header_in content']|e];
    cbn [lift snd]; [|discriminate].
  rewrite snd_iobind.
  destruct (snd (ExampleNoReqs.read_metadata header_in _)) as [orig|e] eqn:Hr;
    [|discriminate].
  rewrite snd_iobind.
  destruct (ExampleNoReqs.apply_metadata header_in orig _) as [h|e] eqn:Ha;
    cbn [lift snd ret]; [|discriminate].
  intros [= <- <-].
  exists header_in, entries, orig. auto.
Qed.

Lemma metadata_map_applied (header_in header_out : value)
  (orig entries : dict) :
  ExampleNoReqs.apply_metadata header_in orig entries = Ok header_out ->
  metadata_map header_out = Some (Dict.update orig entries)
  /\ exists d, header_in = JObj d.
Proof.
  unfold ExampleNoReqs.apply_metadata, Py.setitem.
  destruct header_in; try discriminate. intros [= <-].
  unfold metadata_map. rewrite get_set_same. eauto.
Qed.

Lemma metadata_map_read (d : list (pystr * value)) (actual : pystr)
  (orig : dict) :
  snd (ExampleNoReqs.read_metadata (JObj d) actual) = Ok orig ->
  exists m_in, metadata_map (JObj d) = Some m_in
               /\ orig = filter (fun kv => foreign (fst kv)) m_in.
Proof.
  intros H. apply read_metadata_result in H as [[Hc ->] | (m_in & Hg & ->)].
  - exists []. split; [|reflexivity].
    unfold Py.contains, Dict.mem in Hc. unfold metadata_map.
    destruct (Dict.get _ d); [discriminate | reflexivity].
  - exists m_in. split; [|reflexivity].
    unfold Py.getitem in Hg. unfold metadata_map.
    destruct (Dict.get _ d); [|discriminate]. now injection Hg as ->.
Qed.

(** C1.  Whenever the write goes through, the reserved keys of the output
    metadata map are exactly those of the entries handed to
    [orig_metadata.update] (the caller's reserved entries, with the
    thumbnail and, in [example_no_reqs.py], the digest that [process] adds
    to them), each with the value given there, so that no reserved key of
    the input survives; and every foreign key has in the output the value
    it has in the input metadata map. *)
Theorem reserved_namespace_replaced (metadata : dict) (image_path : pystr)
  (img : Image) :
  distinct (map fst metadata) = true ->
  forallb reserved (map fst metadata) = true ->
  (forall (file_in : pybytes) (header_out : value) (content : pybytes),
      snd (ExampleNoReqs.prepare metadata image_path img file_in)
      = Ok (header_out, content) ->
      exists header_in entries m_in m_out,
        ExampleNoReqs.load file_in = Ok (header_in, content)
        /\ snd (update_thumbnail metadata image_path img) = Ok entries
        /\ metadata_map header_in = Some m_in
        /\ metadata_map header_out = Some m_out
        /\ forall k,
            Dict.get k m_out
            = if reserved k
              then Dict.get k (Dict.set (lit "modelspec.hash_sha256")
                                 (JStr (ExampleNoReqs.hash_sha256 content))
                                 entries)
              else Dict.get k m_in)
  /\
  (forall (f_metadata : value) (m_out : dict),
      snd (ExampleHfSafetensors.process metadata image_path img f_metadata)
      = Ok m_out ->
      exists entries m_in,
        f_metadata = JObj m_in
        /\ snd (update_thumbnail metadata image_path img) = Ok entries
        /\ forall k,
            Dict.get k m_out
            = if reserved k then Dict.get k entries else Dict.get k m_in).
Proof.
  intros Hd Hr.
  destruct (update_thumbnail_entries metadata image_path img Hd Hr)
    as (entries & He & Hde & Hre).
  split.
  - intros file_in header_out content H.
    apply prepare_result in H
      as (header_in & entries' & orig & Hl & He' & Hm & Ha).
    rewrite He in He'. injection He' as <-.
    apply metadata_map_applied in Ha as [Hout [d ->]].
    apply metadata_map_read in Hm as (m_in & Hin & ->).
    exists (JObj d), entries, m_in. eexists.
    repeat split; eauto.
    intros k. apply merged_map.
    + now apply distinct_set.
    + apply reserved_set; auto.
  - intros f_metadata m_out H.
    unfold ExampleHfSafetensors.process in H.
    rewrite snd_iobind, He in H.
    unfold print_str in H. rewrite snd_iobind in H. cbn [print snd] in H.
    rewrite snd_iobind in H. cbn [print snd] in H.
    rewrite snd_iobind in H.
    destruct f_metadata as [| | | | |m_in];
      cbn [Py.items lift snd] in H; try discriminate.
    rewrite snd_iobind in H.
    destruct (snd (drop_modelspec m_in m_in)) as [orig|e] eqn:Hdrop;
      [|discriminate].
    apply (drop_modelspec_result m_in [] eq_refl) in Hdrop. simpl in Hdrop.
    subst orig.
    rewrite snd_iobind in H. cbn [print snd ret] in H.
    injection H as <-.
    exists entries, m_in. repeat split; auto.
    intros k. now apply merged_map.
Qed.

Lemma reserved_namespace_replaced_witness :
  let img := {| png := [] |} in
  let f_metadata := JObj [(lit "foo", JStr (lit "bar"));
                          (lit "modelspec.title", JStr (lit "old"));
                          (lit "modelspec.stale", JStr (lit "x"))] in
  exists m_out,
    snd (ExampleHfSafetensors.process ExampleHfSafetensors.metadata
           ExampleHfSafetensors.image_path img f_metadata) = Ok m_out
    /\ Dict.get (lit "foo") m_out = Some (JStr (lit "bar"))
    /\ Dict.get (lit "modelspec.title") m_out
       = Some (JStr (lit "Example Model Version 1.0"))
    /\ Dict.get (lit "modelspec.stale") m_out = None.
Proof.
  intros img f_metadata.
  destruct (reserved_namespace_replaced ExampleHfSafetensors.metadata
              ExampleHfSafetensors.image_path img eq_refl eq_refl)
    as [_ Hhf].
  destruct (snd (ExampleHfSafetensors.process ExampleHfSafetensors.metadata
                   ExampleHfSafetensors.image_path img f_metadata))
    as [m_out|e] eqn:E.
  - destruct (Hhf _ _ E) as (entries & m_in & Hm & He & Hk).
    exists m_out. split; [reflexivity|].
    injection Hm as <-.
    vm_compute in He. injection He as <-.
    rewrite !Hk. vm_compute. auto.
  - vm_compute in E. discriminate E.
Defined.

(** ** The encoder writes ASCII *)

Lemma value_ind' (P : value -> Prop) :
  P JNull -> (forall b, P (JBool b)) -> (forall z, P (JInt z)) ->
  (forall s, P (JStr s)) ->
  (forall l, Forall P l -> P (JArr l)) ->
  (forall d, Forall (fun kv => P (snd kv)) d -> P (JObj d)) ->
  forall v, P v.
Proof.
  intros Hn Hb Hi Hs Ha Ho.
  fix IH 1. intros [| b | z | s | l | d].
  - exact Hn.
  - apply Hb.
  - apply Hi.
  - apply Hs.
  - apply Ha. induction l as [|x l IHl]; constructor; [apply IH | exact IHl].
  - apply Ho. induction d as [|[k x] d IHd]; constructor;
      [apply IH | exact IHd].
Qed.

Lemma encode_arr (l : list value) :
  Json.encode (JArr l) = Json.LBRACKET :: Json.encode_items l.
Proof.
  destruct l; reflexivity.
Qed.

Lemma encode_obj (d : list (pystr * value)) :
  Json.encode (JObj d) = Json.LBRACE :: Json.encode_members d.
Proof.
  destruct d; reflexivity.
Qed.

Lemma printable_text_app (a b : pystr) :
  printable_text (a ++ b) = printable_text a && printable_text b.
Proof. apply forallb_app. Qed.

Lemma hexdigit_printable (d : N) :
  d < 16 -> (32 <=? Json.hexdigit d) && (Json.hexdigit d <=? 126) = true.
Proof.
  intros H. unfold Json.hexdigit.
  apply andb_true_iff; split; apply N.leb_le; destruct (d <? 10); lia.
Qed.

Lemma uescape_printable (n : N) : printable_text (Json.uescape n) = true.
Proof.
  unfold Json.uescape, Json.hex4, printable_text. cbn [forallb].
  rewrite !hexdigit_printable by (apply N.mod_upper_bound; discriminate).
  reflexivity.
Qed.

Lemma escape_char_printable (c : N) :
  printable_text (Json.escape_char c) = true.
Proof.
  unfold Json.escape_char.
  destruct (Json.plain_char c) eqn:Hp.
  - unfold Json.plain_char in Hp. rewrite !andb_true_iff in Hp.
    destruct Hp as [[[H1 H2] _] _].
    unfold printable_text; cbn [forallb]. now rewrite H1, H2.
  - repeat match goal with
           | |- context [if ?b then _ else _] => destruct b; [reflexivity|]
           end.
    destruct (c <? 65536).
    + apply uescape_printable.
    + cbv zeta. rewrite printable_text_app, !uescape_printable. reflexivity.
Qed.

Lemma escape_printable (s : pystr) : printable_text (Json.escape s) = true.
Proof.
  induction s as [|c s IH]; simpl; auto.
  now rewrite printable_text_app, escape_char_printable, IH.
Qed.

Lemma encode_str_printable (s : pystr) :
  printable_text (Json.encode_str s) = true.
Proof.
  unfold Json.encode_str.
  change (Json.QUOTE :: Json.escape s ++ [Json.QUOTE])
    with ([Json.QUOTE] ++ Json.escape s ++ [Json.QUOTE]).
  now rewrite !printable_text_app, escape_printable.
Qed.

Lemma uint_chars_printable (u : Decimal.uint) :
  printable_text (Json.uint_chars u) = true.
Proof. induction u; simpl; auto. Qed.

Lemma encode_int_printable (z : Z) : printable_text (Json.encode_int z) = true.
Proof.
  unfold Json.encode_int. destruct (Z.to_int z); simpl;
    apply uint_chars_printable.
Qed.

(** The text of [json.dumps] is made of the characters from the space to
    the tilde. *)
Lemma encode_printable (v : value) : printable_text (Json.encode v) = true.
Proof.
  induction v as [| b | z | s | l IH | d IH] using value_ind'.
  - reflexivity.
  - destruct b; reflexivity.
  - apply encode_int_printable.
  - apply encode_str_printable.
  - rewrite encode_arr.
    change (printable_text (Json.encode_items l) = true).
    induction IH as [|x l Hx Hl IHl]; [reflexivity|].
    cbn [Json.encode_items]. rewrite printable_text_app, Hx.
    destruct l; [reflexivity|].
    now rewrite printable_text_app, IHl.
  - rewrite encode_obj.
    change (printable_text (Json.encode_members d) = true).
    induction IH as [|[k x] d Hx Hd IHd]; [reflexivity|].
    cbn [Json.encode_members]. simpl in Hx.
    rewrite !printable_text_app, encode_str_printable, Hx.
    destruct d; [reflexivity|].
    now rewrite printable_text_app, IHd.
Qed.

Lemma printable_ascii (s : pystr) :
  printable_text s = true -> ascii_text s = true.
Proof.
  unfold printable_text, ascii_text. rewrite !forallb_forall.
  intros H c Hin. specialize (H c Hin).
  apply andb_true_iff in H as [_ H]. apply N.leb_le in H.
  apply N.ltb_lt. lia.
Qed.

Lemma encode_ascii (v : value) : ascii_text (Json.encode v) = true.
Proof. apply printable_ascii, encode_printable. Qed.

Lemma utf8_encode_ascii (s : pystr) :
  ascii_text s = true -> Utf8.encode s = Ok (map byte_of_N s).
Proof.
  induction s as [|c s IH]; simpl; intros H; auto.
  apply andb_true_iff in H as [Hc Hs].
  unfold Utf8.encode_char. rewrite Hc. simpl. now rewrite IH.
Qed.

(** ** The length prefix *)

Lemma length_le_bytes (count : nat) (n : N) :
  List.length (Struct.le_bytes count n) = count.
Proof. revert n; induction count; simpl; auto. Qed.

Lemma le_value_le_bytes (count : nat) (n : N) :
  n < 256 ^ N.of_nat count ->
  Struct.le_value (Struct.le_bytes count n) = n.
Proof.
  revert n; induction count as [|c IH]; intros n H.
  - simpl in *. lia.
  - cbn [Struct.le_bytes Struct.le_value].
    rewrite to_N_byte_of_N, IH.
    + rewrite N.add_comm. symmetry. apply N.div_mod. discriminate.
    + rewrite Nat2N.inj_succ, N.pow_succ_r' in H.
      apply N.Div0.div_lt_upper_bound. exact H.
Qed.

Lemma unpack_pack (n : N) (p : pybytes) :
  Struct.pack_Q n = Ok p -> Struct.unpack_Q p = Ok n /\ List.length p = 8%nat.
Proof.
  unfold Struct.pack_Q, Struct.unpack_Q.
  destruct (n <? 2 ^ 64) eqn:E; [|discriminate].
  intros [= <-]. apply N.ltb_lt in E.
  split; [|reflexivity].
  cbn [List.length Nat.eqb]. f_equal.
  apply (@le_value_le_bytes 8 n). exact E.
Qed.

Lemma save_result (header : value) (content out : pybytes) :
  ExampleNoReqs.save header content = Ok out ->
  exists prefix,
    Struct.pack_Q (N.of_nat (List.length (Json.dumps header))) = Ok prefix
    /\ out = prefix ++ map byte_of_N (Json.dumps header) ++ content.
Proof.
  unfold ExampleNoReqs.save.
  destruct (Struct.pack_Q _) as [prefix|e]; [|discriminate].
  simpl. rewrite (utf8_encode_ascii (Json.dumps header) (encode_ascii header)).
  simpl. intros [= <-]. eauto.
Qed.

Lemma save_succeeds (header : value) (content : pybytes) :
  N.of_nat (List.length (Json.dumps header)) < 2 ^ 64 ->
  exists out, ExampleNoReqs.save header content = Ok out.
Proof.
  intros H. unfold ExampleNoReqs.save, Struct.pack_Q.
  apply N.ltb_lt in H. rewrite H. simpl.
  rewrite (utf8_encode_ascii (Json.dumps header) (encode_ascii header)).
  simpl. eauto.
Qed.

(** The layout of a file that [save] writes: the packed length, the header
    text in UTF-8 and the content. *)
Lemma save_frame (header : value) (content out : pybytes) :
  ExampleNoReqs.save header content = Ok out ->
  exists text,
    Utf8.encode (Json.dumps header) = Ok text
    /\ out = firstn 8 out ++ text ++ content
    /\ Struct.unpack_Q (firstn 8 out) = Ok (N.of_nat (List.length text))
    /\ List.length text = List.length (Json.dumps header).
Proof.
  intros H. apply save_result in H as (prefix & Hp & ->).
  apply unpack_pack in Hp as [Hu Hl].
  exists (map byte_of_N (Json.dumps header)).
  assert (Hf : firstn 8 (prefix ++ map byte_of_N (Json.dumps header) ++ content)
               = prefix).
  { rewrite <- Hl. rewrite firstn_app, Nat.sub_diag, firstn_all. simpl.
    apply List.app_nil_r. }
  rewrite Hf, length_map. repeat split; auto.
  apply utf8_encode_ascii, encode_ascii.
Qed.

(** C10.  In every file that [process] writes, the first eight bytes hold
    the number of bytes of the UTF-8 header text that follows them,
    whatever characters the metadata values contain: the text that
    [json.dumps] returns is ASCII, so it has as many bytes as characters. *)
Theorem length_prefix_counts_bytes (header : value) (content out : pybytes) :
  ExampleNoReqs.save header content = Ok out ->
  exists text,
    Utf8.encode (Json.dumps header) = Ok text
    /\ out = firstn 8 out ++ text ++ content
    /\ Struct.unpack_Q (firstn 8 out) = Ok (N.of_nat (List.length text))
    /\ List.length text = List.length (Json.dumps header)
    /\ ascii_text (Json.dumps header) = true.
Proof.
  intros H. destruct (@save_frame header content out H)
    as (text & Ht & Ho & Hu & Hl).
  exists text. repeat split; auto. apply encode_ascii.
Qed.

Lemma length_prefix_counts_bytes_witness :
  let header :=
    JObj [(lit "__metadata__",
           JObj [(lit "modelspec.title", JStr [233; 0x1F600])])] in
  let content := [x41; x42] in
  exists out text,
    ExampleNoReqs.save header content = Ok out
    /\ Utf8.encode (Json.dumps header) = Ok text
    /\ Struct.unpack_Q (firstn 8 out) = Ok (N.of_nat (List.length text)).
Proof.
  intros header content.
  destruct (ExampleNoReqs.save header content) as [out|e] eqn:E.
  - destruct (@length_prefix_counts_bytes header content out E)
      as (text & Ht & _ & Hu & _).
    exists out, text. auto.
  - vm_compute in E. discriminate E.
Defined.

(** ** Reading a container *)





(** ** Hash verification on the read path *)




Lemma read_metadata_absent (d : dict) (actual : pystr) :
  Dict.get (lit "__metadata__") d = None ->
  ExampleNoReqs.read_metadata (JObj d) actual
  = ([text_line "File does not have metadata"], Ok []).
Proof.
  intros Hg. unfold ExampleNoReqs.read_metadata.
  cbn [Py.contains]. unfold Dict.mem. rewrite Hg, iobind_ok. reflexivity.
Qed.





Lemma update_thumbnail_ok (metadata : dict) (image_path : pystr) (img : Image) :
  exists entries, snd (update_thumbnail metadata image_path img) = Ok entries.
Proof.
  destruct (update_thumbnail_cases metadata image_path img) as [E | [v E]];
    eauto.
Qed.

Lemma process_snd (metadata : dict) (image_path : pystr) (img : Image)
  (file_in : pybytes) :
  snd (ExampleNoReqs.process metadata image_path img file_in)
  = match snd (ExampleNoReqs.prepare metadata image_path img file_in) with
    | Ok (header, content) => ExampleNoReqs.save header content
    | Raise e => Raise e
    end.
Proof.
  unfold ExampleNoReqs.process. rewrite snd_iobind.
  destruct (snd (ExampleNoReqs.prepare metadata image_path img file_in))
    as [[header content]|e]; [|reflexivity].
  unfold print_str. rewrite snd_iobind. reflexivity.
Qed.


(** [prepare] on a file that loads, when the reading of its metadata ends
    normally. *)
Lemma prepare_loaded (metadata entries : dict) (image_path : pystr)
  (img : Image) (file_in : pybytes) (d orig : dict) (content : pybytes)
  (log : list line) :
  snd (update_thumbnail metadata image_path img) = Ok entries ->
  ExampleNoReqs.load file_in = Ok (JObj d, content) ->
  ExampleNoReqs.read_metadata (JObj d) (ExampleNoReqs.hash_sha256 content)
  = (log, Ok orig) ->
  ExampleNoReqs.prepare metadata image_path img file_in
  = (fst (update_thumbnail metadata image_path img)
     ++ text_line "Loading model..." :: log,
     Ok (JObj (Dict.set (lit "__metadata__")
                 (JObj (Dict.update orig
                          (Dict.set (lit "modelspec.hash_sha256")
                             (JStr (ExampleNoReqs.hash_sha256 content))
                             entries)))
                 d),
         content)).
Proof.
  intros Hu Hl Hr. unfold ExampleNoReqs.prepare.
  unfold iobind at 1. rewrite Hu. unfold print_str.
  rewrite iobind_print, Hl, iobind_ok.
  unfold iobind at 1. rewrite Hr. cbn [fst snd].
  unfold ExampleNoReqs.apply_metadata. cbn [Py.setitem].
  rewrite iobind_ok. cbn [ret fst snd]. rewrite List.app_nil_r. reflexivity.
Qed.



(** ** The stored digest *)

Lemma round_length (st : list N) (kw : N * N) :
  List.length st = 8%nat -> List.length (Hashlib.round st kw) = 8%nat.
Proof.
  intros H.
  destruct st as [|a [|b [|c [|d [|e [|f [|g [|h [|i st]]]]]]]]];
    try discriminate. reflexivity.
Qed.

Lemma rounds_length (kws : list (N * N)) (st : list N) :
  List.length st = 8%nat ->
  List.length (fold_left Hashlib.round kws st) = 8%nat.
Proof.
  revert st; induction kws as [|kw kws IH]; intros st H; simpl; auto.
  apply IH, round_length, H.
Qed.

Lemma compress_length (h : list N) (block : pybytes) :
  List.length h = 8%nat -> List.length (Hashlib.compress h block) = 8%nat.
Proof.
  intros H. unfold Hashlib.compress.
  rewrite length_map, length_combine, rounds_length, H by exact H.
  reflexivity.
Qed.

Lemma blocks_length (n : nat) (h : list N) (m : pybytes) :
  List.length h = 8%nat -> List.length (Hashlib.blocks n h m) = 8%nat.
Proof.
  revert h m; induction n as [|n IH]; intros h m H; simpl; auto.
  apply IH, compress_length, H.
Qed.

Lemma length_be_bytes (count : nat) (n : N) :
  List.length (Hashlib.be_bytes count n) = count.
Proof. induction count; simpl; auto. Qed.

Lemma sha256_length (data : pybytes) :
  List.length (Hashlib.sha256 data) = 32%nat.
Proof.
  unfold Hashlib.sha256.
  pose proof (@blocks_length (List.length (Hashlib.pad data) / 64) Hashlib.H0
                (Hashlib.pad data) eq_refl) as H.
  destruct (Hashlib.blocks _ Hashlib.H0 (Hashlib.pad data))
    as [|a [|b [|c [|d [|e [|f [|g [|h [|i st]]]]]]]]];
    try discriminate.
  reflexivity.
Qed.

Lemma hexchar_lower (d : N) : d < 16 -> lower_hex (Hashlib.hexchar d) = true.
Proof.
  intros H. unfold lower_hex, Hashlib.hexchar.
  destruct (d <? 10) eqn:E.
  - apply N.ltb_lt in E. apply orb_true_iff. left.
    apply andb_true_iff; split; apply N.leb_le; lia.
  - apply N.ltb_ge in E. apply orb_true_iff. right.
    apply andb_true_iff; split; apply N.leb_le; lia.
Qed.

Lemma hex_lower (b : pybytes) :
  forallb lower_hex (Hashlib.hex b) = true
  /\ List.length (Hashlib.hex b) = (2 * List.length b)%nat.
Proof.
  induction b as [|x b [IH1 IH2]]; [split; reflexivity|].
  pose proof (to_N_lt_256 x).
  cbn [Hashlib.hex forallb List.length]. rewrite IH1, IH2.
  rewrite !hexchar_lower; [split; [reflexivity | lia] | |].
  - apply N.mod_upper_bound. discriminate.
  - apply N.Div0.div_lt_upper_bound. exact H.
Qed.

(** The digest text: 64 lowercase hexadecimal digits. *)
Lemma hexdigest_shape (data : pybytes) :
  forallb lower_hex (Hashlib.hexdigest data) = true
  /\ List.length (Hashlib.hexdigest data) = 64%nat.
Proof.
  unfold Hashlib.hexdigest.
  destruct (hex_lower (Hashlib.sha256 data)) as [H1 H2].
  rewrite H2, sha256_length. auto.
Qed.

(** C9.  In every file that [process] writes, the header stores under
    [modelspec.hash_sha256] the text [0x] followed by the 64 lowercase
    hexadecimal digits of the SHA-256 digest of the very bytes written as
    the body, which are the content read from the input. *)
Theorem stored_hash_is_digest_of_body (metadata : dict) (image_path : pystr)
  (img : Image) (file_in out : pybytes) :
  distinct (map fst metadata) = true ->
  snd (ExampleNoReqs.process metadata image_path img file_in) = Ok out ->
  exists header_in header_out m_out text content,
    ExampleNoReqs.load file_in = Ok (header_in, content)
    /\ Utf8.encode (Json.dumps header_out) = Ok text
    /\ out = firstn 8 out ++ text ++ content
    /\ Struct.unpack_Q (firstn 8 out) = Ok (N.of_nat (List.length text))
    /\ metadata_map header_out = Some m_out
    /\ Dict.get (lit "modelspec.hash_sha256") m_out
       = Some (JStr (lit "0x" ++ Hashlib.hexdigest content))
    /\ forallb lower_hex (Hashlib.hexdigest content) = true
    /\ List.length (Hashlib.hexdigest content) = 64%nat.
Proof.
  intros Hd H. rewrite process_snd in H.
  destruct (snd (ExampleNoReqs.prepare metadata image_path img file_in))
    as [[header_out content]|e] eqn:Hp; [|discriminate].
  apply prepare_result in Hp
    as (header_in & entries & orig & Hl & Hu & Hr & Ha).
  apply metadata_map_applied in Ha as [Hm _].
  destruct (@save_frame header_out content out H)
    as (text & Ht & Ho & Hq & _).
  destruct (hexdigest_shape content) as [Hx Hn].
  exists header_in, header_out. eexists. exists text, content.
  repeat split; eauto.
  rewrite get_update.
  - now rewrite get_set_same.
  - apply distinct_set.
    destruct (update_thumbnail_cases metadata image_path img) as [E | [v E]];
      rewrite E in Hu; injection Hu as <-; auto.
    now apply distinct_set.
Qed.

Lemma stored_hash_is_digest_of_body_witness :
  let d := [(lit "weight", JObj [(lit "dtype", JStr (lit "F32"))]);
            (lit "__metadata__",
             JObj [(lit "modelspec.hash_sha256", JStr (lit "0xdead"))])] in
  let content := [x41; x42; x43; x44] in
  let file_in := match ExampleNoReqs.save (JObj d) content with
                 | Ok b => b
                 | Raise _ => []
                 end in
  exists out header_out m_out,
    snd (ExampleNoReqs.process ExampleNoReqs.metadata [] {| png := [] |}
           file_in) = Ok out
    /\ metadata_map header_out = Some m_out
    /\ Dict.get (lit "modelspec.hash_sha256") m_out
       = Some (JStr (lit "0x" ++ Hashlib.hexdigest content)).
Proof.
  intros d content file_in.
  destruct (snd (ExampleNoReqs.process ExampleNoReqs.metadata []
                   {| png := [] |} file_in)) as [out|e] eqn:E.
  - destruct (@stored_hash_is_digest_of_body ExampleNoReqs.metadata []
                {| png := [] |} file_in out eq_refl E)
      as (header_in & header_out & m_out & text & content' & Hl & _ & _ & _
          & Hm & Hg & _).
    assert (Hc : ExampleNoReqs.load file_in = Ok (JObj d, content))
      by (vm_compute; reflexivity).
    rewrite Hc in Hl. injection Hl as _ <-.
    exists out, header_out, m_out. auto.
  - vm_compute in E. discriminate E.
Defined.

(** ** Strings come back from the decoder *)

Lemma hexval_hexdigit (d : N) :
  d < 16 -> Json.hexval (Json.hexdigit d) = Some d.
Proof.
  intros H. unfold Json.hexval, Json.hexdigit.
  destruct (d <? 10) eqn:E.
  - apply N.ltb_lt in E.
    assert ((48 <=? 48 + d) && (48 + d <=? 57) = true) as ->
        by (apply andb_true_iff; split; apply N.leb_le; lia).
    f_equal. lia.
  - apply N.ltb_ge in E.
    assert ((48 <=? 87 + d) && (87 + d <=? 57) = false) as ->
        by (apply andb_false_iff; right; apply N.leb_gt; lia).
    assert ((97 <=? 87 + d) && (87 + d <=? 102) = true) as ->
        by (apply andb_true_iff; split; apply N.leb_le; lia).
    f_equal. lia.
Qed.

Lemma decode_hex4_hex4 (n : N) :
  n < 65536 ->
  match Json.hex4 n with
  | [h1; h2; h3; h4] => Json.decode_hex4 h1 h2 h3 h4 = Ok n
  | _ => False
  end.
Proof.
  intros H. unfold Json.hex4, Json.decode_hex4.
  rewrite !hexval_hexdigit by (apply N.mod_upper_bound; discriminate).
  f_equal. divmod.
Qed.

Lemma scanstring_u (h1 h2 h3 h4 : N) (r2 : pystr) :
  Json.scanstring
    (Json.BACKSLASH :: Json.LOWER_U :: h1 :: h2 :: h3 :: h4 :: r2)
  = (uni <- Json.decode_hex4 h1 h2 h3 h4 ;;
     let single :=
       '(t, rest) <- Json.scanstring r2 ;; Ok (uni :: t, rest) in
     if Json.is_high uni then
       match r2 with
       | b :: u :: g1 :: g2 :: g3 :: g4 :: r3 =>
           if (b =? Json.BACKSLASH) && (u =? Json.LOWER_U) then
             uni2 <- Json.decode_hex4 g1 g2 g3 g4 ;;
             if Json.is_low uni2 then
               '(t, rest) <- Json.scanstring r3 ;;
               Ok (Json.join_surrogates uni uni2 :: t, rest)
             else single
           else single
       | _ => single
       end
     else single).
Proof. reflexivity. Qed.

Lemma uescape_app (n : N) (r : pystr) :
  Json.uescape n ++ r
  = Json.BACKSLASH :: Json.LOWER_U
    :: Json.hexdigit (n / 4096 mod 16) :: Json.hexdigit (n / 256 mod 16)
    :: Json.hexdigit (n / 16 mod 16) :: Json.hexdigit (n mod 16) :: r.
Proof. reflexivity. Qed.

Lemma scan_u_single (n : N) (r : pystr) :
  n < 65536 ->
  (Json.is_high n = true ->
   startswith [Json.BACKSLASH; Json.LOWER_U] r = false) ->
  Json.scanstring (Json.uescape n ++ r)
  = ('(t, rest) <- Json.scanstring r ;; Ok (n :: t, rest)).
Proof.
  intros Hn Hr. pose proof (decode_hex4_hex4 Hn) as Hd.
  unfold Json.hex4 in Hd.
  rewrite uescape_app, scanstring_u, Hd. cbn [bind]. cbv zeta.
  destruct (Json.is_high n); [|reflexivity].
  specialize (Hr eq_refl).
  destruct r as [|b [|u [|g1 [|g2 [|g3 [|g4 r3]]]]]]; try reflexivity.
  cbn [startswith] in Hr. rewrite andb_true_r in Hr.
  rewrite (N.eqb_sym b), (N.eqb_sym u), Hr. reflexivity.
Qed.

Lemma scan_u_then_u (n m : N) (r : pystr) :
  n < 65536 -> m < 65536 -> Json.is_low m = false ->
  Json.scanstring (Json.uescape n ++ Json.uescape m ++ r)
  = ('(t, rest) <- Json.scanstring (Json.uescape m ++ r) ;; Ok (n :: t, rest)).
Proof.
  intros Hn Hm Hl. pose proof (decode_hex4_hex4 Hn) as Hd.
  pose proof (decode_hex4_hex4 Hm) as Hd'.
  unfold Json.hex4 in Hd, Hd'.
  rewrite (uescape_app n), scanstring_u, Hd. cbn [bind]. cbv zeta.
  destruct (Json.is_high n); [|reflexivity].
  rewrite (uescape_app m).
  change ((Json.BACKSLASH =? Json.BACKSLASH) && (Json.LOWER_U =? Json.LOWER_U))
    with true. cbv iota.
  rewrite Hd'. cbn [bind]. rewrite Hl. reflexivity.
Qed.

Lemma scan_u_pair (hi lo : N) (r : pystr) :
  hi < 65536 -> lo < 65536 ->
  Json.is_high hi = true -> Json.is_low lo = true ->
  Json.scanstring (Json.uescape hi ++ Json.uescape lo ++ r)
  = ('(t, rest) <- Json.scanstring r ;;
     Ok (Json.join_surrogates hi lo :: t, rest)).
Proof.
  intros Hn Hm Hh Hl. pose proof (decode_hex4_hex4 Hn) as Hd.
  pose proof (decode_hex4_hex4 Hm) as Hd'.
  unfold Json.hex4 in Hd, Hd'.
  rewrite (uescape_app hi), scanstring_u, Hd. cbn [bind]. cbv zeta.
  rewrite Hh, (uescape_app lo).
  change ((Json.BACKSLASH =? Json.BACKSLASH) && (Json.LOWER_U =? Json.LOWER_U))
    with true. cbv iota.
  rewrite Hd'. cbn [bind]. rewrite Hl. reflexivity.
Qed.

Lemma scan_plain (c : N) (r : pystr) :
  Json.plain_char c = true ->
  Json.scanstring (c :: r)
  = ('(t, rest) <- Json.scanstring r ;; Ok (c :: t, rest)).
Proof.
  intros H. unfold Json.plain_char in H.
  rewrite !andb_true_iff, !negb_true_iff in H.
  destruct H as [[[H1 H2] H3] H4].
  cbn [Json.scanstring]. rewrite H3, H4.
  assert ((c <=? 31) = false) as ->
      by (apply N.leb_gt; apply N.leb_le in H1; lia).
  reflexivity.
Qed.

Lemma scan_simple (e ch : N) (r : pystr) :
  (e =? Json.LOWER_U) = false ->
  Json.unescape e = Ok ch ->
  Json.scanstring (Json.BACKSLASH :: e :: r)
  = ('(t, rest) <- Json.scanstring r ;; Ok (ch :: t, rest)).
Proof.
  intros He Hu. cbn [Json.scanstring].
  change (Json.BACKSLASH =? Json.QUOTE) with false.
  change (Json.BACKSLASH =? Json.BACKSLASH) with true. cbv iota.
  rewrite He, Hu. reflexivity.
Qed.

(** *** Surrogate pairs *)

Lemma lor_high_low (a x n : N) :
  x < 2 ^ n -> N.lor (a * 2 ^ n) x = a * 2 ^ n + x.
Proof.
  intros H.
  assert (Hz : N.land (a * 2 ^ n) x = 0).
  { apply N.bits_inj_0. intros m. rewrite N.land_spec.
    destruct (N.lt_ge_cases m n) as [Hm | Hm].
    - now rewrite N.mul_pow2_bits_low.
    - rewrite <- (N.mod_small x (2 ^ n)) by exact H.
      rewrite N.mod_pow2_bits_high by exact Hm. apply andb_false_r. }
  now rewrite N.add_nocarry_lxor, N.lxor_lor.
Qed.

Lemma surrogates_of (c : N) :
  0x10000 <= c -> c < 0x110000 ->
  let n := c - 0x10000 in
  N.lor 0xD800 (N.land (N.shiftr n 10) 0x3FF) = 0xD800 + n / 1024
  /\ N.lor 0xDC00 (N.land n 0x3FF) = 0xDC00 + n mod 1024.
Proof.
  intros H1 H2 n.
  assert (Hn : n < 1048576) by (unfold n; lia).
  change 0x3FF with (N.ones 10). rewrite !N.land_ones, N.shiftr_div_pow2.
  change (2 ^ 10) with 1024.
  assert (Hq : n / 1024 < 1024)
    by (apply N.Div0.div_lt_upper_bound; exact Hn).
  assert (Hr : n mod 1024 < 1024) by (apply N.mod_upper_bound; discriminate).
  rewrite (N.mod_small (n / 1024)) by exact Hq.
  change 0xD800 with (54 * 2 ^ 10). change 0xDC00 with (55 * 2 ^ 10).
  split; apply lor_high_low; assumption.
Qed.

Lemma join_surrogates_of (c : N) :
  0x10000 <= c -> c < 0x110000 ->
  let n := c - 0x10000 in
  Json.join_surrogates (0xD800 + n / 1024) (0xDC00 + n mod 1024) = c.
Proof.
  intros H1 H2 n. unfold Json.join_surrogates.
  rewrite (N.add_comm 0xD800), (N.add_comm 0xDC00), !N.add_sub.
  rewrite N.shiftl_mul_pow2, lor_high_low
    by (apply N.mod_upper_bound; discriminate).
  change (2 ^ 10) with 1024.
  assert (Hdm : n = 1024 * (n / 1024) + n mod 1024)
    by (apply N.div_mod; discriminate).
  generalize dependent (n / 1024). generalize dependent (n mod 1024).
  intros r q Hdm. unfold n in Hdm. lia.
Qed.

Lemma escape_char_cases (c : N) :
  c < 0x110000 ->
  (Json.plain_char c = true /\ Json.escape_char c = [c])
  \/ (exists e, Json.escape_char c = [Json.BACKSLASH; e]
                /\ (e =? Json.LOWER_U) = false /\ Json.unescape e = Ok c)
  \/ (c < 65536 /\ Json.escape_char c = Json.uescape c)
  \/ (0x10000 <= c
      /\ Json.escape_char c
         = Json.uescape (0xD800 + (c - 0x10000) / 1024)
           ++ Json.uescape (0xDC00 + (c - 0x10000) mod 1024)).
Proof.
  intros Hc. unfold Json.escape_char.
  destruct (Json.plain_char c); [left; auto|]. right.
  destruct (c =? Json.QUOTE) eqn:E1;
    [apply N.eqb_eq in E1; subst; left; eexists; repeat split|].
  destruct (c =? Json.BACKSLASH) eqn:E2;
    [apply N.eqb_eq in E2; subst; left; eexists; repeat split|].
  destruct (c =? 10) eqn:E3;
    [apply N.eqb_eq in E3; subst; left; eexists; repeat split|].
  destruct (c =? 13) eqn:E4;
    [apply N.eqb_eq in E4; subst; left; eexists; repeat split|].
  destruct (c =? 9) eqn:E5;
    [apply N.eqb_eq in E5; subst; left; eexists; repeat split|].
  destruct (c =? 12) eqn:E6;
    [apply N.eqb_eq in E6; subst; left; eexists; repeat split|].
  destruct (c =? 8) eqn:E7;
    [apply N.eqb_eq in E7; subst; left; eexists; repeat split|].
  right. destruct (c <? 65536) eqn:E8.
  - left. apply N.ltb_lt in E8. auto.
  - right. apply N.ltb_ge in E8. split; [exact E8|]. cbv zeta.
    destruct (@surrogates_of c E8 Hc) as [-> ->]. reflexivity.
Qed.

Lemma high_surrogate_of (c : N) :
  0x10000 <= c -> c < 0x110000 ->
  let hi := 0xD800 + (c - 0x10000) / 1024 in
  hi < 65536 /\ Json.is_high hi = true /\ Json.is_low hi = false.
Proof.
  intros H1 H2 hi.
  assert (Hq : (c - 0x10000) / 1024 < 1024)
    by (apply N.Div0.div_lt_upper_bound; lia).
  unfold Json.is_high, Json.is_low. subst hi.
  generalize dependent ((c - 0x10000) / 1024). intros q Hq.
  repeat split; try lia.
  - apply andb_true_iff; split; apply N.leb_le; lia.
  - apply andb_false_iff. left. apply N.leb_gt. lia.
Qed.

Lemma low_surrogate_of (c : N) :
  let lo := 0xDC00 + (c - 0x10000) mod 1024 in
  lo < 65536 /\ Json.is_low lo = true.
Proof.
  intros lo.
  assert (Hr : (c - 0x10000) mod 1024 < 1024)
    by (apply N.mod_upper_bound; discriminate).
  unfold Json.is_low. subst lo.
  generalize dependent ((c - 0x10000) mod 1024). intros r Hr.
  split; [lia|]. apply andb_true_iff; split; apply N.leb_le; lia.
Qed.

(** After the escape of [c], the scanner reads [c] and goes on with the
    text that follows, when that text is the escape of a character that is
    not the low half of a pair begun by [c]. *)
Lemma scan_u_before_char (c c2 : N) (r : pystr) :
  c < 65536 -> c2 < 0x110000 ->
  (Json.is_high c = true -> Json.is_low c2 = false) ->
  Json.scanstring (Json.uescape c ++ Json.escape_char c2 ++ r)
  = ('(t, rest) <- Json.scanstring (Json.escape_char c2 ++ r) ;;
     Ok (c :: t, rest)).
Proof.
  intros Hc Hc2 Hpair.
  destruct (Json.is_high c) eqn:Hh;
    [|apply scan_u_single; [exact Hc | rewrite Hh; discriminate]].
  specialize (Hpair eq_refl).
  destruct (escape_char_cases Hc2)
    as [[Hp ->] | [(e & -> & He & _) | [[Hlt ->] | [Hge ->]]]].
  - apply scan_u_single; [exact Hc|]. intros _.
    unfold Json.plain_char in Hp.
    rewrite !andb_true_iff, !negb_true_iff in Hp.
    destruct Hp as [_ Hb]. cbn [app startswith].
    rewrite N.eqb_sym, Hb. reflexivity.
  - apply scan_u_single; [exact Hc|]. intros _.
    cbn [app startswith]. rewrite (N.eqb_sym Json.LOWER_U), He.
    apply andb_false_r.
  - now apply scan_u_then_u.
  - destruct (high_surrogate_of Hge Hc2) as (H1 & _ & H3).
    rewrite <- app_assoc. now apply scan_u_then_u.
Qed.

Lemma wf_str_cons (c : N) (s : pystr) :
  wf_str (c :: s) = true ->
  c < 0x110000
  /\ wf_str s = true
  /\ match s with
     | c' :: _ => Json.is_high c = true -> Json.is_low c' = false
     | [] => True
     end.
Proof.
  cbn [wf_str]. rewrite !andb_true_iff. intros [[H1 H2] H3].
  apply N.ltb_lt in H1. repeat split; auto.
  destruct s as [|c' s]; [exact I|].
  intros Hh. rewrite Hh in H2. apply negb_true_iff in H2. exact H2.
Qed.

Lemma scanstring_escape (s rest : pystr) :
  wf_str s = true ->
  Json.scanstring (Json.escape s ++ Json.QUOTE :: rest) = Ok (s, rest).
Proof.
  induction s as [|c s IH]; intros Hwf; [reflexivity|].
  apply wf_str_cons in Hwf as (Hc & Hs & Hpair).
  specialize (IH Hs).
  cbn [Json.escape]. rewrite <- app_assoc.
  destruct (escape_char_cases Hc)
    as [[Hp ->] | [(e & -> & He & Hu) | [[Hlt ->] | [Hge ->]]]].
  - cbn [app]. rewrite scan_plain by exact Hp. rewrite IH. reflexivity.
  - cbn [app]. rewrite (@scan_simple e c) by assumption.
    rewrite IH. reflexivity.
  - destruct s as [|c2 s'].
    + cbn [Json.escape app]. rewrite scan_u_single; auto.
    + apply wf_str_cons in Hs as (Hc2 & _ & _).
      cbn [Json.escape] in IH |- *. rewrite <- app_assoc in IH |- *.
      rewrite scan_u_before_char, IH; auto.
  - destruct (high_surrogate_of Hge Hc) as (H1 & H2 & _).
    destruct (low_surrogate_of c) as (H3 & H4).
    rewrite <- app_assoc, scan_u_pair, IH by assumption.
    cbn [bind]. now rewrite join_surrogates_of.
Qed.

(** ** Integers come back from the decoder *)

Lemma is_digit_digit_char (d : N) :
  d < 10 -> Json.is_digit (Json.digit_char d) = true.
Proof.
  intros H. unfold Json.is_digit, Json.digit_char.
  apply andb_true_iff; split; apply N.leb_le; lia.
Qed.

Lemma take_digits_uint_chars (u : Decimal.uint) (rest : pystr) :
  match rest with
  | c :: _ => Json.is_digit c = false
  | [] => True
  end ->
  Json.take_digits (Json.uint_chars u ++ rest) = (u, rest).
Proof.
  intros Hr. induction u; cbn [Json.uint_chars app Json.take_digits];
    try (rewrite IHu; reflexivity).
  destruct rest as [|c rest]; [reflexivity|].
  cbn [Json.take_digits]. now rewrite Hr.
Qed.

Lemma nzhead_head (d d' : Decimal.uint) : Decimal.nzhead d <> Decimal.D0 d'.
Proof. induction d; simpl; auto; discriminate. Qed.

Lemma to_uint_head (p : positive) :
  match Pos.to_uint p with
  | Decimal.Nil | Decimal.D0 _ => False
  | _ => True
  end.
Proof.
  pose proof (DecimalPos.Unsigned.to_of (Pos.to_uint p)) as H.
  rewrite DecimalPos.Unsigned.of_to in H. cbn [N.to_uint] in H.
  pose proof (DecimalPos.Unsigned.to_uint_nonzero p) as Hz.
  pose proof (DecimalPos.Unsigned.to_uint_nonnil p) as Hn.
  destruct (Pos.to_uint p) as [|d| | | | | | | | |]; auto.
  unfold Decimal.unorm in H. cbn [Decimal.nzhead] in H.
  destruct (Decimal.nzhead d) eqn:E; try discriminate H.
  - injection H as ->. now apply Hz.
  - now apply nzhead_head in E.
Qed.

Lemma delimited_cases (rest : pystr) :
  delimited rest = true ->
  rest = []
  \/ exists c r,
      rest = c :: r
      /\ (c = Json.COMMA \/ c = Json.RBRACKET \/ c = Json.RBRACE).
Proof.
  destruct rest as [|c r]; [now left|]. cbn [delimited].
  rewrite !orb_true_iff, !N.eqb_eq. intros H. right. exists c, r. tauto.
Qed.

Lemma delimited_no_digit (rest : pystr) :
  delimited rest = true ->
  match rest with
  | c :: _ => Json.is_digit c = false
  | [] => True
  end.
Proof.
  intros H. destruct (delimited_cases rest H) as [-> | (c & r & -> & Hc)];
    [exact I|].
  destruct Hc as [-> | [-> | ->]]; reflexivity.
Qed.

Lemma delimited_no_float (rest : pystr) :
  delimited rest = true -> Json.has_frac rest || Json.has_exp rest = false.
Proof.
  intros H. destruct (delimited_cases rest H) as [-> | (c & r & -> & Hc)];
    [reflexivity|].
  destruct r as [|d r]; [reflexivity|].
  destruct Hc as [-> | [-> | ->]]; reflexivity.
Qed.

Lemma match_digits_to_uint (p : positive) (rest : pystr) :
  delimited rest = true ->
  Json.match_digits (Json.uint_chars (Pos.to_uint p) ++ rest)
  = Some (Pos.to_uint p, rest).
Proof.
  intros H. pose proof (to_uint_head p) as Hh.
  pose proof (delimited_no_digit rest H) as Hd.
  destruct (Pos.to_uint p) as [|u|u|u|u|u|u|u|u|u|u]; try contradiction;
    match goal with
    | |- Json.match_digits (Json.uint_chars ?d ++ rest) = _ =>
        rewrite <- (take_digits_uint_chars d rest Hd)
    end; reflexivity.
Qed.

Lemma match_number_encode_int (z : Z) (rest : pystr) :
  delimited rest = true ->
  Json.match_number (Json.encode_int z ++ rest) = Some (Ok (JInt z, rest)).
Proof.
  intros H. pose proof (delimited_no_float rest H) as Hf.
  pose proof (DecimalZ.of_to z) as Hz.
  unfold Json.encode_int. destruct z as [|p|p]; cbn [Z.to_int] in *.
  - cbn. rewrite Hf. reflexivity.
  - pose proof (to_uint_head p) as Hh.
    unfold Json.match_number.
    destruct (Json.uint_chars (Pos.to_uint p) ++ rest) as [|c s] eqn:E.
    + destruct (Pos.to_uint p); try contradiction; discriminate E.
    + assert ((c =? Json.MINUS) = false) as ->.
      { destruct (Pos.to_uint p); try contradiction;
          injection E as <- _; reflexivity. }
      rewrite <- E, match_digits_to_uint, Hf, Hz by exact H. reflexivity.
  - cbn [app]. unfold Json.match_number.
    change (Json.MINUS =? Json.MINUS) with true. cbv iota.
    rewrite match_digits_to_uint, Hf, Hz by exact H. reflexivity.
Qed.

(** ** Values come back from the decoder *)

Lemma digit_cases (c : N) :
  Json.is_digit c = true ->
  c = 48 \/ c = 49 \/ c = 50 \/ c = 51 \/ c = 52 \/ c = 53 \/ c = 54
  \/ c = 55 \/ c = 56 \/ c = 57.
Proof.
  unfold Json.is_digit. rewrite andb_true_iff, !N.leb_le. lia.
Qed.

Lemma encode_int_head (z : Z) :
  exists c r, Json.encode_int z = c :: r
              /\ (Json.is_digit c = true \/ c = Json.MINUS).
Proof.
  unfold Json.encode_int. destruct z as [|p|p]; cbn [Z.to_int].
  - eexists _, _. split; [reflexivity | left; reflexivity].
  - pose proof (to_uint_head p) as H.
    destruct (Pos.to_uint p); try contradiction;
      (eexists _, _; split; [reflexivity | left; reflexivity]).
  - eexists _, _. split; [reflexivity | right; reflexivity].
Qed.

(** On a digit or a minus sign, [_scan_once] goes to [match_number]. *)
Lemma scan_once_number (f : nat) (c : N) (r : pystr)
  (m : result (value * pystr)) :
  Json.is_digit c = true \/ c = Json.MINUS ->
  Json.match_number (c :: r) = Some m ->
  Json.scan_once (S f) (c :: r) = m.
Proof.
  intros [H | ->] Hm.
  - apply digit_cases in H.
    destruct H
      as [-> | [-> | [-> | [-> | [-> | [-> | [-> | [-> | [-> | ->]]]]]]]]];
      cbn [Json.scan_once]; cbn -[Json.match_number]; now rewrite Hm.
  - cbn [Json.scan_once]; cbn -[Json.match_number]; now rewrite Hm.
Qed.

Lemma scan_once_int (f : nat) (z : Z) (rest : pystr) :
  delimited rest = true ->
  Json.scan_once (S f) (Json.encode_int z ++ rest) = Ok (JInt z, rest).
Proof.
  intros H. pose proof (match_number_encode_int z rest H) as Hm.
  destruct (encode_int_head z) as (c & r & E & Hc).
  rewrite E in *. cbn [app] in *. now apply scan_once_number.
Qed.

Lemma scan_once_str (f : nat) (s rest : pystr) :
  wf_str s = true ->
  Json.scan_once (S f) (Json.encode_str s ++ rest) = Ok (JStr s, rest).
Proof.
  intros H. unfold Json.encode_str. cbn [app]. rewrite <- app_assoc.
  cbn [app Json.scan_once].
  change (Json.QUOTE =? Json.QUOTE) with true. cbv iota.
  now rewrite scanstring_escape.
Qed.

(** The first character of an encoded value is not white space and closes
    nothing. *)
Lemma encode_head (v : value) :
  exists c r, Json.encode v = c :: r
              /\ Json.is_ws c = false
              /\ (c =? Json.RBRACKET) = false.
Proof.
  destruct v as [| [|] | z | s | l | d];
    try (eexists _, _; repeat split; reflexivity).
  - destruct (encode_int_head z) as (c & r & E & Hc).
    exists c, r. split; [exact E|].
    destruct Hc as [Hc | ->]; [|split; reflexivity].
    apply digit_cases in Hc.
    destruct Hc
      as [-> | [-> | [-> | [-> | [-> | [-> | [-> | [-> | [-> | ->]]]]]]]]];
      split; reflexivity.
Qed.

Lemma skip_ws_encode (v : value) (rest : pystr) :
  Json.skip_ws (Json.encode v ++ rest) = Json.encode v ++ rest.
Proof.
  destruct (encode_head v) as (c & r & -> & Hw & _).
  cbn [app Json.skip_ws]. now rewrite Hw.
Qed.

Lemma skip_ws_space (s : pystr) :
  Json.skip_ws (Json.SPACE :: s) = Json.skip_ws s.
Proof. reflexivity. Qed.

Lemma scan_once_arr (f : nat) (r : pystr) :
  Json.scan_once (S f) (Json.LBRACKET :: r)
  = match Json.skip_ws r with
    | c1 :: r2 =>
        if c1 =? Json.RBRACKET then Ok (JArr [], r2)
        else
          '(l, rest) <- Json.array_loop f (Json.skip_ws r) ;;
          Ok (JArr l, rest)
    | [] => Raise JSONDecodeError
    end.
Proof. reflexivity. Qed.

Lemma array_loop_eq (f : nat) (s : pystr) :
  Json.array_loop (S f) s
  = ('(v, r) <- Json.scan_once f s ;;
     match Json.skip_ws r with
     | c :: r1 =>
         if c =? Json.RBRACKET then Ok ([v], r1)
         else if c =? Json.COMMA then
           '(l, rest) <- Json.array_loop f (Json.skip_ws r1) ;;
           Ok (v :: l, rest)
         else Raise JSONDecodeError
     | [] => Raise JSONDecodeError
     end).
Proof. reflexivity. Qed.

Lemma scan_once_obj (f : nat) (r : pystr) :
  Json.scan_once (S f) (Json.LBRACE :: r)
  = match Json.skip_ws r with
    | c1 :: r2 =>
        if c1 =? Json.RBRACE then Ok (JObj [], r2)
        else if c1 =? Json.QUOTE then
          '(pairs, rest) <- Json.object_loop f r2 ;;
          Ok (JObj (Dict.of_pairs pairs), rest)
        else Raise JSONDecodeError
    | [] => Raise JSONDecodeError
    end.
Proof. reflexivity. Qed.

Lemma object_loop_eq (f : nat) (s : pystr) :
  Json.object_loop (S f) s
  = ('(key, r) <- Json.scanstring s ;;
     match Json.skip_ws r with
     | c :: r1 =>
         if c =? Json.COLON then
           '(v, r2) <- Json.scan_once f (Json.skip_ws r1) ;;
           match Json.skip_ws r2 with
           | c2 :: r3 =>
               if c2 =? Json.RBRACE then Ok ([(key, v)], r3)
               else if c2 =? Json.COMMA then
                 match Json.skip_ws r3 with
                 | c3 :: r4 =>
                     if c3 =? Json.QUOTE then
                       '(pairs, rest) <- Json.object_loop f r4 ;;
                       Ok ((key, v) :: pairs, rest)
                     else Raise JSONDecodeError
                 | [] => Raise JSONDecodeError
                 end
               else Raise JSONDecodeError
           | [] => Raise JSONDecodeError
           end
         else Raise JSONDecodeError
     | [] => Raise JSONDecodeError
     end).
Proof. reflexivity. Qed.

Lemma array_loop_items (l : list value) :
  Forall decodes_back l ->
  forallb wf_value l = true ->
  l <> [] ->
  forall (f : nat) (rest : pystr),
    (fold_right (fun x n => S (size x + n)) O l < f)%nat ->
    Json.array_loop f (Json.encode_items l ++ rest) = Ok (l, rest).
Proof.
  induction 1 as [|x l Hx Hl IH]; intros Hwf Hne f rest Hf; [congruence|].
  cbn [forallb] in Hwf. apply andb_true_iff in Hwf as [Hwx Hwl].
  cbn [fold_right] in Hf.
  destruct f as [|f]; [lia|]. rewrite array_loop_eq.
  cbn [Json.encode_items]. rewrite <- app_assoc.
  destruct l as [|y l'].
  - rewrite (Hx Hwx) by (reflexivity || (cbn [fold_right] in Hf; lia)).
    reflexivity.
  - unfold Json.item_separator. rewrite <- app_assoc. cbn [app].
    rewrite (Hx Hwx) by (reflexivity || lia).
    cbn [bind]. cbn [Json.skip_ws].
    change (Json.is_ws Json.COMMA) with false. cbv iota.
    change (Json.COMMA =? Json.RBRACKET) with false.
    change (Json.COMMA =? Json.COMMA) with true. cbv iota.
    rewrite skip_ws_space.
    cbn [Json.encode_items]. rewrite <- app_assoc, skip_ws_encode.
    rewrite app_assoc.
    change (Json.encode y ++
            match l' with
            | [] => [Json.RBRACKET]
            | _ :: _ => Json.item_separator ++ Json.encode_items l'
            end) with (Json.encode_items (y :: l')).
    rewrite IH by (auto; try discriminate; lia). reflexivity.
Qed.

Lemma encode_members_cons (k : pystr) (x : value) (d : list (pystr * value))
  (rest : pystr) :
  Json.encode_members ((k, x) :: d) ++ rest
  = Json.QUOTE
    :: Json.escape k
       ++ Json.QUOTE :: Json.COLON :: Json.SPACE
          :: Json.encode x
             ++ match d with
                | [] => Json.RBRACE :: rest
                | _ :: _ =>
                    Json.COMMA :: Json.SPACE :: Json.encode_members d ++ rest
                end.
Proof.
  cbn [Json.encode_members]. unfold Json.encode_str, Json.key_separator.
  cbn [app]. rewrite <- !app_assoc. cbn [app]. do 2 f_equal.
  rewrite <- !app_assoc. do 4 f_equal.
  destruct d; reflexivity.
Qed.

Lemma object_loop_members (d : list (pystr * value)) :
  Forall (fun kv => decodes_back (snd kv)) d ->
  forallb (fun kv => wf_str (fst kv) && wf_value (snd kv)) d = true ->
  d <> [] ->
  forall (f : nat) (rest s : pystr),
    Json.encode_members d ++ rest = Json.QUOTE :: s ->
    (fold_right (fun kv n => S (size (snd kv) + n)) O d < f)%nat ->
    Json.object_loop f s = Ok (d, rest).
Proof.
  induction 1 as [|[k x] d Hx Hd IH]; intros Hwf Hne f rest s Hs Hf;
    [congruence|].
  cbn [forallb fst snd] in Hwf.
  apply andb_true_iff in Hwf as [Hwk Hwd].
  apply andb_true_iff in Hwk as [Hwk Hwx].
  cbn [fold_right snd] in Hf. cbn [snd] in Hx.
  destruct f as [|f]; [lia|].
  rewrite encode_members_cons in Hs. injection Hs as <-.
  rewrite object_loop_eq, scanstring_escape by exact Hwk.
  cbn [bind]. cbn [Json.skip_ws].
  change (Json.is_ws Json.COLON) with false. cbv iota.
  change (Json.COLON =? Json.COLON) with true. cbv iota.
  rewrite skip_ws_space, skip_ws_encode.
  destruct d as [|[k' x'] d'].
  - rewrite (Hx Hwx) by (reflexivity || lia). reflexivity.
  - rewrite (Hx Hwx) by (reflexivity || lia).
    cbn [bind]. cbn [Json.skip_ws].
    change (Json.is_ws Json.COMMA) with false. cbv iota.
    change (Json.COMMA =? Json.RBRACE) with false.
    change (Json.COMMA =? Json.COMMA) with true. cbv iota.
    rewrite skip_ws_space, encode_members_cons.
    cbn [Json.skip_ws].
    change (Json.is_ws Json.QUOTE) with false. cbv iota.
    change (Json.QUOTE =? Json.QUOTE) with true. cbv iota.
    erewrite IH;
      [reflexivity | exact Hwd | discriminate
       | apply encode_members_cons | lia].
Qed.

Lemma set_fresh (k : pystr) (v : value) (acc : dict) :
  existsb (str_eqb k) (map fst acc) = false ->
  Dict.set k v acc = acc ++ [(k, v)].
Proof.
  induction acc as [|[k' v'] acc IH]; cbn [map fst existsb Dict.set app];
    intros H; [reflexivity|].
  apply orb_false_iff in H as [H1 H2]. rewrite H1, IH by exact H2.
  reflexivity.
Qed.

Lemma update_distinct (d acc : dict) :
  distinct (map fst d) = true ->
  forallb (fun k => negb (existsb (str_eqb k) (map fst acc))) (map fst d)
  = true ->
  Dict.update acc d = acc ++ d.
Proof.
  revert acc; induction d as [|[k v] d IH]; intros acc Hd Ha.
  - symmetry. apply List.app_nil_r.
  - cbn [map fst distinct forallb] in Hd, Ha.
    apply andb_true_iff in Hd as [Hk Hd].
    apply andb_true_iff in Ha as [Hka Ha].
    apply negb_true_iff in Hk, Hka.
    unfold Dict.update in *. cbn [fold_left fst snd].
    rewrite set_fresh by exact Hka. rewrite IH.
    + rewrite <- app_assoc. reflexivity.
    + exact Hd.
    + rewrite forallb_forall in Ha |- *. intros k' Hin.
      specialize (Ha k' Hin). apply negb_true_iff in Ha.
      rewrite map_app, existsb_app, Ha. cbn [map fst existsb].
      rewrite orb_false_r. apply negb_true_iff.
      destruct (str_eqb k' k) eqn:E; [|reflexivity].
      apply str_eqb_eq in E; subst k'.
      assert (existsb (str_eqb k) (map fst d) = true) as Hex
          by (apply existsb_exists; exists k; split;
              [exact Hin | apply str_eqb_refl]).
      congruence.
Qed.

Lemma of_pairs_distinct (d : dict) :
  distinct (map fst d) = true -> Dict.of_pairs d = d.
Proof.
  intros H. unfold Dict.of_pairs. rewrite update_distinct; auto.
  apply forallb_forall. reflexivity.
Qed.

Lemma forallb_wf_snd (d : list (pystr * value)) :
  forallb (fun kv => wf_str (fst kv) && wf_value (snd kv)) d = true ->
  forallb wf_value (map snd d) = true.
Proof.
  induction d as [|[k x] d IH]; cbn [forallb map fst snd]; [reflexivity|].
  rewrite !andb_true_iff. intros [[_ H1] H2]. auto.
Qed.

(** Every value of the data model is read back by [_scan_once] from its
    encoding, whatever follows it in the encoder's output. *)
Lemma scan_once_encode (v : value) : decodes_back v.
Proof.
  induction v as [| b | z | s | l IH | d IH] using value_ind';
    intros Hwf fuel rest Hf Hr;
    (destruct fuel as [|f]; [cbn [size] in Hf; lia|]).
  - reflexivity.
  - destruct b; reflexivity.
  - now apply scan_once_int.
  - apply scan_once_str. exact Hwf.
  - rewrite encode_arr. cbn [app]. rewrite scan_once_arr.
    cbn [size] in Hf. cbn [wf_value] in Hwf.
    destruct l as [|x l]; [reflexivity|].
    cbn [Json.encode_items]. rewrite <- app_assoc, skip_ws_encode.
    destruct (encode_head x) as (c & r & E & _ & Hc).
    rewrite E. cbn [app]. rewrite Hc.
    rewrite app_comm_cons, <- E, app_assoc.
    change (Json.encode x ++
            match l with
            | [] => [Json.RBRACKET]
            | _ :: _ => Json.item_separator ++ Json.encode_items l
            end) with (Json.encode_items (x :: l)).
    rewrite array_loop_items; auto; try discriminate. lia.
  - rewrite encode_obj. cbn [app]. rewrite scan_once_obj.
    cbn [size] in Hf. cbn [wf_value] in Hwf.
    apply andb_true_iff in Hwf as [Hdist Hwf].
    destruct d as [|[k x] d]; [reflexivity|].
    rewrite encode_members_cons. cbn [Json.skip_ws].
    change (Json.is_ws Json.QUOTE) with false. cbv iota.
    change (Json.QUOTE =? Json.RBRACE) with false.
    change (Json.QUOTE =? Json.QUOTE) with true. cbv iota.
    erewrite object_loop_members;
      [ | exact IH | exact Hwf | discriminate
        | apply encode_members_cons | lia].
    cbn [bind]. now rewrite of_pairs_distinct.
Qed.

(** ** The whole text comes back *)

Lemma encode_nonempty (v : value) : (1 <= List.length (Json.encode v))%nat.
Proof.
  destruct (encode_head v) as (c & r & -> & _). cbn [List.length]. lia.
Qed.

Lemma size_le_length (v : value) : (size v <= List.length (Json.encode v))%nat.
Proof.
  induction v as [| b | z | s | l IH | d IH] using value_ind';
    try (cbn [size]; apply encode_nonempty).
  - rewrite encode_arr. cbn [size List.length]. apply le_n_S.
    induction IH as [|x l Hx Hl IHl]; [cbn; lia|].
    cbn [fold_right Json.encode_items]. rewrite length_app.
    destruct l as [|y l'].
    + cbn [fold_right List.length]. lia.
    + unfold Json.item_separator. rewrite length_app.
      cbn [List.length app] in *. lia.
  - rewrite encode_obj. cbn [size List.length]. apply le_n_S.
    induction IH as [|[k x] d Hx Hd IHd]; [cbn; lia|].
    cbn [snd] in Hx.
    cbn [fold_right snd Json.encode_members]. rewrite !length_app.
    destruct d as [|y d'].
    + cbn [fold_right List.length]. lia.
    + unfold Json.item_separator. rewrite length_app.
      cbn [List.length app] in *. lia.
Qed.

(** [JSONDecoder.decode] on the text of [json.dumps]. *)
Lemma decode_dumps (v : value) :
  wf_value v = true -> Json.decode (Json.dumps v) = Ok v.
Proof.
  intros Hwf. unfold Json.decode, Json.dumps.
  pose proof (skip_ws_encode v []) as Hs. rewrite List.app_nil_r in Hs.
  rewrite Hs.
  pose proof (@scan_once_encode v Hwf
                (2 * List.length (Json.encode v) + 2)%nat []) as H.
  rewrite List.app_nil_r in H. rewrite H; [reflexivity | | reflexivity].
  pose proof (size_le_length v). lia.
Qed.

Lemma to_N_of_ascii_bytes (s : pystr) :
  ascii_text s = true -> map Byte.to_N (map byte_of_N s) = s.
Proof.
  induction s as [|c s IH]; cbn [map ascii_text forallb]; [reflexivity|].
  intros H. apply andb_true_iff in H as [Hc Hs]. apply N.ltb_lt in Hc.
  rewrite to_N_byte_of_N_small by lia. f_equal. now apply IH.
Qed.

Lemma ascii_bytes (s : pystr) :
  ascii_text s = true ->
  forallb (fun x => Byte.to_N x <? 128) (map byte_of_N s) = true.
Proof.
  induction s as [|c s IH]; cbn [map ascii_text forallb]; [reflexivity|].
  intros H. apply andb_true_iff in H as [Hc Hs].
  rewrite to_N_byte_of_N_small by (apply N.ltb_lt in Hc; lia).
  now rewrite Hc, IH.
Qed.

(** Printable text is taken for UTF-8 by [json.detect_encoding]. *)
Lemma detect_encoding_printable (s : pystr) :
  printable_text s = true ->
  Json.detect_encoding (map byte_of_N s) = Json.UTF_8.
Proof.
  intros H. unfold Json.detect_encoding.
  rewrite to_N_of_ascii_bytes by (apply printable_ascii; exact H).
  cbv zeta.
  assert (Hhead : forall c t, printable_text (c :: t) = true ->
            (0 =? c) = false /\ (0xFF =? c) = false /\ (0xFE =? c) = false
            /\ (0xEF =? c) = false /\ (c =? 0) = false
            /\ printable_text t = true).
  { intros c t Hc. cbn [printable_text forallb] in Hc.
    apply andb_true_iff in Hc as [Hc Ht].
    apply andb_true_iff in Hc as [H1 H2]. apply N.leb_le in H1, H2.
    repeat split; try (apply N.eqb_neq; lia). exact Ht. }
  destruct s as [|c0 s]; [reflexivity|].
  destruct (Hhead _ _ H) as (E1 & E2 & E3 & E4 & E5 & H0).
  cbn [startswith]. rewrite E1, E2, E3, E4. cbn [andb orb].
  destruct s as [|c1 s]; [reflexivity|].
  destruct (Hhead _ _ H0) as (_ & _ & _ & _ & F5 & H1).
  rewrite E5, F5.
  destruct s as [|c2 [|c3 s]]; reflexivity.
Qed.

(** [json.loads] on the UTF-8 bytes of the text of [json.dumps]. *)
Lemma loads_dumps (v : value) :
  wf_value v = true ->
  Json.loads (map byte_of_N (Json.dumps v)) = Ok v.
Proof.
  intros Hwf. unfold Json.loads.
  rewrite detect_encoding_printable by apply encode_printable.
  rewrite decode_ascii by (apply ascii_bytes, encode_ascii).
  rewrite to_N_of_ascii_bytes by apply encode_ascii.
  cbn [bind]. now apply decode_dumps.
Qed.

Lemma read_frame (prefix text content : pybytes) :
  List.length prefix = 8%nat ->
  N.of_nat (List.length text) < 2 ^ 63 ->
  File.read 8 (prefix ++ text ++ content) = Ok (prefix, text ++ content)
  /\ File.read (N.of_nat (List.length text)) (text ++ content)
     = Ok (text, content).
Proof.
  intros H Hn. unfold File.read. apply N.ltb_lt in Hn. rewrite Hn.
  change (8 <? 2 ^ 63) with true. cbv iota.
  change (N.to_nat 8) with 8%nat.
  rewrite Nat2N.id, <- H.
  rewrite !firstn_app, !skipn_app, !Nat.sub_diag, !firstn_all, !skipn_all.
  cbn [firstn skipn app]. rewrite !List.app_nil_r. auto.
Qed.

(** C3.  For every header of the data model (strings of Unicode code points
    in which no high surrogate is directly followed by a low one,
    dictionaries with one entry per key, integers, booleans and [None])
    whose text has, as every Python string has, a length that fits a machine
    index, and for every body, the write path produces a file, and the read
    path reads that file back as the same header, entry for entry, and the
    same body, byte for byte. *)
Theorem decode_encode_round_trip (header : value) (body : pybytes) :
  wf_value header = true ->
  N.of_nat (List.length (Json.dumps header)) < 2 ^ 63 ->
  exists out,
    ExampleNoReqs.save header body = Ok out
    /\ ExampleNoReqs.load out = Ok (header, body)
    /\ ExampleReadOnly.load out = Ok header.
Proof.
  intros Hwf Hn.
  destruct (@save_succeeds header body) as [out Hs];
    [eapply N.lt_trans; [exact Hn | reflexivity]|].
  exists out. split; [exact Hs|].
  apply save_result in Hs as (prefix & Hp & ->).
  apply unpack_pack in Hp as [Hu Hl].
  rewrite <- (length_map byte_of_N) in Hn.
  destruct (@read_frame prefix (map byte_of_N (Json.dumps header)) body Hl Hn)
    as [R1 R2].
  rewrite length_map in R2.
  unfold ExampleNoReqs.load, ExampleReadOnly.load.
  rewrite R1. cbn [bind]. rewrite Hu. cbn [bind]. rewrite R2. cbn [bind].
  rewrite loads_dumps by exact Hwf.
  split; reflexivity.
Qed.

Lemma decode_encode_round_trip_witness :
  let header :=
    JObj [(lit "weight",
           JObj [(lit "dtype", JStr (lit "F32"));
                 (lit "shape", JArr [JInt 2; JInt 3]);
                 (lit "data_offsets", JArr [JInt 0; JInt 24])]);
          (lit "__metadata__",
           JObj [(lit "modelspec.title", JStr [233; 0x1F600; 10; 34]);
                 (lit "note", JStr [])])] in
  let body := [x41; x42; x43; x44] in
  exists out,
    ExampleNoReqs.save header body = Ok out
    /\ ExampleNoReqs.load out = Ok (header, body)
    /\ ExampleReadOnly.load out = Ok header.
Proof.
  intros header body.
  apply (@decode_encode_round_trip header body).
  - vm_compute. reflexivity.
  - vm_compute. reflexivity.
Defined.

(** ** The counter of the decoder never runs out *)

Lemma scanstring_shorter (n : nat) (s t rest : pystr) :
  (List.length s <= n)%nat ->
  Json.scanstring s = Ok (t, rest) ->
  (List.length rest < List.length s)%nat.
Proof.
  revert s t rest; induction n as [|n IH]; intros s t rest Hn H;
    (destruct s as [|c r]; [discriminate H|]); [cbn in Hn; lia|].
  cbn [Json.scanstring] in H. unfold bind in H. cbv zeta in H.
  break_result H;
    repeat match goal with
           | E : Json.scanstring ?x = Ok (_, _) |- _ =>
               apply IH in E; [|cbn [List.length] in *; lia]
           end;
    injection H as _ <-; cbn [List.length] in *; lia.
Qed.

Lemma skip_ws_length (s : pystr) :
  (List.length (Json.skip_ws s) <= List.length s)%nat.
Proof.
  induction s as [|c s IH]; cbn [Json.skip_ws List.length]; [lia|].
  destruct (Json.is_ws c); cbn [List.length]; lia.
Qed.

Lemma take_digits_length (s : pystr) :
  (List.length (snd (Json.take_digits s)) <= List.length s)%nat.
Proof.
  induction s as [|c s IH]; cbn [Json.take_digits List.length snd]; [lia|].
  destruct (Json.is_digit c); [|cbn [snd List.length]; lia].
  destruct (Json.take_digits s) as [u rest]. cbn [snd] in *. lia.
Qed.

Lemma match_digits_shorter (s rest : pystr) (u : Decimal.uint) :
  Json.match_digits s = Some (u, rest) ->
  (List.length rest < List.length s)%nat.
Proof.
  destruct s as [|c s]; [discriminate|]. cbn [Json.match_digits].
  destruct (c =? 48); [intros [= _ <-]; cbn; lia|].
  destruct (Json.is_digit c) eqn:Hd; [|discriminate].
  cbn [Json.take_digits]. rewrite Hd.
  pose proof (take_digits_length s) as Hl.
  destruct (Json.take_digits s) as [u' rest']. cbn [snd] in Hl.
  intros [= _ <-]. cbn [List.length]. lia.
Qed.

Lemma match_number_shorter (s rest : pystr) (v : value) :
  Json.match_number s = Some (Ok (v, rest)) ->
  (List.length rest < List.length s)%nat.
Proof.
  destruct s as [|c s]; [discriminate|]. unfold Json.match_number.
  destruct (c =? Json.MINUS).
  - destruct (Json.match_digits s) as [[u r]|] eqn:E; [|discriminate].
    apply match_digits_shorter in E.
    destruct (Json.has_frac r || Json.has_exp r); [discriminate|].
    intros [= _ <-]. cbn [List.length]. lia.
  - destruct (Json.match_digits (c :: s)) as [[u r]|] eqn:E; [|discriminate].
    apply match_digits_shorter in E.
    destruct (Json.has_frac r || Json.has_exp r); [discriminate|].
    intros [= _ <-]. exact E.
Qed.

Lemma startswith_skipn (p s : pystr) :
  startswith p s = true ->
  (List.length (skipn (List.length p) s) + List.length p = List.length s)%nat.
Proof.
  revert s; induction p as [|x p IH]; intros s H; [cbn; lia|].
  destruct s as [|y s]; [discriminate|].
  cbn [startswith] in H. apply andb_true_iff in H as [_ H].
  cbn [List.length skipn]. rewrite <- (IH s H). lia.
Qed.

(** Whatever the three scanners return, they have consumed some text. *)
Lemma scanners_shorter (fuel : nat) :
  (forall s v rest,
      Json.scan_once fuel s = Ok (v, rest) ->
      (List.length rest < List.length s)%nat)
  /\ (forall s pairs rest,
         Json.object_loop fuel s = Ok (pairs, rest) ->
         (List.length rest < List.length s)%nat)
  /\ (forall s l rest,
         Json.array_loop fuel s = Ok (l, rest) ->
         (List.length rest < List.length s)%nat).
Proof.
  induction fuel as [|f (IHs & IHo & IHa)];
    [repeat split; intros; discriminate|].
  split; [|split].
  - intros s v rest H. destruct s as [|c r]; [discriminate H|].
    cbn [Json.scan_once] in H.
    destruct (c =? Json.QUOTE).
    { unfold bind in H.
      destruct (Json.scanstring r) as [[t r']|] eqn:E; [|discriminate H].
      apply (@scanstring_shorter (List.length r)) in E; [|lia].
      injection H as _ <-. cbn [List.length]. lia. }
    destruct (c =? Json.LBRACE).
    { pose proof (skip_ws_length r) as Hw.
      destruct (Json.skip_ws r) as [|c1 r2]; [discriminate H|].
      destruct (c1 =? Json.RBRACE);
        [injection H as _ <-; cbn [List.length] in *; lia|].
      destruct (c1 =? Json.QUOTE); [|discriminate H].
      unfold bind in H.
      destruct (Json.object_loop f r2) as [[p r']|] eqn:E; [|discriminate H].
      apply IHo in E. injection H as _ <-. cbn [List.length] in *. lia. }
    destruct (c =? Json.LBRACKET).
    { pose proof (skip_ws_length r) as Hw.
      destruct (Json.skip_ws r) as [|c1 r2]; [discriminate H|].
      destruct (c1 =? Json.RBRACKET);
        [injection H as _ <-; cbn [List.length] in *; lia|].
      unfold bind in H.
      destruct (Json.array_loop f (c1 :: r2)) as [[l r']|] eqn:E;
        [|discriminate H].
      apply IHa in E. injection H as _ <-. cbn [List.length] in *. lia. }
    destruct (startswith (lit "null") (c :: r)) eqn:E1.
    { apply startswith_skipn in E1.
      change (List.length (lit "null")) with 4%nat in E1.
      replace rest with (skipn 4 (c :: r)) by (now injection H). lia. }
    destruct (startswith (lit "true") (c :: r)) eqn:E2.
    { apply startswith_skipn in E2.
      change (List.length (lit "true")) with 4%nat in E2.
      replace rest with (skipn 4 (c :: r)) by (now injection H). lia. }
    destruct (startswith (lit "false") (c :: r)) eqn:E3.
    { apply startswith_skipn in E3.
      change (List.length (lit "false")) with 5%nat in E3.
      replace rest with (skipn 5 (c :: r)) by (now injection H). lia. }
    destruct (Json.match_number (c :: r)) as [m|] eqn:E4.
    { subst m. now apply match_number_shorter in E4. }
    destruct (_ || _); discriminate H.
  - intros s pairs rest H. rewrite object_loop_eq in H. unfold bind in H.
    destruct (Json.scanstring s) as [[key r]|] eqn:E; [|discriminate H].
    apply (@scanstring_shorter (List.length s)) in E; [|lia].
    pose proof (skip_ws_length r) as Hw.
    destruct (Json.skip_ws r) as [|c r1]; [discriminate H|].
    destruct (c =? Json.COLON); [|discriminate H].
    pose proof (skip_ws_length r1) as Hw1.
    destruct (Json.scan_once f (Json.skip_ws r1)) as [[v r2]|] eqn:E2;
      [|discriminate H].
    apply IHs in E2.
    pose proof (skip_ws_length r2) as Hw2.
    destruct (Json.skip_ws r2) as [|c2 r3]; [discriminate H|].
    destruct (c2 =? Json.RBRACE);
      [injection H as _ <-; cbn [List.length] in *; lia|].
    destruct (c2 =? Json.COMMA); [|discriminate H].
    pose proof (skip_ws_length r3) as Hw3.
    destruct (Json.skip_ws r3) as [|c3 r4]; [discriminate H|].
    destruct (c3 =? Json.QUOTE); [|discriminate H].
    destruct (Json.object_loop f r4) as [[p r']|] eqn:E4; [|discriminate H].
    apply IHo in E4. injection H as _ <-. cbn [List.length] in *. lia.
  - intros s l rest H. rewrite array_loop_eq in H. unfold bind in H.
    destruct (Json.scan_once f s) as [[v r]|] eqn:E; [|discriminate H].
    apply IHs in E.
    pose proof (skip_ws_length r) as Hw.
    destruct (Json.skip_ws r) as [|c r1]; [discriminate H|].
    destruct (c =? Json.RBRACKET);
      [injection H as _ <-; cbn [List.length] in *; lia|].
    destruct (c =? Json.COMMA); [|discriminate H].
    pose proof (skip_ws_length r1) as Hw1.
    destruct (Json.array_loop f (Json.skip_ws r1)) as [[l' r']|] eqn:E1;
      [|discriminate H].
    apply IHa in E1. injection H as _ <-. cbn [List.length] in *. lia.
Qed.

Lemma decode_hex4_error (a b c d : N) (e : exn) :
  Json.decode_hex4 a b c d = Raise e -> e = JSONDecodeError.
Proof.
  unfold Json.decode_hex4.
  destruct (Json.hexval a), (Json.hexval b), (Json.hexval c), (Json.hexval d);
    intros [= <-]; reflexivity.
Qed.

Lemma unescape_error (c : N) (e : exn) :
  Json.unescape c = Raise e -> e = JSONDecodeError.
Proof.
  unfold Json.unescape.
  repeat match goal with
         | |- context [if ?b then _ else _] => destruct b; [discriminate|]
         end.
  intros [= <-]; reflexivity.
Qed.

(** [scanstring] raises nothing but [JSONDecodeError]. *)
Lemma scanstring_error (n : nat) (s : pystr) (e : exn) :
  (List.length s <= n)%nat ->
  Json.scanstring s = Raise e -> e = JSONDecodeError.
Proof.
  revert s e; induction n as [|n IH]; intros s e Hn H;
    (destruct s as [|c r]; [now injection H|]); [cbn in Hn; lia|].
  cbn [Json.scanstring] in H.
  unfold bind in H. cbv zeta in H.
  repeat match type of H with
         | Ok _ = Raise _ => discriminate H
         | Raise JSONDecodeError = Raise _ => now injection H
         | context [match ?x with _ => _ end] => destruct x eqn:?
         end;
    subst;
    match goal with
    | E : Json.scanstring _ = Raise ?e0, H : Raise ?e0 = Raise _ |- _ =>
        injection H as <-; apply IH in E;
        [exact E | cbn [List.length] in *; lia]
    | E : Json.decode_hex4 _ _ _ _ = Raise ?e0, H : Raise ?e0 = Raise _ |- _ =>
        injection H as <-; now apply decode_hex4_error in E
    | E : Json.unescape _ = Raise ?e0, H : Raise ?e0 = Raise _ |- _ =>
        injection H as <-; now apply unescape_error in E
    end.
Qed.

Lemma match_number_error (s : pystr) (e : exn) :
  Json.match_number s = Some (Raise e) -> e = NotEmbedded.
Proof.
  destruct s as [|c s]; [discriminate|]. unfold Json.match_number.
  destruct (c =? Json.MINUS).
  - destruct (Json.match_digits s) as [[u r]|]; [|discriminate].
    destruct (_ || _); [intros [= <-]; reflexivity | discriminate].
  - destruct (Json.match_digits (c :: s)) as [[u r]|]; [|discriminate].
    destruct (_ || _); [intros [= <-]; reflexivity | discriminate].
Qed.

(** With a counter above twice the length of the text, none of the three
    scanners stops for want of it. *)
Lemma scanners_counter (fuel : nat) :
  (forall s, (2 * List.length s < fuel)%nat ->
             Json.scan_once fuel s <> Raise RecursionError)
  /\ (forall s, (2 * List.length s + 1 < fuel)%nat ->
                Json.object_loop fuel s <> Raise RecursionError)
  /\ (forall s, (2 * List.length s + 1 < fuel)%nat ->
                Json.array_loop fuel s <> Raise RecursionError).
Proof.
  induction fuel as [|f (IHs & IHo & IHa)];
    [repeat split; intros; lia|].
  split; [|split].
  - intros s Hf H. destruct s as [|c r]; [discriminate H|].
    cbn [List.length] in Hf. cbn [Json.scan_once] in H.
    destruct (c =? Json.QUOTE).
    { unfold bind in H.
      destruct (Json.scanstring r) as [[t r']|e] eqn:E; [discriminate H|].
      apply (@scanstring_error (List.length r)) in E; [|lia].
      subst e. discriminate H. }
    destruct (c =? Json.LBRACE).
    { pose proof (skip_ws_length r) as Hw.
      destruct (Json.skip_ws r) as [|c1 r2]; [discriminate H|].
      destruct (c1 =? Json.RBRACE); [discriminate H|].
      destruct (c1 =? Json.QUOTE); [|discriminate H].
      unfold bind in H. cbn [List.length] in Hw.
      destruct (Json.object_loop f r2) as [[p r']|e] eqn:E; [discriminate H|].
      injection H as ->. apply IHo in E; [exact E | lia]. }
    destruct (c =? Json.LBRACKET).
    { pose proof (skip_ws_length r) as Hw.
      destruct (Json.skip_ws r) as [|c1 r2]; [discriminate H|].
      destruct (c1 =? Json.RBRACKET); [discriminate H|].
      unfold bind in H.
      destruct (Json.array_loop f (c1 :: r2)) as [[l r']|e] eqn:E;
        [discriminate H|].
      injection H as ->. apply IHa in E; [exact E | lia]. }
    destruct (startswith (lit "null") (c :: r)); [discriminate H|].
    destruct (startswith (lit "true") (c :: r)); [discriminate H|].
    destruct (startswith (lit "false") (c :: r)); [discriminate H|].
    destruct (Json.match_number (c :: r)) as [m|] eqn:E4.
    { subst m. apply match_number_error in E4. discriminate E4. }
    destruct (_ || _); discriminate H.
  - intros s Hf H. rewrite object_loop_eq in H. unfold bind in H.
    destruct (Json.scanstring s) as [[key r]|e] eqn:E.
    2:{ apply (@scanstring_error (List.length s)) in E; [|lia].
        subst e. discriminate H. }
    apply (@scanstring_shorter (List.length s)) in E; [|lia].
    pose proof (skip_ws_length r) as Hw.
    destruct (Json.skip_ws r) as [|c r1]; [discriminate H|].
    destruct (c =? Json.COLON); [|discriminate H].
    pose proof (skip_ws_length r1) as Hw1. cbn [List.length] in Hw.
    destruct (Json.scan_once f (Json.skip_ws r1)) as [[v r2]|e] eqn:E2.
    2:{ injection H as ->. apply IHs in E2; [exact E2 | lia]. }
    apply (proj1 (scanners_shorter f)) in E2.
    pose proof (skip_ws_length r2) as Hw2.
    destruct (Json.skip_ws r2) as [|c2 r3]; [discriminate H|].
    destruct (c2 =? Json.RBRACE); [discriminate H|].
    destruct (c2 =? Json.COMMA); [|discriminate H].
    pose proof (skip_ws_length r3) as Hw3.
    destruct (Json.skip_ws r3) as [|c3 r4]; [discriminate H|].
    destruct (c3 =? Json.QUOTE); [|discriminate H].
    cbn [List.length] in *.
    destruct (Json.object_loop f r4) as [[p r']|e] eqn:E4; [discriminate H|].
    injection H as ->. apply IHo in E4; [exact E4 | lia].
  - intros s Hf H. rewrite array_loop_eq in H. unfold bind in H.
    destruct (Json.scan_once f s) as [[v r]|e] eqn:E.
    2:{ injection H as ->. apply IHs in E; [exact E | lia]. }
    apply (proj1 (scanners_shorter f)) in E.
    pose proof (skip_ws_length r) as Hw.
    destruct (Json.skip_ws r) as [|c r1]; [discriminate H|].
    destruct (c =? Json.RBRACKET); [discriminate H|].
    destruct (c =? Json.COMMA); [|discriminate H].
    pose proof (skip_ws_length r1) as Hw1. cbn [List.length] in *.
    destruct (Json.array_loop f (Json.skip_ws r1)) as [[l' r']|e] eqn:E1;
      [discriminate H|].
    injection H as ->. apply IHa in E1; [exact E1 | lia].
Qed.

(** [decode] never stops for want of its counter, on any text. *)
Lemma decode_counter_suffices (s : pystr) :
  Json.decode s <> Raise RecursionError.
Proof.
  unfold Json.decode, bind. intros H.
  pose proof (skip_ws_length s) as Hw.
  destruct (Json.scan_once _ (Json.skip_ws s)) as [[obj rest]|e] eqn:E.
  - destruct (Json.skip_ws rest); discriminate H.
  - injection H as ->.
    apply (proj1 (scanners_counter (2 * List.length s + 2))) in E;
      [exact E | lia].
Qed.

(** * Further properties of the scripts *)

(** ** The header around the metadata map *)

Lemma apply_metadata_result (header_in header_out : value)
  (orig entries : dict) :
  ExampleNoReqs.apply_metadata header_in orig entries = Ok header_out ->
  exists d,
    header_in = JObj d
    /\ header_out
       = JObj (Dict.set (lit "__metadata__")
                 (JObj (Dict.update orig entries)) d).
Proof.
  unfold ExampleNoReqs.apply_metadata, Py.setitem.
  destruct header_in; try discriminate. intros [= <-]. eauto.
Qed.

Lemma filter_set_other (k : pystr) (v : value) (d : dict) :
  filter (fun kv => negb (str_eqb (fst kv) k)) (Dict.set k v d)
  = filter (fun kv => negb (str_eqb (fst kv) k)) d.
Proof.
  induction d as [|[k' v'] d IH]; cbn [Dict.set filter fst].
  - now rewrite str_eqb_refl.
  - rewrite (str_eqb_sym k' k).
    destruct (str_eqb k k') eqn:E; cbn [filter fst negb];
      rewrite (str_eqb_sym k' k), E; cbn [negb]; congruence.
Qed.

Lemma keys_set (k : pystr) (v : value) (d : dict) :
  map fst (Dict.set k v d)
  = if Dict.mem k d then map fst d else map fst d ++ [k].
Proof.
  unfold Dict.mem.
  induction d as [|[k' v'] d IH]; cbn [Dict.set Dict.get map fst app].
  - reflexivity.
  - destruct (str_eqb k k') eqn:E; cbn [map fst]; [reflexivity|].
    rewrite IH. destruct (Dict.get k d); reflexivity.
Qed.

(** X1.  Whenever [process] of [example_no_reqs.py] gets as far as the
    header it is about to save, the input header is a JSON object and the
    new header is the same object but for its [__metadata__] entry: every
    other entry is there with its value, in the same order, and the
    metadata map keeps its place, or goes last when the input has none. *)
Theorem other_header_entries_kept (metadata : dict) (image_path : pystr)
  (img : Image) (file_in : pybytes) (header_out : value)
  (content : pybytes) :
  snd (ExampleNoReqs.prepare metadata image_path img file_in)
  = Ok (header_out, content) ->
  exists d_in d_out m_out,
    ExampleNoReqs.load file_in = Ok (JObj d_in, content)
    /\ header_out = JObj d_out
    /\ other_entries d_out = other_entries d_in
    /\ (forall k, k <> lit "__metadata__" ->
                  Dict.get k d_out = Dict.get k d_in)
    /\ Dict.get (lit "__metadata__") d_out = Some (JObj m_out)
    /\ map fst d_out
       = if Dict.mem (lit "__metadata__") d_in then map fst d_in
         else map fst d_in ++ [lit "__metadata__"].
Proof.
  intros H.
  apply prepare_result in H
    as (header_in & entries & orig & Hl & _ & _ & Ha).
  apply apply_metadata_result in Ha as (d & -> & ->).
  exists d. eexists. eexists.
  split; [exact Hl|]. split; [reflexivity|].
  split; [apply filter_set_other|].
  split; [intros k Hk; now apply get_set_other|].
  split; [apply get_set_same | apply keys_set].
Qed.

Lemma other_header_entries_kept_witness :
  let d := [(lit "weight", JObj [(lit "dtype", JStr (lit "F32"))]);
            (lit "__metadata__", JObj [(lit "format", JStr (lit "pt"))]);
            (lit "bias", JObj [(lit "dtype", JStr (lit "F16"))])] in
  let file_in := match ExampleNoReqs.save (JObj d) [x41; x42] with
                 | Ok b => b
                 | Raise _ => []
                 end in
  exists d_out,
    snd (ExampleNoReqs.prepare ExampleNoReqs.metadata [] {| png := [] |}
           file_in)
    = Ok (JObj d_out, [x41; x42])
    /\ other_entries d_out = other_entries d
    /\ map fst d_out = map fst d.
Proof.
  intros d file_in.
  destruct (snd (ExampleNoReqs.prepare ExampleNoReqs.metadata []
                   {| png := [] |} file_in))
    as [[header_out content]|e] eqn:E.
  - destruct (@other_header_entries_kept ExampleNoReqs.metadata []
                {| png := [] |} file_in header_out content E)
      as (d_in & d_out & m_out & Hl & -> & Ho & _ & _ & Hk).
    assert (Hc : ExampleNoReqs.load file_in = Ok (JObj d, [x41; x42]))
      by (vm_compute; reflexivity).
    rewrite Hc in Hl. injection Hl as <- <-.
    exists d_out. split; [reflexivity|]. split; [exact Ho|].
    rewrite Hk. reflexivity.
  - vm_compute in E. discriminate E.
Defined.

(** ** The merged map, entry by entry *)

Lemma filter_foreign_keys (m : dict) :
  forallb (fun kv => foreign (fst kv)) (filter (fun kv => foreign (fst kv)) m)
  = true.
Proof.
  apply forallb_forall. intros kv Hin. apply filter_In in Hin. tauto.
Qed.

Lemma no_reserved_among_foreign (k : pystr) (acc : dict) :
  reserved k = true ->
  forallb (fun kv => foreign (fst kv)) acc = true ->
  existsb (str_eqb k) (map fst acc) = false.
Proof.
  intros Hk Ha. induction acc as [|[k' v'] acc IH];
    cbn [map fst existsb forallb] in *; [reflexivity|].
  apply andb_true_iff in Ha as [H1 H2]. rewrite IH by exact H2.
  rewrite orb_false_r.
  destruct (str_eqb k k') eqn:E; [|reflexivity].
  apply str_eqb_eq in E; subst k'.
  rewrite foreign_reserved, Hk in H1. discriminate.
Qed.

(** New reserved entries go after the foreign ones, in their own order. *)
Lemma update_appends (acc new_entries : dict) :
  distinct (map fst new_entries) = true ->
  forallb reserved (map fst new_entries) = true ->
  forallb (fun kv => foreign (fst kv)) acc = true ->
  Dict.update acc new_entries = acc ++ new_entries.
Proof.
  intros Hd Hr Ha. apply update_distinct; [exact Hd|].
  rewrite forallb_forall in Hr |- *. intros k Hin.
  rewrite no_reserved_among_foreign; auto.
Qed.

(** X2.  The metadata map that the two writing scripts build lists first
    the foreign entries of the input, in the order they have there, and
    then the new reserved entries in the caller's order, the thumbnail and
    (in [example_no_reqs.py]) the digest included. *)
Theorem merged_entries_in_order (metadata : dict) (image_path : pystr)
  (img : Image) :
  distinct (map fst metadata) = true ->
  forallb reserved (map fst metadata) = true ->
  (forall (file_in : pybytes) (header_out : value) (content : pybytes),
      snd (ExampleNoReqs.prepare metadata image_path img file_in)
      = Ok (header_out, content) ->
      exists header_in entries m_in,
        ExampleNoReqs.load file_in = Ok (header_in, content)
        /\ snd (update_thumbnail metadata image_path img) = Ok entries
        /\ metadata_map header_in = Some m_in
        /\ metadata_map header_out
           = Some (filter (fun kv => foreign (fst kv)) m_in
                   ++ Dict.set (lit "modelspec.hash_sha256")
                        (JStr (ExampleNoReqs.hash_sha256 content)) entries))
  /\
  (forall (m_in m_out : dict),
      snd (ExampleHfSafetensors.process metadata image_path img (JObj m_in))
      = Ok m_out ->
      exists entries,
        snd (update_thumbnail metadata image_path img) = Ok entries
        /\ m_out = filter (fun kv => foreign (fst kv)) m_in ++ entries).
Proof.
  intros Hd Hr.
  destruct (update_thumbnail_entries metadata image_path img Hd Hr)
    as (entries & He & Hde & Hre).
  split.
  - intros file_in header_out content H.
    apply prepare_result in H
      as (header_in & entries' & orig & Hl & He' & Hm & Ha).
    rewrite He in He'. injection He' as <-.
    apply metadata_map_applied in Ha as [Hout [d ->]].
    apply metadata_map_read in Hm as (m_in & Hin & ->).
    exists (JObj d), entries, m_in.
    repeat split; auto.
    rewrite Hout. f_equal. apply update_appends.
    + now apply distinct_set.
    + apply reserved_set; auto.
    + apply filter_foreign_keys.
  - intros m_in m_out H.
    unfold ExampleHfSafetensors.process in H.
    rewrite snd_iobind, He in H.
    unfold print_str in H. rewrite snd_iobind in H. cbn [print snd] in H.
    rewrite snd_iobind in H. cbn [print snd] in H.
    rewrite snd_iobind in H. cbn [Py.items lift snd] in H.
    rewrite snd_iobind in H.
    destruct (snd (drop_modelspec m_in m_in)) as [orig|e] eqn:Hdrop;
      [|discriminate].
    apply (drop_modelspec_result m_in [] eq_refl) in Hdrop. simpl in Hdrop.
    subst orig.
    rewrite snd_iobind in H. cbn [print snd ret] in H.
    injection H as <-.
    exists entries. split; [exact He|].
    apply update_appends; auto. apply filter_foreign_keys.
Qed.

Lemma merged_entries_in_order_witness :
  let m_in := [(lit "modelspec.title", JStr (lit "old"));
               (lit "format", JStr (lit "pt"));
               (lit "modelspec.stale", JStr (lit "x"));
               (lit "note", JInt 7)] in
  exists m_out,
    snd (ExampleHfSafetensors.process ExampleHfSafetensors.metadata []
           {| png := [] |} (JObj m_in)) = Ok m_out
    /\ m_out = [(lit "format", JStr (lit "pt")); (lit "note", JInt 7)]
               ++ ExampleHfSafetensors.metadata.
Proof.
  intros m_in.
  destruct (merged_entries_in_order ExampleHfSafetensors.metadata []
              {| png := [] |} eq_refl eq_refl) as [_ Hhf].
  destruct (snd (ExampleHfSafetensors.process ExampleHfSafetensors.metadata
                   [] {| png := [] |} (JObj m_in))) as [m_out|e] eqn:E.
  - destruct (Hhf _ _ E) as (entries & He & ->).
    vm_compute in He. injection He as <-.
    eexists. split; reflexivity.
  - vm_compute in E. discriminate E.
Defined.

(** ** Inputs without a metadata map *)

Lemma update_empty (entries : dict) :
  distinct (map fst entries) = true -> Dict.update [] entries = entries.
Proof. apply of_pairs_distinct. Qed.

Lemma mem_get_none (k : pystr) (d : dict) :
  Dict.get k d = None -> existsb (str_eqb k) (map fst d) = false.
Proof.
  induction d as [|[k' v'] d IH]; cbn [Dict.get map fst existsb];
    [reflexivity|].
  destruct (str_eqb k k'); [discriminate|]. exact IH.
Qed.

(** X3.  A header without [__metadata__] is no error for
    [example_no_reqs.py]: it says so, starts from an empty map, and puts a
    new [__metadata__] entry last in the header, which holds exactly the
    caller's entries with the thumbnail and the digest. *)
Theorem missing_metadata_starts_empty (metadata : dict) (image_path : pystr)
  (img : Image) (file_in : pybytes) (d : dict) (content : pybytes) :
  distinct (map fst metadata) = true ->
  ExampleNoReqs.load file_in = Ok (JObj d, content) ->
  Dict.get (lit "__metadata__") d = None ->
  exists entries,
    snd (update_thumbnail metadata image_path img) = Ok entries
    /\ ExampleNoReqs.prepare metadata image_path img file_in
       = (fst (update_thumbnail metadata image_path img)
          ++ [text_line "Loading model...";
              text_line "File does not have metadata"],
          Ok (JObj (d ++ [(lit "__metadata__",
                           JObj (Dict.set (lit "modelspec.hash_sha256")
                                   (JStr (ExampleNoReqs.hash_sha256 content))
                                   entries))]),
              content)).
Proof.
  intros Hd Hl Hg.
  destruct (update_thumbnail_cases metadata image_path img) as [E | [v E]].
  - exists metadata. split; [exact E|].
    rewrite (prepare_loaded metadata image_path img file_in E Hl
               (read_metadata_absent _ _ Hg)).
    rewrite update_empty by now apply distinct_set.
    rewrite set_fresh by now apply mem_get_none. reflexivity.
  - eexists. split; [exact E|].
    rewrite (prepare_loaded metadata image_path img file_in E Hl
               (read_metadata_absent _ _ Hg)).
    rewrite update_empty by (apply distinct_set; now apply distinct_set).
    rewrite set_fresh by now apply mem_get_none. reflexivity.
Qed.

Lemma missing_metadata_starts_empty_witness :
  let d := [(lit "weight", JObj [(lit "dtype", JStr (lit "F32"))])] in
  let file_in := match ExampleNoReqs.save (JObj d) [x41] with
                 | Ok b => b
                 | Raise _ => []
                 end in
  fst (ExampleNoReqs.prepare ExampleNoReqs.metadata [] {| png := [] |}
         file_in)
  = [text_line "Loading model..."; text_line "File does not have metadata"].
Proof.
  intros d file_in.
  assert (Hc : ExampleNoReqs.load file_in = Ok (JObj d, [x41]))
    by (vm_compute; reflexivity).
  destruct (@missing_metadata_starts_empty ExampleNoReqs.metadata []
              {| png := [] |} file_in d [x41] eq_refl Hc eq_refl)
    as (entries & _ & ->).
  reflexivity.
Defined.

(** X4.  [example_hf_safetensors.py] has no such branch: when the input
    holds no metadata, so that [f.metadata()] is [None], the call of
    [items] raises after the first messages, and nothing is saved. *)
Theorem hf_fails_without_metadata (metadata : dict) (image_path : pystr)
  (img : Image) :
  ExampleHfSafetensors.process metadata image_path img JNull
  = (fst (update_thumbnail metadata image_path img)
     ++ [text_line "Loading..."; text_line "Reading existing keys..."],
     Raise ObjectError).
Proof.
  unfold ExampleHfSafetensors.process.
  destruct (update_thumbnail_ok metadata image_path img) as [entries Hu].
  unfold iobind at 1. rewrite Hu. reflexivity.
Qed.

(** A value under [__metadata__] that is no JSON object stops the reading
    of the metadata, whatever it is. *)
Lemma read_metadata_not_object (d : dict) (v : value) (actual : pystr) :
  Dict.get (lit "__metadata__") d = Some v ->
  (forall m, v <> JObj m) ->
  snd (ExampleNoReqs.read_metadata (JObj d) actual) = Raise ObjectError.
Proof.
  intros Hg Hv. unfold ExampleNoReqs.read_metadata.
  cbn [Py.contains Py.getitem]. unfold Dict.mem. rewrite Hg, !iobind_ok.
  cbn [negb]. rewrite snd_iobind.
  unfold ExampleNoReqs.check_hash. rewrite snd_iobind.
  destruct v as [| | |s|l|m]; cbn [Py.contains lift snd]; auto.
  - destruct (substring_in _ s); rewrite snd_iobind; reflexivity.
  - destruct (existsb _ l); rewrite snd_iobind; reflexivity.
  - now destruct (Hv m).
Qed.

(** X5.  When the header holds under [__metadata__] anything but a JSON
    object, [example_no_reqs.py] raises before it saves, so that no output
    is written, and [example_read_only.py] raises right after its heading
    line, so that no entry is shown. *)
Theorem metadata_not_object_fails (metadata : dict) (image_path : pystr)
  (img : Image) (file_in : pybytes) (d : dict) (v : value)
  (content : pybytes) :
  ExampleNoReqs.load file_in = Ok (JObj d, content) ->
  Dict.get (lit "__metadata__") d = Some v ->
  (forall m, v <> JObj m) ->
  snd (ExampleNoReqs.process metadata image_path img file_in)
  = Raise ObjectError
  /\ ExampleReadOnly.process file_in
     = ([text_line "Loading model...";
         text_line "File has metadata! Content:"],
        Raise ObjectError).
Proof.
  intros Hl Hg Hv. split.
  - rewrite process_snd. unfold ExampleNoReqs.prepare.
    rewrite snd_iobind.
    destruct (update_thumbnail_ok metadata image_path img) as [entries ->].
    unfold print_str. rewrite snd_iobind. cbn [print snd].
    rewrite snd_iobind, Hl. cbn [lift snd].
    rewrite snd_iobind, (@read_metadata_not_object d v _ Hg Hv). reflexivity.
  - assert (Hr : ExampleReadOnly.load file_in = Ok (JObj d)).
    { revert Hl. unfold ExampleNoReqs.load, ExampleReadOnly.load.
      destruct (File.read 8 file_in) as [[prefix rest]|e]; cbn [bind];
        [|discriminate].
      destruct (Struct.unpack_Q prefix) as [n|e]; cbn [bind];
        [|discriminate].
      destruct (File.read n rest) as [[text rest']|e]; cbn [bind];
        [|discriminate].
      destruct (Json.loads text) as [h|e]; cbn [bind]; [|discriminate].
      cbn [File.read_all]. intros [= -> _]. reflexivity. }
    unfold ExampleReadOnly.process, print_str.
    rewrite iobind_print, Hr, iobind_ok.
    cbn [Py.contains Py.getitem]. unfold Dict.mem. rewrite Hg, !iobind_ok.
    cbn [negb]. rewrite iobind_print.
    destruct v as [| | |s|l|m]; try reflexivity.
    now destruct (Hv m).
Qed.

Lemma metadata_not_object_fails_witness :
  let d := [(lit "__metadata__", JStr (lit "modelspec.hash_sha256"))] in
  let file_in := match ExampleNoReqs.save (JObj d) [x41] with
                 | Ok b => b
                 | Raise _ => []
                 end in
  snd (ExampleNoReqs.process ExampleNoReqs.metadata [] {| png := [] |}
         file_in)
  = Raise ObjectError
  /\ ExampleReadOnly.process file_in
     = ([text_line "Loading model...";
         text_line "File has metadata! Content:"],
        Raise ObjectError).
Proof.
  intros d file_in.
  apply (@metadata_not_object_fails ExampleNoReqs.metadata []
           {| png := [] |} file_in d (JStr (lit "modelspec.hash_sha256"))
           [x41]).
  - vm_compute. reflexivity.
  - reflexivity.
  - discriminate.
Defined.

(** ** The two readers *)

(** The reader of [example_read_only.py] returns the header that the one of
    [example_no_reqs.py] returns, and fails where it fails. *)
Lemma read_only_load (file_in : pybytes) :
  ExampleReadOnly.load file_in
  = (loaded <- ExampleNoReqs.load file_in ;; Ok (fst loaded)).
Proof.
  unfold ExampleNoReqs.load, ExampleReadOnly.load.
  destruct (File.read 8 file_in) as [[prefix rest]|e]; cbn [bind]; auto.
  destruct (Struct.unpack_Q prefix) as [n|e]; cbn [bind]; auto.
  destruct (File.read n rest) as [[text rest']|e]; cbn [bind]; auto.
  destruct (Json.loads text) as [h|e]; cbn [bind]; auto.
Qed.

Lemma read_ok (n : N) (f a b : pybytes) :
  File.read n f = Ok (a, b) ->
  a = firstn (N.to_nat n) f /\ b = skipn (N.to_nat n) f /\ n < 2 ^ 63.
Proof.
  unfold File.read. destruct (n <? 2 ^ 63) eqn:E; [|discriminate].
  intros [= <- <-]. apply N.ltb_lt in E. auto.
Qed.

(** X6.  The reader of [example_no_reqs.py] loses no byte and reads none
    twice: the file is its first eight bytes, then the header text, then the
    content, in this order; the text is what [json.loads] turned into the
    header, it is no longer than the prefix declares, and exactly that long
    whenever any content follows.  The reader of [example_read_only.py]
    returns the same header. *)
Theorem load_splits_the_file (file_in : pybytes) (header : value)
  (content : pybytes) :
  ExampleNoReqs.load file_in = Ok (header, content) ->
  exists (head_len : N) (text : pybytes),
    file_in = firstn 8 file_in ++ text ++ content
    /\ List.length (firstn 8 file_in) = 8%nat
    /\ Struct.unpack_Q (firstn 8 file_in) = Ok head_len
    /\ N.of_nat (List.length text) <= head_len
    /\ (content <> [] -> N.of_nat (List.length text) = head_len)
    /\ Json.loads text = Ok header
    /\ ExampleReadOnly.load file_in = Ok header.
Proof.
  intros H. pose proof (read_only_load file_in) as Hr.
  rewrite H in Hr. cbn [bind fst] in Hr.
  unfold ExampleNoReqs.load in H.
  destruct (File.read 8 file_in) as [[prefix rest]|e] eqn:R1; cbn [bind] in H;
    [|discriminate].
  destruct (Struct.unpack_Q prefix) as [n|e] eqn:U; cbn [bind] in H;
    [|discriminate].
  destruct (File.read n rest) as [[text rest']|e] eqn:R2; cbn [bind] in H;
    [|discriminate].
  destruct (Json.loads text) as [h|e] eqn:L; cbn [bind] in H; [|discriminate].
  cbn [File.read_all] in H. injection H as -> ->.
  apply read_ok in R1 as (-> & -> & _).
  apply read_ok in R2 as (-> & -> & Hn).
  change (N.to_nat 8) with 8%nat in *.
  exists n, (firstn (N.to_nat n) (skipn 8 file_in)).
  assert (H8 : List.length (firstn 8 file_in) = 8%nat).
  { unfold Struct.unpack_Q in U.
    destruct (Nat.eqb_spec (List.length (firstn 8 file_in)) 8);
      [assumption | discriminate]. }
  repeat split; auto.
  - now rewrite !firstn_skipn.
  - rewrite length_firstn. lia.
  - intros Hc. rewrite length_firstn.
    assert (List.length (skipn (N.to_nat n) (skipn 8 file_in)) <> 0)%nat
      by (destruct (skipn (N.to_nat n) (skipn 8 file_in));
          [congruence | discriminate]).
    rewrite length_skipn in H. lia.
Qed.

Lemma load_splits_the_file_witness :
  let file_in := Struct.le_bytes 8 2 ++ [x7b; x7d; x41; x42] in
  exists text,
    file_in = firstn 8 file_in ++ text ++ [x41; x42]
    /\ Json.loads text = Ok (JObj []).
Proof.
  intros file_in.
  destruct (@load_splits_the_file file_in (JObj []) [x41; x42] eq_refl)
    as (head_len & text & H1 & _ & _ & _ & _ & H2 & _).
  exists text. split; assumption.
Defined.

Lemma firstn_firstn_eq {A} (n m : nat) (f g : list A) :
  (n <= m)%nat -> firstn m f = firstn m g -> firstn n f = firstn n g.
Proof.
  intros Hle H.
  rewrite <- (Nat.min_l n m) by lia.
  now rewrite <- !firstn_firstn, H.
Qed.

Lemma firstn_skipn_eq {A} (k n : nat) (f g : list A) :
  firstn (k + n) f = firstn (k + n) g ->
  firstn n (skipn k f) = firstn n (skipn k g).
Proof.
  revert f g; induction k as [|k IH]; intros f g H.
  - exact H.
  - destruct f as [|x f], g as [|y g]; cbn [Nat.add firstn skipn] in *.
    + reflexivity.
    + discriminate H.
    + discriminate H.
    + injection H as _ H. now apply IH.
Qed.

(** X7.  [example_read_only.py] looks at nothing behind the header: two
    files that agree on the length prefix and on the header bytes it
    declares give the same run, line for line, whatever their content. *)
Theorem read_only_ignores_body (f g : pybytes) (head_len : N) :
  Struct.unpack_Q (firstn 8 f) = Ok head_len ->
  firstn (8 + N.to_nat head_len) f = firstn (8 + N.to_nat head_len) g ->
  ExampleReadOnly.load f = ExampleReadOnly.load g
  /\ ExampleReadOnly.process f = ExampleReadOnly.process g.
Proof.
  intros Hu Hfg.
  assert (H8 : firstn 8 f = firstn 8 g)
    by (apply (firstn_firstn_eq (m := 8 + N.to_nat head_len)); [lia | auto]).
  assert (Ht : firstn (N.to_nat head_len) (skipn 8 f)
               = firstn (N.to_nat head_len) (skipn 8 g))
    by now apply firstn_skipn_eq.
  assert (Hload : ExampleReadOnly.load f = ExampleReadOnly.load g).
  { unfold ExampleReadOnly.load, File.read.
    change (8 <? 2 ^ 63) with true. cbv iota.
    change (N.to_nat 8) with 8%nat. cbn [bind].
    rewrite <- H8, Hu. cbn [bind].
    destruct (head_len <? 2 ^ 63); cbn [bind]; [|reflexivity].
    now rewrite Ht. }
  split; [exact Hload|].
  unfold ExampleReadOnly.process. now rewrite Hload.
Qed.

Lemma read_only_ignores_body_witness :
  let f := Struct.le_bytes 8 2 ++ [x7b; x7d; x41; x42] in
  let g := Struct.le_bytes 8 2 ++ [x7b; x7d; xff] in
  ExampleReadOnly.process f = ExampleReadOnly.process g.
Proof.
  intros f g.
  apply (@read_only_ignores_body f g 2); reflexivity.
Defined.

(** ** The base64 text of the image *)

Lemma b64_index_char (n : N) :
  n < 64 ->
  b64_index (Byte.to_N (Base64.b64char n)) = n
  /\ b64_alphabet (Byte.to_N (Base64.b64char n)) = true.
Proof.
  intros H. unfold Base64.b64char. rewrite to_N_byte_of_N.
  destruct (n <? 26) eqn:E1.
  { apply N.ltb_lt in E1. rewrite N.mod_small by lia.
    unfold b64_index, b64_alphabet.
    assert ((65 <=? 65 + n) && (65 + n <=? 90) = true) as ->
        by (apply andb_true_iff; split; apply N.leb_le; lia).
    split; [lia | reflexivity]. }
  apply N.ltb_ge in E1.
  destruct (n <? 52) eqn:E2.
  { apply N.ltb_lt in E2. rewrite N.mod_small by lia.
    unfold b64_index, b64_alphabet.
    assert ((65 <=? 71 + n) && (71 + n <=? 90) = false) as ->
        by (apply andb_false_iff; right; apply N.leb_gt; lia).
    assert ((97 <=? 71 + n) && (71 + n <=? 122) = true) as ->
        by (apply andb_true_iff; split; apply N.leb_le; lia).
    split; [lia | reflexivity]. }
  apply N.ltb_ge in E2.
  destruct (n <? 62) eqn:E3.
  { apply N.ltb_lt in E3. rewrite N.mod_small by lia.
    unfold b64_index, b64_alphabet.
    assert ((65 <=? n - 4) && (n - 4 <=? 90) = false) as ->
        by (apply andb_false_iff; left; apply N.leb_gt; lia).
    assert ((97 <=? n - 4) && (n - 4 <=? 122) = false) as ->
        by (apply andb_false_iff; left; apply N.leb_gt; lia).
    assert ((48 <=? n - 4) && (n - 4 <=? 57) = true) as ->
        by (apply andb_true_iff; split; apply N.leb_le; lia).
    split; [lia | reflexivity]. }
  apply N.ltb_ge in E3.
  destruct (N.eqb_spec n 62) as [->|Hne]; [split; reflexivity|].
  assert (n = 63) as -> by lia. split; reflexivity.
Qed.

Lemma b64char_inj (n m : N) :
  n < 64 -> m < 64 -> Base64.b64char n = Base64.b64char m -> n = m.
Proof.
  intros Hn Hm H.
  destruct (b64_index_char Hn) as [<- _].
  destruct (b64_index_char Hm) as [<- _].
  now rewrite H.
Qed.

Lemma b64char_not_pad (n : N) :
  n < 64 -> Base64.b64char n <> Base64.pad_char.
Proof.
  intros Hn H. destruct (b64_index_char Hn) as [E _].
  rewrite H in E. vm_compute in E. subst n. discriminate Hn.
Qed.


Lemma b64encode_length (b : pybytes) :
  List.length (Base64.b64encode b) = (4 * ((List.length b + 2) / 3))%nat.
Proof.
  induction b as [|x|x y|x y z r IH] using list_ind3;
    try reflexivity.
  cbn [Base64.b64encode List.length]. rewrite IH.
  replace (S (S (S (List.length r))) + 2)%nat
    with (List.length r + 2 + 1 * 3)%nat by lia.
  rewrite Nat.div_add by discriminate. lia.
Qed.


Lemma list_cases3 {A} (l : list A) :
  l = [] \/ (exists x, l = [x]) \/ (exists x y, l = [x; y])
  \/ exists x y z r, l = x :: y :: z :: r.
Proof.
  destruct l as [|x [|y [|z r]]]; eauto 10.
Qed.

Lemma to_N_inj (x y : byte) : Byte.to_N x = Byte.to_N y -> x = y.
Proof.
  intros H. rewrite <- (byte_of_N_to_N x), <- (byte_of_N_to_N y).
  now rewrite H.
Qed.

Lemma b64encode_nil (b : pybytes) : Base64.b64encode b = [] -> b = [].
Proof.
  intros H. apply (f_equal (@List.length byte)) in H.
  rewrite b64encode_length in H. cbn [List.length] in H.
  destruct b as [|x r]; [reflexivity|]. cbn [List.length] in H.
  assert (1 <= (S (List.length r) + 2) / 3)%nat
    by (apply Nat.div_le_lower_bound; lia).
  lia.
Qed.

Lemma b64_group_bounds (n m o : N) :
  n < 256 -> m < 256 -> o < 256 ->
  n / 4 < 64 /\ n mod 4 * 16 < 64 /\ n mod 4 * 16 + m / 16 < 64
  /\ m mod 16 * 4 < 64 /\ m mod 16 * 4 + o / 64 < 64 /\ o mod 64 < 64.
Proof. intros Hn Hm Ho. repeat split; divmod. Qed.

Lemma b64_group_inj (n m o n' m' o' : N) :
  n < 256 -> m < 256 -> o < 256 -> n' < 256 -> m' < 256 -> o' < 256 ->
  n / 4 = n' / 4 ->
  n mod 4 * 16 + m / 16 = n' mod 4 * 16 + m' / 16 ->
  m mod 16 * 4 + o / 64 = m' mod 16 * 4 + o' / 64 ->
  o mod 64 = o' mod 64 ->
  n = n' /\ m = m' /\ o = o'.
Proof.
  intros Hn Hm Ho Hn' Hm' Ho'.
  pose proof (N.div_mod n 4). pose proof (N.mod_lt n 4).
  pose proof (N.div_mod n' 4). pose proof (N.mod_lt n' 4).
  pose proof (N.div_mod m 16). pose proof (N.mod_lt m 16).
  pose proof (N.div_mod m' 16). pose proof (N.mod_lt m' 16).
  pose proof (N.div_mod o 64). pose proof (N.mod_lt o 64).
  pose proof (N.div_mod o' 64). pose proof (N.mod_lt o' 64).
  generalize dependent (n / 4). generalize dependent (n mod 4).
  generalize dependent (n' / 4). generalize dependent (n' mod 4).
  generalize dependent (m / 16). generalize dependent (m mod 16).
  generalize dependent (m' / 16). generalize dependent (m' mod 16).
  generalize dependent (o / 64). generalize dependent (o mod 64).
  generalize dependent (o' / 64). generalize dependent (o' mod 64).
  intros. lia.
Qed.

Lemma b64encode_inj (a b : pybytes) :
  Base64.b64encode a = Base64.b64encode b -> a = b.
Proof.
  revert b.
  induction a as [|x|x y|x y z r IH] using list_ind3; intros b H.
  - symmetry. apply b64encode_nil. now rewrite <- H.
  - destruct (b64_group_bounds (to_N_lt_256 x) (to_N_lt_256 x)
                (to_N_lt_256 x)) as (? & ? & ? & ? & ? & ?).
    destruct (list_cases3 b)
      as [-> | [(x' & ->) | [(x' & y' & ->) | (x' & y' & z' & r' & ->)]]].
    + discriminate H.
    + destruct (b64_group_bounds (to_N_lt_256 x') (to_N_lt_256 x')
                  (to_N_lt_256 x')) as (? & ? & ? & ? & ? & ?).
      cbn [Base64.b64encode] in H. injection H as Q1 Q2.
      apply b64char_inj in Q1, Q2; try assumption.
      destruct (@b64_group_inj (Byte.to_N x) 0 0 (Byte.to_N x') 0 0)
        as (Ex & _ & _);
        try apply to_N_lt_256; try reflexivity; try assumption.
      { change (0 / 16) with 0. now rewrite !N.add_0_r. }
      f_equal. now apply to_N_inj.
    + destruct (b64_group_bounds (to_N_lt_256 x') (to_N_lt_256 y')
                  (to_N_lt_256 y')) as (? & ? & ? & ? & ? & ?).
      cbn [Base64.b64encode] in H. injection H as _ _ Q3.
      symmetry in Q3. now apply b64char_not_pad in Q3.
    + destruct (b64_group_bounds (to_N_lt_256 x') (to_N_lt_256 y')
                  (to_N_lt_256 z')) as (? & ? & ? & ? & ? & ?).
      cbn [Base64.b64encode] in H. injection H as _ _ Q3 _.
      symmetry in Q3. now apply b64char_not_pad in Q3.
  - destruct (b64_group_bounds (to_N_lt_256 x) (to_N_lt_256 y)
                (to_N_lt_256 y)) as (? & ? & ? & ? & ? & ?).
    destruct (list_cases3 b)
      as [-> | [(x' & ->) | [(x' & y' & ->) | (x' & y' & z' & r' & ->)]]].
    + discriminate H.
    + cbn [Base64.b64encode] in H. injection H as _ _ Q3.
      now apply b64char_not_pad in Q3.
    + destruct (b64_group_bounds (to_N_lt_256 x') (to_N_lt_256 y')
                  (to_N_lt_256 y')) as (? & ? & ? & ? & ? & ?).
      cbn [Base64.b64encode] in H. injection H as Q1 Q2 Q3.
      apply b64char_inj in Q1, Q2, Q3; try assumption.
      destruct (@b64_group_inj (Byte.to_N x) (Byte.to_N y) 0
                  (Byte.to_N x') (Byte.to_N y') 0) as (Ex & Ey & _);
        try apply to_N_lt_256; try reflexivity; try assumption.
      { change (0 / 64) with 0. now rewrite !N.add_0_r. }
      f_equal; [|f_equal]; now apply to_N_inj.
    + destruct (b64_group_bounds (to_N_lt_256 x') (to_N_lt_256 y')
                  (to_N_lt_256 z')) as (? & ? & ? & ? & ? & ?).
      cbn [Base64.b64encode] in H. injection H as _ _ _ Q4.
      symmetry in Q4. now apply b64char_not_pad in Q4.
  - destruct (b64_group_bounds (to_N_lt_256 x) (to_N_lt_256 y)
                (to_N_lt_256 z)) as (? & ? & ? & ? & ? & ?).
    destruct (list_cases3 b)
      as [-> | [(x' & ->) | [(x' & y' & ->) | (x' & y' & z' & r' & ->)]]].
    + discriminate H.
    + cbn [Base64.b64encode] in H. injection H as _ _ Q3 _.
      now apply b64char_not_pad in Q3.
    + cbn [Base64.b64encode] in H. injection H as _ _ _ Q4.
      now apply b64char_not_pad in Q4.
    + destruct (b64_group_bounds (to_N_lt_256 x') (to_N_lt_256 y')
                  (to_N_lt_256 z')) as (? & ? & ? & ? & ? & ?).
      cbn [Base64.b64encode] in H. injection H as Q1 Q2 Q3 Q4 Q5.
      apply b64char_inj in Q1, Q2, Q3, Q4; try assumption.
      destruct (@b64_group_inj (Byte.to_N x) (Byte.to_N y) (Byte.to_N z)
                  (Byte.to_N x') (Byte.to_N y') (Byte.to_N z'))
        as (Ex & Ey & Ez); try apply to_N_lt_256; try assumption.
      f_equal; [|f_equal; [|f_equal]]; try now apply to_N_inj.
      now apply IH.
Qed.

Lemma map_to_N_inj (a b : pybytes) :
  map Byte.to_N a = map Byte.to_N b -> a = b.
Proof.
  revert b; induction a as [|x a IH]; intros [|y b] H;
    try discriminate; [reflexivity|].
  injection H as H1 H2. f_equal; [now apply to_N_inj | now apply IH].
Qed.

(** X9.  [convert_to_b64] loses nothing: two images with the same base64
    text have the same PNG bytes, so that the thumbnail stored by [process]
    determines the encoded image. *)
Theorem convert_to_b64_injective (a b : Image) :
  convert_to_b64 a = convert_to_b64 b -> png a = png b.
Proof.
  rewrite !convert_to_b64_ok. intros [= H].
  now apply b64encode_inj, map_to_N_inj.
Qed.

Lemma convert_to_b64_injective_witness :
  png {| png := [x41; x42] |} = png {| png := [x41; x42] |}.
Proof.
  apply convert_to_b64_injective. reflexivity.
Defined.

(** ** What the scripts write stays within the data model *)

Lemma ascii_not_high (c : N) :
  (c <? 128) = true -> Json.is_high c = false.
Proof.
  intros H. apply N.ltb_lt in H. unfold Json.is_high.
  apply andb_false_iff. left. apply N.leb_gt. lia.
Qed.

Lemma wf_str_app_ascii (a b : pystr) :
  ascii_text a = true -> wf_str b = true -> wf_str (a ++ b) = true.
Proof.
  intros Ha Hb. induction a as [|c a IH]; [exact Hb|].
  cbn [ascii_text forallb] in Ha. apply andb_true_iff in Ha as [Hc Ha].
  cbn [app wf_str]. rewrite (IH Ha), andb_true_r.
  rewrite (ascii_not_high _ Hc). cbn [andb negb].
  apply N.ltb_lt in Hc.
  assert ((c <? 0x110000) = true) as -> by (apply N.ltb_lt; lia).
  now destruct (a ++ b).
Qed.

Lemma wf_str_ascii (a : pystr) : ascii_text a = true -> wf_str a = true.
Proof.
  intros H. rewrite <- (List.app_nil_r a). now apply wf_str_app_ascii.
Qed.

(** Two well-formed strings make a well-formed one unless the second
    begins with a low surrogate. *)
Lemma wf_str_app (a : pystr) (c : N) (b : pystr) :
  wf_str a = true -> wf_str (c :: b) = true -> Json.is_low c = false ->
  wf_str (a ++ c :: b) = true.
Proof.
  intros Ha Hb Hc. induction a as [|x a IH]; [exact Hb|].
  cbn [wf_str] in Ha. apply andb_true_iff in Ha as [Ha Ha3].
  apply andb_true_iff in Ha as [Ha1 Ha2].
  cbn [app wf_str]. rewrite (IH Ha3), Ha1.
  destruct a as [|y a]; cbn [app];
    [rewrite Hc, andb_false_r | rewrite Ha2]; reflexivity.
Qed.

Lemma wf_str_skipn (n : nat) (s : pystr) :
  wf_str s = true -> wf_str (skipn n s) = true.
Proof.
  revert s; induction n as [|n IH]; intros [|c s] H; auto.
  cbn [skipn]. apply IH. apply wf_str_cons in H. tauto.
Qed.

Lemma wf_obj (d : dict) :
  wf_value (JObj d)
  = distinct (map fst d)
    && forallb (fun kv => wf_str (fst kv) && wf_value (snd kv)) d.
Proof. reflexivity. Qed.

Lemma wf_entries_set (k : pystr) (v : value) (d : dict) :
  wf_str k = true -> wf_value v = true ->
  forallb (fun kv => wf_str (fst kv) && wf_value (snd kv)) d = true ->
  forallb (fun kv => wf_str (fst kv) && wf_value (snd kv)) (Dict.set k v d)
  = true.
Proof.
  intros Hk Hv. induction d as [|[k' v'] d IH]; cbn [Dict.set forallb fst snd].
  - now rewrite Hk, Hv.
  - rewrite andb_true_iff. intros [H1 H2].
    destruct (str_eqb k k') eqn:E; cbn [forallb fst snd].
    + apply andb_true_iff in H1 as [H1 _]. now rewrite H1, Hv, H2.
    + now rewrite H1, IH.
Qed.

Lemma wf_set (k : pystr) (v : value) (d : dict) :
  wf_str k = true -> wf_value v = true ->
  wf_value (JObj d) = true -> wf_value (JObj (Dict.set k v d)) = true.
Proof.
  intros Hk Hv. rewrite !wf_obj, !andb_true_iff. intros [H1 H2]. split.
  - now apply distinct_set.
  - now apply wf_entries_set.
Qed.

Lemma existsb_filter_keys (p : pystr -> bool) (k : pystr) (d : dict) :
  existsb (str_eqb k) (map fst d) = false ->
  existsb (str_eqb k) (map fst (filter (fun kv => p (fst kv)) d)) = false.
Proof.
  induction d as [|[k' v'] d IH]; cbn [map fst filter existsb]; auto.
  intros H. apply orb_false_iff in H as [H1 H2].
  destruct (p k'); cbn [map fst existsb]; [rewrite H1|]; auto.
Qed.

Lemma wf_filter (p : pystr -> bool) (d : dict) :
  wf_value (JObj d) = true ->
  wf_value (JObj (filter (fun kv => p (fst kv)) d)) = true.
Proof.
  rewrite !wf_obj. induction d as [|[k v] d IH]; [reflexivity|].
  cbn [map fst snd distinct forallb filter].
  rewrite !andb_true_iff. intros [[H1 H2] [[H3 H4] H5]].
  assert (IH' := IH). rewrite H2, H5 in IH'.
  specialize (IH' eq_refl). apply andb_true_iff in IH' as [I1 I2].
  destruct (p k); cbn [map fst snd distinct forallb].
  - rewrite ?andb_true_iff. repeat split; auto.
    apply negb_true_iff, existsb_filter_keys. now apply negb_true_iff.
  - rewrite ?andb_true_iff. auto.
Qed.

Lemma wf_update (acc m : dict) :
  wf_value (JObj acc) = true ->
  forallb (fun kv => wf_str (fst kv) && wf_value (snd kv)) m = true ->
  wf_value (JObj (Dict.update acc m)) = true.
Proof.
  revert acc; induction m as [|[k v] m IH]; intros acc Ha Hm; [exact Ha|].
  cbn [forallb fst snd] in Hm. rewrite !andb_true_iff in Hm.
  destruct Hm as [[H1 H2] H3].
  unfold Dict.update in *. cbn [fold_left fst snd].
  apply IH; [now apply wf_set | exact H3].
Qed.

Lemma wf_get (k : pystr) (v : value) (d : dict) :
  wf_value (JObj d) = true -> Dict.get k d = Some v -> wf_value v = true.
Proof.
  rewrite wf_obj, andb_true_iff. intros [_ H].
  induction d as [|[k' v'] d IH]; cbn [Dict.get]; [discriminate|].
  cbn [forallb fst snd] in H. rewrite !andb_true_iff in H.
  destruct H as [[_ H1] H2].
  destruct (str_eqb k k'); [intros [= <-]; exact H1 | now apply IH].
Qed.

(** The image branch, spelled out. *)
Lemma update_thumbnail_value (metadata : dict) (image_path : pystr)
  (img : Image) :
  update_thumbnail metadata image_path img
  = if negb (str_eqb image_path []) then
      ([text_line "Loading image..."],
       Ok (Dict.set (lit "modelspec.thumbnail")
             (JStr (lit "data:image/" ++ snd (Path.splitext image_path)
                    ++ lit ";base64,"
                    ++ map Byte.to_N (Base64.b64encode (png img))))
             metadata))
    else ([], Ok metadata).
Proof.
  unfold update_thumbnail.
  destruct (negb (str_eqb image_path [])); [|reflexivity].
  unfold print_str. rewrite iobind_print, convert_to_b64_ok, iobind_ok.
  reflexivity.
Qed.

Lemma splitext_suffix (p : pystr) :
  exists n, snd (Path.splitext p) = skipn n p.
Proof.
  unfold Path.splitext.
  destruct (_ <? _)%Z; [|exists (List.length p); now rewrite skipn_all].
  destruct (existsb _ _); [eexists; reflexivity|].
  exists (List.length p); now rewrite skipn_all.
Qed.

Lemma ascii_text_app (a b : pystr) :
  ascii_text (a ++ b) = ascii_text a && ascii_text b.
Proof. apply forallb_app. Qed.

Lemma b64_text_ascii (b : pybytes) :
  ascii_text (map Byte.to_N (Base64.b64encode b)) = true.
Proof.
  unfold ascii_text. pose proof (b64encode_ascii b) as H.
  induction (Base64.b64encode b) as [|x l IH]; [reflexivity|].
  cbn [map forallb] in *. apply andb_true_iff in H as [H1 H2].
  now rewrite H1, IH.
Qed.

Lemma wf_thumbnail (image_path : pystr) (img : Image) :
  wf_str image_path = true ->
  wf_str (lit "data:image/" ++ snd (Path.splitext image_path)
          ++ lit ";base64,"
          ++ map Byte.to_N (Base64.b64encode (png img))) = true.
Proof.
  intros Hp. apply wf_str_app_ascii; [reflexivity|].
  destruct (splitext_suffix image_path) as [n ->].
  change (lit ";base64,") with (59 :: lit "base64,").
  cbn [app]. apply wf_str_app.
  - now apply wf_str_skipn.
  - apply wf_str_ascii.
    change (59 :: lit "base64," ++ map Byte.to_N (Base64.b64encode (png img)))
      with (lit ";base64," ++ map Byte.to_N (Base64.b64encode (png img))).
    rewrite ascii_text_app, b64_text_ascii. reflexivity.
  - reflexivity.
Qed.

Lemma lower_hex_ascii (s : pystr) :
  forallb lower_hex s = true -> ascii_text s = true.
Proof.
  unfold ascii_text. rewrite !forallb_forall. intros H c Hin.
  specialize (H c Hin). unfold lower_hex in H.
  apply N.ltb_lt.
  apply orb_true_iff in H as [H|H]; apply andb_true_iff in H as [_ H];
    apply N.leb_le in H; lia.
Qed.

Lemma wf_hash (content : pybytes) :
  wf_str (ExampleNoReqs.hash_sha256 content) = true.
Proof.
  apply wf_str_ascii. unfold ExampleNoReqs.hash_sha256.
  rewrite ascii_text_app. apply andb_true_iff. split; [reflexivity|].
  apply lower_hex_ascii, hexdigest_shape.
Qed.

(** The entries that [process] is about to merge are of the data model
    when the caller's entries and [image_path] are. *)
Lemma wf_entries (metadata entries : dict) (image_path : pystr) (img : Image)
  (content : pybytes) :
  wf_value (JObj metadata) = true ->
  wf_str image_path = true ->
  snd (update_thumbnail metadata image_path img) = Ok entries ->
  wf_value (JObj (Dict.set (lit "modelspec.hash_sha256")
                    (JStr (ExampleNoReqs.hash_sha256 content)) entries))
  = true.
Proof.
  intros Hm Hp Hu. rewrite update_thumbnail_value in Hu.
  apply wf_set; [reflexivity | apply wf_hash |].
  destruct (negb (str_eqb image_path [])); cbn [snd] in Hu;
    injection Hu as <-; [|exact Hm].
  apply wf_set; [reflexivity | now apply wf_thumbnail | exact Hm].
Qed.

(** The header that [process] is about to save is of the data model when
    the header it loaded, the caller's entries and [image_path] are. *)
Lemma prepare_wf (metadata : dict) (image_path : pystr) (img : Image)
  (file_in : pybytes) (header_in header_out : value) (content : pybytes) :
  ExampleNoReqs.load file_in = Ok (header_in, content) ->
  wf_value header_in = true ->
  wf_value (JObj metadata) = true ->
  wf_str image_path = true ->
  snd (ExampleNoReqs.prepare metadata image_path img file_in)
  = Ok (header_out, content) ->
  wf_value header_out = true.
Proof.
  intros Hl Hin Hm Hp H.
  apply prepare_result in H
    as (header_in' & entries & orig & Hl' & Hu & Hr & Ha).
  rewrite Hl in Hl'. injection Hl' as <-.
  apply apply_metadata_result in Ha as (d & -> & ->).
  pose proof (@wf_entries metadata entries image_path img content Hm Hp Hu)
    as He.
  apply wf_set; [reflexivity | | exact Hin].
  rewrite wf_obj in He. apply andb_true_iff in He as [_ He].
  apply wf_update; [|exact He].
  apply read_metadata_result in Hr as [[_ ->] | (m_in & Hg & ->)];
    [reflexivity|].
  apply wf_filter.
  unfold Py.getitem in Hg.
  destruct (Dict.get (lit "__metadata__") d) as [v|] eqn:G; [|discriminate].
  injection Hg as ->. exact (@wf_get _ _ d Hin G).
Qed.

(** A file that [save] has written is read back as it was written, when
    the header is of the data model and the file not too long for a read. *)
Lemma save_load (header : value) (content out : pybytes) :
  wf_value header = true ->
  ExampleNoReqs.save header content = Ok out ->
  N.of_nat (List.length out) < 2 ^ 63 ->
  ExampleNoReqs.load out = Ok (header, content).
Proof.
  intros Hwf Hs Hn.
  apply save_result in Hs as (prefix & Hp & ->).
  apply unpack_pack in Hp as [Hu Hl].
  assert (Ht : N.of_nat (List.length (map byte_of_N (Json.dumps header)))
               < 2 ^ 63)
    by (rewrite !length_app in Hn; lia).
  destruct (@read_frame prefix (map byte_of_N (Json.dumps header)) content
              Hl Ht) as [R1 R2].
  rewrite length_map in R2.
  unfold ExampleNoReqs.load.
  rewrite R1. cbn [bind]. rewrite Hu. cbn [bind]. rewrite R2. cbn [bind].
  rewrite loads_dumps by exact Hwf. reflexivity.
Qed.

(** ** A written file, read again *)

Lemma process_result (metadata : dict) (image_path : pystr) (img : Image)
  (file_in out : pybytes) :
  snd (ExampleNoReqs.process metadata image_path img file_in) = Ok out ->
  exists header_out content,
    snd (ExampleNoReqs.prepare metadata image_path img file_in)
    = Ok (header_out, content)
    /\ ExampleNoReqs.save header_out content = Ok out.
Proof.
  rewrite process_snd.
  destruct (snd (ExampleNoReqs.prepare metadata image_path img file_in))
    as [[header_out content]|e]; [|discriminate].
  eauto.
Qed.

(** X10.  What [example_no_reqs.py] writes, both readers read back: when
    the loaded header, the caller's entries and [image_path] are of the data
    model and the output is not too long for a read, loading the output
    gives exactly the header that was saved and the content of the input,
    byte for byte. *)
Theorem written_file_is_read_back (metadata : dict) (image_path : pystr)
  (img : Image) (file_in out : pybytes) (header_in : value)
  (content : pybytes) :
  ExampleNoReqs.load file_in = Ok (header_in, content) ->
  wf_value header_in = true ->
  wf_value (JObj metadata) = true ->
  wf_str image_path = true ->
  snd (ExampleNoReqs.process metadata image_path img file_in) = Ok out ->
  N.of_nat (List.length out) < 2 ^ 63 ->
  exists header_out,
    snd (ExampleNoReqs.prepare metadata image_path img file_in)
    = Ok (header_out, content)
    /\ wf_value header_out = true
    /\ ExampleNoReqs.load out = Ok (header_out, content)
    /\ ExampleReadOnly.load out = Ok header_out.
Proof.
  intros Hl Hin Hm Hp H Hn.
  apply process_result in H as (header_out & content' & Hprep & Hs).
  assert (content' = content) as ->.
  { pose proof Hprep as Hc. apply prepare_result in Hc as (? & ? & ? & Hl' & _).
    rewrite Hl in Hl'. now injection Hl' as _ <-. }
  pose proof (@prepare_wf metadata image_path img file_in header_in header_out
                content Hl Hin Hm Hp Hprep) as Hwf.
  pose proof (@save_load header_out content out Hwf Hs Hn) as Hload.
  exists header_out. repeat split; auto.
  rewrite read_only_load, Hload. reflexivity.
Qed.

Lemma written_file_is_read_back_witness :
  let d := [(lit "weight", JObj [(lit "dtype", JStr (lit "F32"))]);
            (lit "__metadata__",
             JObj [(lit "format", JStr (lit "pt"));
                   (lit "modelspec.title", JStr (lit "old"))])] in
  let file_in := match ExampleNoReqs.save (JObj d) [x41; x42] with
                 | Ok b => b
                 | Raise _ => []
                 end in
  exists out header_out,
    snd (ExampleNoReqs.process ExampleNoReqs.metadata
           ExampleNoReqs.image_path {| png := [x41] |} file_in) = Ok out
    /\ ExampleNoReqs.load out = Ok (header_out, [x41; x42]).
Proof.
  intros d file_in.
  destruct (snd (ExampleNoReqs.process ExampleNoReqs.metadata
                   ExampleNoReqs.image_path {| png := [x41] |} file_in))
    as [out|e] eqn:E.
  - assert (Hn : N.of_nat (List.length out) < 2 ^ 63).
    { vm_compute in E. injection E as <-. vm_compute. reflexivity. }
    assert (H1 : ExampleNoReqs.load file_in = Ok (JObj d, [x41; x42]))
      by (vm_compute; reflexivity).
    assert (H2 : wf_value (JObj d) = true) by (vm_compute; reflexivity).
    assert (H3 : wf_value (JObj ExampleNoReqs.metadata) = true)
      by (vm_compute; reflexivity).
    assert (H4 : wf_str ExampleNoReqs.image_path = true)
      by (vm_compute; reflexivity).
    destruct (@written_file_is_read_back ExampleNoReqs.metadata
                ExampleNoReqs.image_path {| png := [x41] |} file_in out
                (JObj d) [x41; x42] H1 H2 H3 H4 E Hn)
      as (header_out & _ & _ & Hload & _).
    exists out, header_out. split; [reflexivity | exact Hload].
  - vm_compute in E. discriminate E.
Defined.



















(** ** The script as a program: arguments and files *)









(** ** Values that are no strings *)






(** ** Headers of white space *)









(** ** Test vectors *)

Example sha256_empty :
  Hashlib.hexdigest []
  = lit "e3b0c44298fc1c149afbf4c8996fb92427ae41e4649b934ca495991b7852b855".
Proof. vm_compute. reflexivity. Qed.

Example sha256_ABCD :
  Hashlib.hexdigest [x41; x42; x43; x44]
  = lit "e12e115acf4552b2568b55e93cbd39394c4ef81c82447fafc997882a02d23677".
Proof. vm_compute. reflexivity. Qed.

Example b64encode_ABCD :
  map Byte.to_N (Base64.b64encode [x41; x42; x43; x44]) = lit "QUJDRA==".
Proof. vm_compute. reflexivity. Qed.

Example splitext_example :
  Path.splitext (lit "../images/example.jpg")
  = (lit "../images/example", lit ".jpg").
Proof. vm_compute. reflexivity. Qed.

Example splitext_dotfile :
  Path.splitext (lit "models/.hidden") = (lit "models/.hidden", []).
Proof. vm_compute. reflexivity. Qed.

Example dumps_example :
  Json.dumps (JObj [(lit "a", JArr [JInt 1; JInt (-20); JBool true; JNull]);
                    (lit "b", JStr [233; 0x1F600; 10])])
  = lit "{" ++ [34] ++ lit "a" ++ [34] ++ lit ": [1, -20, true, null], "
    ++ [34] ++ lit "b" ++ [34] ++ lit ": " ++ [34]
    ++ lit "\u00e9\ud83d\ude00\n" ++ [34] ++ lit "}".
Proof. vm_compute. reflexivity. Qed.

Example loads_last_key_wins :
  Json.loads (map byte_of_N (lit "{" ++ [34] ++ lit "a" ++ [34] ++ lit ":1 ,"
                             ++ [34] ++ lit "a" ++ [34] ++ lit " : [ ] }"))
  = Ok (JObj [(lit "a", JArr [])]).
Proof. vm_compute. reflexivity. Qed.

Example loads_float_not_embedded :
  Json.loads (map byte_of_N (lit "[1.5]")) = Raise NotEmbedded.
Proof. vm_compute. reflexivity. Qed.

Example loads_truncated_text :
  Json.loads
    (map byte_of_N (lit "{" ++ [34] ++ lit "a" ++ [34] ++ lit ": [1, "))
  = Raise JSONDecodeError.
Proof. vm_compute. reflexivity. Qed.
